(** * Nevo voice bot: retrieval and orchestration core

    A shallow embedding of [src/lib/knowledge-base.ts], [src/lib/calculator.ts],
    [src/lib/tools.ts], the [POST /api/chat] route and the body the page
    posts to it ([sendToChat] of [src/app/page.tsx]), with the properties of
    the specification and further properties of the code stated and proved
    over it.

    Conventions of the embedding.
    - A JavaScript string is a Rocq [string].  Corpus text and queries are
      ASCII, where one [ascii] is one code unit and [toLowerCase], [length],
      [substring] and the regular expressions of [tokenize] are exact; the
      few symbols beyond ASCII in the program's own literals are carried as
      their UTF-8 bytes and are only ever concatenated.
    - A JavaScript number is an exact rational ([Q]) where the arithmetic
      stays among the finite numbers: in payloads, in the corpus and in the
      health calculator.  The term calculator, whose sums and products can
      leave them, computes over [JsNumber]: a rational below the overflow
      threshold, [Infinity], [-Infinity] or [NaN].  Scores and counters,
      which only ever hold small integers, are [Z] and [nat].
    - Built-ins that format numbers or serialise records ([toFixed],
      [toLocaleString], [JSON.stringify]) and the corpus snapshot
      [@/data/knowledge-base.json] are parameters of the development.
    - A tool payload is a map of JSON values.  The program casts its
      properties without checking them.  Where a property holds a value of
      another type than the cast names, the embedding follows the program
      where it raises a [TypeError] or falls back on a default, and stops
      with [IllTyped] where JavaScript's coercions would take over.
    - The body of a chat request is any JSON value; [POST_raw] reads it the
      way the route does and hands the typed body to [POST]. *)

From Stdlib Require Import ZArith QArith Qround Qminmax Lia List Bool Ascii String.
From Stdlib Require Import DecimalString Lqa.
From stdpp Require Import base option list sorting gmap strings.
Import ListNotations.

Local Open Scope Z_scope.

(* ===================================================================== *)
(** ** JavaScript strings                                                  *)
(* ===================================================================== *)

Module JsString.

Local Open Scope string_scope.

(** [s.includes(t)]: [t] occurs in [s] as a contiguous run of code units. *)
Fixpoint includes (s t : string) : bool :=
  if String.prefix t s then true
  else match s with
       | EmptyString => false
       | String _ s' => includes s' t
       end.

(** [s.substring(0, n)] *)
Definition substring0 (n : nat) (s : string) : string := String.substring 0 n s.

(** [parts.join(sep)] *)
Definition join (sep : string) (parts : list string) : string :=
  String.concat sep parts.

Definition code (c : ascii) : N := N_of_ascii c.

Definition between (lo hi n : N) : bool := ((lo <=? n) && (n <=? hi))%N.

(** The ASCII letters A-Z have their lower-case form 32 code points above;
    no other ASCII code unit changes. *)
Definition lowerChar (c : ascii) : ascii :=
  let n := code c in
  if between 65 90 n then ascii_of_N (n + 32) else c.

Fixpoint toLowerCase (s : string) : string :=
  match s with
  | EmptyString => EmptyString
  | String c s' => String (lowerChar c) (toLowerCase s')
  end.

(** The class [\s] on ASCII: TAB, LF, VT, FF, CR and SPACE. *)
Definition isSpace (c : ascii) : bool :=
  let n := code c in between 9 13 n || (n =? 32)%N.

(** The class [[a-z0-9]]. *)
Definition isLowerAlnum (c : ascii) : bool :=
  let n := code c in between 97 122 n || between 48 57 n.

(** [s.replace(/[^a-z0-9\s]/g, ' ')] *)
Fixpoint replaceNonAlnum (s : string) : string :=
  match s with
  | EmptyString => EmptyString
  | String c s' =>
      String (if isLowerAlnum c || isSpace c then c else " "%char)
             (replaceNonAlnum s')
  end.

(** [s.split(/\s+/)]: the pieces between maximal runs of white space.  A run
    at either end of [s] leaves an empty piece at that end, and the empty
    string splits into one empty piece.  [cur] is the piece being read and
    [inSep] tells that the previous code unit was white space. *)
Fixpoint splitGo (s cur : string) (inSep : bool) : list string :=
  match s with
  | EmptyString => [cur]
  | String c s' =>
      if isSpace c
      then (if inSep then splitGo s' EmptyString true
            else cur :: splitGo s' EmptyString true)
      else splitGo s' (cur ++ String c EmptyString) false
  end.

Definition splitWhitespace (s : string) : list string :=
  splitGo s EmptyString false.

(** Declarative reading of [includes]. *)
Definition isSubstring (t s : string) : Prop :=
  exists pre post, s = pre ++ t ++ post.

End JsString.

Import JsString.

(* ===================================================================== *)
(** ** Lexical scorer ([knowledge-base.ts], search helpers)                *)
(* ===================================================================== *)

Definition tokenize (text : string) : list string :=
  List.filter (fun t => (2 <? String.length t)%nat)
    (splitWhitespace (replaceNonAlnum (toLowerCase text))).

(** One round of the [for (const token of queryTokens)] loop. *)
Definition scoreStep (itemKeywords : list string) (lowerText : string)
    (score : Z) (token : string) : Z :=
  let score :=
    if existsb (fun kw => includes kw token || includes token kw) itemKeywords
    then score + 3 else score in
  if includes lowerText token then score + 1 else score.

Definition scoreMatch (itemKeywords : list string) (itemText : string)
    (queryTokens : list string) : Z :=
  let lowerText := toLowerCase itemText in
  fold_left (scoreStep itemKeywords lowerText) queryTokens 0.

(* ===================================================================== *)
(** ** Corpus records ([types.ts])                                         *)
(* ===================================================================== *)

(** A value as [JSON.parse] delivers it, plus [undefined] for a property
    that is absent. *)
#[warnings="-register-all"]
Inductive JSValue : Type :=
| JUndefined
| JNull
| JBool (b : bool)
| JNum (n : Q)
| JStr (s : string)
| JArr (items : list JSValue)
| JObj (fields : list (string * JSValue)).

Module Article.
Record t : Type := {
  id : string;
  title : string;
  category : string;
  slug : string;
  keywords : list string;
  sections : list (string * string);
  chunks : list string;
  fullContent : string
}.
End Article.

Module Policy.
Record t : Type := {
  id : string;
  name : string;
  insurerName : string;
  insurerId : string;
  category : string;
  description : string;
  summary : string;
  raw : list (string * JSValue);
  keywords : list string
}.
End Policy.

Module Insurer.
Record t : Type := {
  id : string;
  name : string;
  shortName : string;
  type : string;
  renewalLink : string
}.
End Insurer.

Module ClaimsGuide.
Record t : Type := {
  id : string;
  title : string;
  category : string;
  content : string;
  keywords : list string
}.
End ClaimsGuide.

(** The collections of [KnowledgeBase] that the searches read. *)
Record KnowledgeBase : Type := {
  articles : list Article.t;
  policies : list Policy.t;
  insurers : list Insurer.t;
  claimsGuides : list ClaimsGuide.t
}.

(* ===================================================================== *)
(** ** Arrays                                                              *)
(* ===================================================================== *)

(** [Array.prototype.sort(compareFn)].  ECMAScript requires the sort to be
    stable, which for a consistent comparator fixes the result; it is
    computed here by stable insertion.  [y] stays ahead of the element being
    inserted exactly when [compareFn y x < 0]. *)
Fixpoint sortInsert {A : Type} (compareFn : A -> A -> Z) (x : A) (l : list A)
    : list A :=
  match l with
  | [] => [x]
  | y :: ys =>
      if compareFn y x <? 0 then y :: sortInsert compareFn x ys
      else x :: y :: ys
  end.

Fixpoint Array_sort {A : Type} (compareFn : A -> A -> Z) (l : list A) : list A :=
  match l with
  | [] => []
  | x :: xs => sortInsert compareFn x (Array_sort compareFn xs)
  end.

(** [arr.push(x)], as the array it leaves. *)
Definition push {A : Type} (arr : list A) (x : A) : list A := arr ++ [x].

(** [arr.slice(0, n)] for a count [n]; the callers pass 2, 3 and 5. *)
Definition slice0 {A : Type} (n : nat) (l : list A) : list A := take n l.

(** [arr.slice(-n)]: the last [n] elements, all of them when there are fewer. *)
Definition sliceLast {A : Type} (n : nat) (l : list A) : list A :=
  drop (length l - n) l.

(** Truthiness of an optional string argument ([if (category)]). *)
Definition truthyStr (s : option string) : bool :=
  match s with
  | Some s => negb (String.eqb s EmptyString)
  | None => false
  end.

(* ===================================================================== *)
(** ** Collection search and context assembly ([knowledge-base.ts])        *)
(* ===================================================================== *)

Definition nl : string := String (ascii_of_nat 10) EmptyString.
Definition dquote : string := String (ascii_of_nat 34) EmptyString.

Section KnowledgeBaseSearch.

(** [const kb = knowledgeBaseData as unknown as KnowledgeBase] *)
Variable kb : KnowledgeBase.

Local Open Scope string_scope.

(** The default of an omitted [maxResults] argument is given by each
    function; [maxResults] counts results. *)
Definition searchArticles (query : string) (category : option string)
    (maxResults : option nat) : list Article.t :=
  let maxResults := default 3%nat maxResults in
  let tokens := tokenize query in
  let articles := kb.(articles) in
  let articles :=
    if truthyStr category
    then List.filter
           (fun a => bool_decide (Some a.(Article.category) = category)) articles
    else articles in
  let scored :=
    map (fun article =>
           (article,
            scoreMatch article.(Article.keywords)
              (article.(Article.title) ++ " " ++
               substring0 500 (join " " article.(Article.chunks)))
              tokens)) articles in
  map fst
    (slice0 maxResults
       (Array_sort (fun a b => (snd b - snd a)%Z)
          (List.filter (fun s => (0 <? snd s)%Z) scored))).

Definition searchPolicies (query : string) (category insurerName : option string)
    (maxResults : option nat) : list Policy.t :=
  let maxResults := default 5%nat maxResults in
  let tokens := tokenize query in
  let policies := kb.(policies) in
  let policies :=
    if truthyStr category
    then List.filter
           (fun p => bool_decide (Some p.(Policy.category) = category)) policies
    else policies in
  let policies :=
    if truthyStr insurerName
    then
      let lowerInsurer := toLowerCase (default "" insurerName) in
      List.filter
        (fun p =>
           includes (toLowerCase p.(Policy.insurerName)) lowerInsurer
           || includes (toLowerCase p.(Policy.insurerId)) lowerInsurer)
        policies
    else policies in
  let scored :=
    map (fun policy =>
           (policy,
            scoreMatch policy.(Policy.keywords)
              (policy.(Policy.name) ++ " " ++ policy.(Policy.summary))
              tokens)) policies in
  map fst
    (slice0 maxResults
       (Array_sort (fun a b => (snd b - snd a)%Z)
          (List.filter (fun s => (0 <? snd s)%Z) scored))).

Definition getPoliciesByInsurer (insurerName : string) : list Policy.t :=
  let lower := toLowerCase insurerName in
  List.filter
    (fun p =>
       includes (toLowerCase p.(Policy.insurerName)) lower
       || includes (toLowerCase p.(Policy.insurerId)) lower)
    kb.(policies).

Definition comparePolicies (policyIds : list string) : list Policy.t :=
  omap (fun id =>
          List.find
            (fun p =>
               String.eqb p.(Policy.id) id
               || includes (toLowerCase p.(Policy.name)) (toLowerCase id))
            kb.(policies))
       policyIds.

Definition searchClaimsGuides (query : string) (category : option string)
    : list ClaimsGuide.t :=
  let tokens := tokenize query in
  let guides := kb.(claimsGuides) in
  let guides :=
    if truthyStr category
    then List.filter
           (fun g => bool_decide (Some g.(ClaimsGuide.category) = category)) guides
    else guides in
  let scored :=
    map (fun guide =>
           (guide,
            scoreMatch guide.(ClaimsGuide.keywords)
              (guide.(ClaimsGuide.title) ++ " " ++
               substring0 500 guide.(ClaimsGuide.content))
              tokens)) guides in
  map fst
    (slice0 3
       (Array_sort (fun a b => (snd b - snd a)%Z)
          (List.filter (fun s => (0 <? snd s)%Z) scored))).

Definition getInsurer (name : string) : option Insurer.t :=
  let lower := toLowerCase name in
  List.find
    (fun i =>
       includes (toLowerCase i.(Insurer.name)) lower
       || includes (toLowerCase i.(Insurer.shortName)) lower
       || includes (toLowerCase i.(Insurer.id)) lower)
    kb.(insurers).

(** The [parts] array of [buildContext] after each of its three blocks. *)
Definition pushArticles (parts : list string) (articles : list Article.t)
    : list string :=
  if (0 <? length articles)%nat
  then
    fold_left
      (fun parts article =>
         let relevantChunks := join (nl ++ nl) (slice0 2 article.(Article.chunks)) in
         push parts (nl ++ "--- " ++ article.(Article.title) ++ " ("
                     ++ article.(Article.category) ++ ") ---" ++ nl
                     ++ relevantChunks))
      articles (push parts "=== RELEVANT ARTICLES ===")
  else parts.

Definition pushPolicies (parts : list string) (policies : list Policy.t)
    : list string :=
  if (0 <? length policies)%nat
  then
    fold_left
      (fun parts policy =>
         push parts (nl ++ "--- " ++ policy.(Policy.name) ++ " by "
                     ++ policy.(Policy.insurerName) ++ " ---" ++ nl
                     ++ policy.(Policy.summary)))
      policies (push parts (nl ++ "=== RELEVANT POLICIES ==="))
  else parts.

Definition pushClaims (parts : list string) (claims : list ClaimsGuide.t)
    : list string :=
  if (0 <? length claims)%nat
  then
    fold_left
      (fun parts guide =>
         push parts (nl ++ "--- " ++ guide.(ClaimsGuide.title) ++ " ---" ++ nl
                     ++ substring0 1500 guide.(ClaimsGuide.content)))
      claims (push parts (nl ++ "=== CLAIMS GUIDANCE ==="))
  else parts.

Definition buildContextParts (query : string) : list string :=
  let articles := searchArticles query None (Some 2%nat) in
  let policies := searchPolicies query None None (Some 3%nat) in
  let claims := searchClaimsGuides query None in
  let parts : list string := [] in
  let parts := pushArticles parts articles in
  let parts := pushPolicies parts policies in
  let parts := pushClaims parts claims in
  parts.

Definition buildContext (query : string) : string :=
  join nl (buildContextParts query).

End KnowledgeBaseSearch.

(* ===================================================================== *)
(** ** Coverage calculators ([calculator.ts])                              *)
(* ===================================================================== *)

Local Open Scope Q_scope.

(** Number formatting of the host: [n.toFixed(d)], the text of [n] in a
    template literal, and [n.toLocaleString()]. *)
Class NumberFormat : Type := {
  toFixed : Q -> nat -> string;
  numberText : Q -> string;
  toLocaleString : Q -> string
}.

(** [Math.ceil], [Math.round] (halves go up) and [x || d] on numbers. *)
Definition Math_ceil (x : Q) : Q := inject_Z (Qceiling x).
Definition Math_round (x : Q) : Q := inject_Z (Qfloor (x + 1/2)).
Definition Math_pow (x : Q) (n : Z) : Q := Qpower x n.
Definition numOr (x d : Q) : Q := if Qeq_bool x 0 then d else x.
Definition lookupOr (x : option Q) (d : Q) : Q :=
  match x with
  | Some x => numOr x d
  | None => d
  end.
Definition Qleb (x y : Q) : bool := Qle_bool x y.
Definition Qltb (x y : Q) : bool := negb (Qle_bool y x).

(** [Math.max(...xs)]; [None] stands for [-Infinity], its value on no
    argument. *)
Definition Math_max_spread (xs : list Q) : option Q :=
  fold_left (fun acc x =>
               match acc with
               | None => Some x
               | Some m => Some (Qmax m x)
               end) xs None.

(** A [number] in full, for [calculateTermCoverage], whose results leave
    the finite numbers on some inputs: a finite value, one of the two
    infinities, or NaN.  A finite value is an exact rational; a result whose
    magnitude reaches [overflowAt], the least magnitude that IEEE 754
    rounds to an infinity, is the infinity of its sign.  The rounding of
    finite results and the sign of zero are not modelled. *)
Inductive JsNumber : Type :=
| Num (q : Q)
| PosInfinity
| NegInfinity
| NaN.

Definition overflowAt : Q := inject_Z (2 ^ 1024 - 2 ^ 970).

(** [Number.isFinite]. *)
Definition isFinite (x : JsNumber) : Prop :=
  match x with
  | Num q => - overflowAt < q /\ q < overflowAt
  | _ => False
  end.

Module JsNum.

(** The [number] that a finite result [q] of an operation becomes. *)
Definition ofQ (q : Q) : JsNumber :=
  if Qle_bool overflowAt q then PosInfinity
  else if Qle_bool q (- overflowAt) then NegInfinity
  else Num q.

Definition sign (x : JsNumber) : Z :=
  match x with
  | Num q => Z.sgn (Qnum q)
  | PosInfinity => 1
  | NegInfinity => -1
  | NaN => 0
  end.

(** The infinity of a sign; NaN for the sign of zero. *)
Definition ofSign (s : Z) : JsNumber :=
  match s with
  | Z0 => NaN
  | Zpos _ => PosInfinity
  | Zneg _ => NegInfinity
  end.

Definition opp (x : JsNumber) : JsNumber :=
  match x with
  | Num q => Num (- q)
  | PosInfinity => NegInfinity
  | NegInfinity => PosInfinity
  | NaN => NaN
  end.

(** [x + y] *)
Definition add (x y : JsNumber) : JsNumber :=
  match x, y with
  | NaN, _ | _, NaN => NaN
  | Num a, Num b => ofQ (a + b)
  | PosInfinity, NegInfinity | NegInfinity, PosInfinity => NaN
  | PosInfinity, _ | _, PosInfinity => PosInfinity
  | NegInfinity, _ | _, NegInfinity => NegInfinity
  end.

(** [x - y] *)
Definition sub (x y : JsNumber) : JsNumber := add x (opp y).

(** [x * y] *)
Definition mul (x y : JsNumber) : JsNumber :=
  match x, y with
  | NaN, _ | _, NaN => NaN
  | Num a, Num b => ofQ (a * b)
  | _, _ => ofSign (sign x * sign y)
  end.

(** [x / y] *)
Definition div (x y : JsNumber) : JsNumber :=
  match x, y with
  | NaN, _ | _, NaN => NaN
  | Num a, Num b =>
      if Qeq_bool b 0 then ofSign (Z.sgn (Qnum a)) else ofQ (a / b)
  | Num _, _ => Num 0
  | _, Num b => ofSign (sign x * (if Qeq_bool b 0 then 1 else Z.sgn (Qnum b)))
  | _, _ => NaN
  end.

(** [x <= y] and [x < y]; both are false when an operand is NaN. *)
Definition leb (x y : JsNumber) : bool :=
  match x, y with
  | NaN, _ | _, NaN => false
  | NegInfinity, _ | _, PosInfinity => true
  | Num a, Num b => Qle_bool a b
  | _, _ => false
  end.

Definition ltb (x y : JsNumber) : bool :=
  match x, y with
  | NaN, _ | _, NaN => false
  | _, _ => negb (leb y x)
  end.

(** [Math.max(x, y)] and [Math.min(x, y)]; NaN when an argument is NaN. *)
Definition max (x y : JsNumber) : JsNumber :=
  match x, y with
  | NaN, _ | _, NaN => NaN
  | _, _ => if leb x y then y else x
  end.

Definition min (x y : JsNumber) : JsNumber :=
  match x, y with
  | NaN, _ | _, NaN => NaN
  | _, _ => if leb x y then x else y
  end.

(** [Math.ceil(x)] and [Math.round(x)] (halves go up). *)
Definition ceil (x : JsNumber) : JsNumber :=
  match x with
  | Num q => Num (inject_Z (Qceiling q))
  | _ => x
  end.

Definition round (x : JsNumber) : JsNumber :=
  match x with
  | Num q => Num (inject_Z (Qfloor (q + 1/2)))
  | _ => x
  end.

(** Truthiness, and [x || d]: 0 and NaN are falsy. *)
Definition truthy (x : JsNumber) : bool :=
  match x with
  | Num q => negb (Qeq_bool q 0)
  | NaN => false
  | _ => true
  end.

Definition orElse (x d : JsNumber) : JsNumber := if truthy x then x else d.

End JsNum.

(** The names under which a lookup in the object literal
    [CITY_MULTIPLIERS] finds something: its three own properties, and the
    properties it inherits from [Object.prototype], under which the lookup
    finds a function or an object and the arithmetic leaves the numbers. *)
Definition ownKeys : list string := ["metro"; "tier1"; "tier2"]%string.
Definition inheritedKeys : list string :=
  [ "constructor"; "__defineGetter__"; "__defineSetter__"; "hasOwnProperty";
    "__lookupGetter__"; "__lookupSetter__"; "isPrototypeOf";
    "propertyIsEnumerable"; "toString"; "valueOf"; "__proto__";
    "toLocaleString" ]%string.
Definition listed (s : string) : bool :=
  existsb (String.eqb s) (ownKeys ++ inheritedKeys).

(** [input.city_tier].  The union type is not checked when the program
    runs: [executeTool] passes any string on, and for a string that names
    none of the three tiers the calculator falls back to the multiplier 1.
    [unlisted s] is such a string; it names no inherited property either. *)
Inductive CityTier : Type :=
| metro
| tier1
| tier2
| unlisted (s : string) (plain : listed s = false).

Definition tierName (t : CityTier) : string :=
  match t with
  | metro => "metro"
  | tier1 => "tier1"
  | tier2 => "tier2"
  | unlisted s _ => s
  end.

Record HealthCalcInput : Type := {
  city_tier : CityTier;
  family_members : list Q;
  has_preexisting : bool;
  corporate_cover : Q;
  monthly_income : Q
}.

Record PremiumRange : Type := { min : Q; max : Q }.

Module HealthCalcResult.
Record t : Type := {
  recommended_cover_lakhs : Q;
  base_plan_lakhs : Q;
  super_topup_lakhs : Q;
  coverage_gap_lakhs : Q;
  estimated_premium_range : PremiumRange;
  reasoning : list string
}.
End HealthCalcResult.

Record TermCalcInput : Type := {
  monthly_expenses : JsNumber;
  annual_income : JsNumber;
  total_debts : JsNumber;
  num_children : JsNumber;
  education_goal_per_child : JsNumber;
  existing_life_cover : JsNumber;
  current_age : JsNumber;
  retirement_age : JsNumber
}.

Module TermCalcResult.
Record range : Type := { min : JsNumber; max : JsNumber }.
Record t : Type := {
  recommended_cover_cr : JsNumber;
  income_replacement : JsNumber;
  debt_cover : JsNumber;
  education_fund : JsNumber;
  total_need : JsNumber;
  gap : JsNumber;
  recommended_tenure : JsNumber;
  estimated_premium_range : range;
  reasoning : list string
}.
End TermCalcResult.

Definition CITY_MULTIPLIERS : gmap string Q :=
  list_to_map [("metro"%string, 1.5); ("tier1"%string, 1.2); ("tier2"%string, 1.0)].
Definition BASE_HOSPITAL_COST : Q := 500000.
Definition MEDICAL_INFLATION : Q := 0.10.
Definition AGE_RISK_FACTOR : gmap string Q :=
  list_to_map [("child"%string, 0.5); ("young"%string, 0.8);
               ("middle"%string, 1.2); ("senior"%string, 1.8);
               ("elderly"%string, 2.5)].

Definition getAgeGroup (age : option Q) : string :=
  match age with
  | None => "child"
  | Some age =>
      if Qleb age 18 then "child"
      else if Qleb age 35 then "young"
      else if Qleb age 50 then "middle"
      else if Qleb age 65 then "senior"
      else "elderly"
  end.

Section Calculators.

Context `{NumberFormat}.

Local Open Scope string_scope.

Definition maxAgeText (maxAge : option Q) : string :=
  match maxAge with
  | Some a => numberText a
  | None => "-Infinity"
  end.

Definition calculateHealthCoverage (input : HealthCalcInput)
    : HealthCalcResult.t :=
  let reasoning : list string := [] in
  (* Base cost adjusted for city *)
  let cityMultiplier :=
    lookupOr (CITY_MULTIPLIERS !! tierName input.(city_tier)) 1.0 in
  let baseCost := (BASE_HOSPITAL_COST * cityMultiplier)%Q in
  let reasoning :=
    push reasoning
      ("Base hospitalization cost for " ++ tierName input.(city_tier)
       ++ " city: ₹" ++ toFixed (baseCost / 100000) 1 ++ "L") in
  (* Adjust for family members *)
  let maxAge := Math_max_spread input.(family_members) in
  let ageGroup := getAgeGroup maxAge in
  let ageRisk := lookupOr (AGE_RISK_FACTOR !! ageGroup) 1.0 in
  let baseCost := (baseCost * ageRisk)%Q in
  let reasoning :=
    push reasoning
      ("Age risk factor (" ++ ageGroup ++ ", oldest member "
       ++ maxAgeText maxAge ++ "y): " ++ numberText ageRisk ++ "x") in
  (* Pre-existing condition uplift *)
  let baseCost := if input.(has_preexisting) then (baseCost * 1.4)%Q else baseCost in
  let reasoning :=
    if input.(has_preexisting)
    then push reasoning "Pre-existing condition uplift: 1.4x"
    else reasoning in
  (* Project 10 years with medical inflation *)
  let projected := (baseCost * Math_pow (1 + MEDICAL_INFLATION) 10)%Q in
  let reasoning :=
    push reasoning
      ("Projected cost (10yr @ " ++ numberText (MEDICAL_INFLATION * 100)
       ++ "% inflation): ₹" ++ toFixed (projected / 100000) 1 ++ "L") in
  (* Family size adjustment *)
  let members := inject_Z (Z.of_nat (length input.(family_members))) in
  let familyFactor := (1 + (members - 1) * 0.15)%Q in
  let totalNeed := (projected * familyFactor)%Q in
  let reasoning :=
    push reasoning
      ("Family size adjustment (" ++ numberText members ++ " members): "
       ++ toFixed familyFactor 2 ++ "x") in
  (* Round to nearest 5L *)
  let recommendedLakhs := (Math_ceil (totalNeed / 500000) * 5)%Q in
  (* Deduct corporate cover *)
  let corporateLakhs := numOr input.(corporate_cover) 0 in
  let gapLakhs := Qmax 0 (recommendedLakhs - corporateLakhs) in
  let reasoning :=
    if Qltb 0 corporateLakhs
    then push reasoning
           ("Corporate cover: ₹" ++ numberText corporateLakhs ++ "L (gap: ₹"
            ++ numberText gapLakhs ++ "L)")
    else reasoning in
  (* Split into base + super top-up *)
  let basePlan := Qmin gapLakhs 25 in
  let superTopup := Qmax 0 (gapLakhs - basePlan) in
  let basePlan := if Qltb 25 gapLakhs then 15%Q else basePlan in
  let superTopup := if Qltb 25 gapLakhs then (gapLakhs - basePlan)%Q else superTopup in
  let reasoning :=
    if Qltb 25 gapLakhs
    then push reasoning
           ("Recommended split: ₹" ++ numberText basePlan ++ "L base + ₹"
            ++ numberText superTopup ++ "L super top-up (cost-efficient)")
    else push reasoning
           ("Single base plan of ₹" ++ numberText basePlan ++ "L should suffice") in
  (* Estimate premium range *)
  let premiumBase := (basePlan * 800 * ageRisk)%Q in
  let premiumMax := (premiumBase * 1.5)%Q in
  {| HealthCalcResult.recommended_cover_lakhs := recommendedLakhs;
     HealthCalcResult.base_plan_lakhs := basePlan;
     HealthCalcResult.super_topup_lakhs := superTopup;
     HealthCalcResult.coverage_gap_lakhs := gapLakhs;
     HealthCalcResult.estimated_premium_range :=
       {| min := Math_round premiumBase; max := Math_round premiumMax |};
     HealthCalcResult.reasoning := reasoning |}.

(** [x.toFixed(d)], the text of [x] in a template literal and
    [x.toLocaleString()] for a [number] in full; the last writes an infinity
    with the symbol of the default locale. *)
Definition toFixedJs (x : JsNumber) (d : nat) : string :=
  match x with
  | Num q => toFixed q d
  | PosInfinity => "Infinity"
  | NegInfinity => "-Infinity"
  | NaN => "NaN"
  end.

Definition numberTextJs (x : JsNumber) : string :=
  match x with
  | Num q => numberText q
  | PosInfinity => "Infinity"
  | NegInfinity => "-Infinity"
  | NaN => "NaN"
  end.

Definition toLocaleStringJs (x : JsNumber) : string :=
  match x with
  | Num q => toLocaleString q
  | PosInfinity => "∞"
  | NegInfinity => "-∞"
  | NaN => "NaN"
  end.

Definition calculateTermCoverage (input : TermCalcInput)
    : TermCalcResult.t :=
  let reasoning : list string := [] in
  (* Income replacement (10-15x annual income) *)
  let yearsToRetirement :=
    JsNum.max (Num 1) (JsNum.sub input.(retirement_age) input.(current_age)) in
  let multiplier :=
    JsNum.min (Num 15)
      (JsNum.max (Num 10) (JsNum.mul yearsToRetirement (Num 0.5))) in
  let incomeReplacement := JsNum.mul input.(annual_income) multiplier in
  let reasoning :=
    push reasoning
      ("Income replacement: ₹"
       ++ toFixedJs (JsNum.div input.(annual_income) (Num 100000)) 0
       ++ "L × " ++ toFixedJs multiplier 0 ++ " = ₹"
       ++ toFixedJs (JsNum.div incomeReplacement (Num 10000000)) 1 ++ "Cr") in
  (* Debt coverage *)
  let debtCover := input.(total_debts) in
  let reasoning :=
    if JsNum.ltb (Num 0) debtCover
    then push reasoning
           ("Outstanding debts: ₹"
            ++ toFixedJs (JsNum.div debtCover (Num 100000)) 0 ++ "L")
    else reasoning in
  (* Education fund *)
  let educationFund :=
    JsNum.mul input.(num_children) input.(education_goal_per_child) in
  let reasoning :=
    if JsNum.ltb (Num 0) educationFund
    then push reasoning
           ("Education fund: " ++ numberTextJs input.(num_children)
            ++ " child(ren) × ₹"
            ++ toFixedJs
                 (JsNum.div input.(education_goal_per_child) (Num 100000)) 0
            ++ "L = ₹"
            ++ toFixedJs (JsNum.div educationFund (Num 100000)) 0 ++ "L")
    else reasoning in
  (* Total need *)
  let totalNeed :=
    JsNum.add (JsNum.add incomeReplacement debtCover) educationFund in
  let reasoning :=
    push reasoning
      ("Total coverage need: ₹"
       ++ toFixedJs (JsNum.div totalNeed (Num 10000000)) 2 ++ "Cr") in
  (* Gap *)
  let existingCover := JsNum.orElse input.(existing_life_cover) (Num 0) in
  let gap := JsNum.max (Num 0) (JsNum.sub totalNeed existingCover) in
  let reasoning :=
    if JsNum.ltb (Num 0) existingCover
    then push reasoning
           ("Existing cover: ₹"
            ++ toFixedJs (JsNum.div existingCover (Num 10000000)) 2
            ++ "Cr → Gap: ₹"
            ++ toFixedJs (JsNum.div gap (Num 10000000)) 2 ++ "Cr")
    else reasoning in
  (* Recommended cover (round to nearest 25L) *)
  let recommendedCr :=
    JsNum.mul (JsNum.ceil (JsNum.div gap (Num 2500000))) (Num 0.25) in
  (* Tenure *)
  let recommendedTenure :=
    JsNum.min (Num 40)
      (JsNum.max (Num 20)
         (JsNum.add (JsNum.sub input.(retirement_age) input.(current_age))
            (Num 5))) in
  let reasoning :=
    push reasoning
      ("Recommended tenure: " ++ numberTextJs recommendedTenure
       ++ " years (until age "
       ++ numberTextJs (JsNum.add input.(current_age) recommendedTenure)
       ++ ")") in
  (* Premium estimate *)
  let ageFactor :=
    if JsNum.leb input.(current_age) (Num 30) then Num 1.0
    else if JsNum.leb input.(current_age) (Num 40) then Num 1.5
    else Num 2.2 in
  let coverLakhs := JsNum.mul recommendedCr (Num 100) in
  let premiumMin :=
    JsNum.round (JsNum.mul (JsNum.mul coverLakhs (Num 500)) ageFactor) in
  let premiumMax :=
    JsNum.round (JsNum.mul (JsNum.mul coverLakhs (Num 750)) ageFactor) in
  let reasoning :=
    push reasoning
      ("Estimated annual premium: ₹" ++ toLocaleStringJs premiumMin ++ " - ₹"
       ++ toLocaleStringJs premiumMax) in
  {| TermCalcResult.recommended_cover_cr := recommendedCr;
     TermCalcResult.income_replacement := incomeReplacement;
     TermCalcResult.debt_cover := debtCover;
     TermCalcResult.education_fund := educationFund;
     TermCalcResult.total_need := totalNeed;
     TermCalcResult.gap := gap;
     TermCalcResult.recommended_tenure := recommendedTenure;
     TermCalcResult.estimated_premium_range :=
       {| TermCalcResult.min := premiumMin;
          TermCalcResult.max := premiumMax |};
     TermCalcResult.reasoning := reasoning |}.

End Calculators.

(* ===================================================================== *)
(** ** Capability registry ([tools.ts])                                    *)
(* ===================================================================== *)

(** One entry of [TOOLS]: its name, the declared properties with their JSON
    type and allowed values, and the required properties.  The prose
    descriptions are left out. *)
Record Tool : Type := {
  name : string;
  properties : list (string * string * list string);
  required : list string
}.

Definition TOOLS : list Tool :=
  [ {| name := "search_insurance_knowledge";
       properties :=
         [("query", "string", []);
          ("category", "string",
           ["health-insurance"; "term-insurance"; "claims"; "general"])];
       required := ["query"] |};
    {| name := "search_policies";
       properties :=
         [("query", "string", []);
          ("category", "string", ["health-insurance"; "term-insurance"]);
          ("insurer_name", "string", [])];
       required := ["query"] |};
    {| name := "compare_policies";
       properties := [("policy_identifiers", "array", [])];
       required := ["policy_identifiers"] |};
    {| name := "calculate_health_coverage";
       properties :=
         [("city_tier", "string", ["metro"; "tier1"; "tier2"]);
          ("family_members", "array", []);
          ("has_preexisting", "boolean", []);
          ("corporate_cover", "number", []);
          ("monthly_income", "number", [])];
       required :=
         ["city_tier"; "family_members"; "has_preexisting"; "corporate_cover"] |};
    {| name := "calculate_term_coverage";
       properties :=
         [("annual_income", "number", []);
          ("monthly_expenses", "number", []);
          ("total_debts", "number", []);
          ("num_children", "number", []);
          ("education_goal_per_child", "number", []);
          ("existing_life_cover", "number", []);
          ("current_age", "number", []);
          ("retirement_age", "number", [])];
       required :=
         ["annual_income"; "monthly_expenses"; "total_debts"; "current_age"] |};
    {| name := "get_claims_guidance";
       properties :=
         [("query", "string", []);
          ("insurance_type", "string", ["health-insurance"; "term-insurance"])];
       required := ["query"] |};
    {| name := "get_insurer_details";
       properties := [("insurer_name", "string", [])];
       required := ["insurer_name"] |};
    {| name := "book_consultation";
       properties := [("reason", "string", [])];
       required := ["reason"] |} ]%string.

(** [toolInput.key], for the raw parameter payload of an invocation
    ([Record<string, unknown>]). *)
Definition getProp (toolInput : gmap string JSValue) (key : string) : JSValue :=
  default JUndefined (toolInput !! key).

Definition truthy (v : JSValue) : bool :=
  match v with
  | JUndefined | JNull => false
  | JBool b => b
  | JNum n => negb (Qeq_bool n 0)
  | JStr s => negb (String.eqb s EmptyString)
  | JArr _ | JObj _ => true
  end.

(** What an invocation leaves behind: the text it returns, a [TypeError]
    that escapes it, or [IllTyped] when a reader below met a value of
    another type than the cast names on which the embedding does not follow
    the program. *)
Inductive Outcome : Type :=
| Returned (text : string)
| Thrown
| IllTyped.

(** The casts [toolInput.key as T] are not checked when the program runs.
    Each reader below gives the value the program goes on with when the
    payload holds a [T] or a falsy value; on another value it follows the
    program where that raises or falls back on a default, and gives up
    otherwise. *)

(** [(v as number) || d] *)
Definition numberOr (v : JSValue) (d : Q) : option Q :=
  if truthy v then match v with JNum n => Some n | _ => None end
  else Some d.

(** A string as the [city_tier] of the calculator's input; [None] for the
    name of an inherited property. *)
Definition cityTierOfString (s : string) : option CityTier :=
  if String.eqb s "metro" then Some metro
  else if String.eqb s "tier1" then Some tier1
  else if String.eqb s "tier2" then Some tier2
  else match Bool.bool_dec (listed s) false with
       | left plain => Some (unlisted s plain)
       | right _ => None
       end.

(** [(v as 'metro' | 'tier1' | 'tier2') || 'metro']: any string goes on to
    the calculator. *)
Definition cityTierOr (v : JSValue) : option CityTier :=
  if truthy v then
    match v with
    | JStr s => cityTierOfString s
    | _ => None
    end
  else Some metro.

Definition asNumber (v : JSValue) : option Q :=
  match v with JNum n => Some n | _ => None end.

Definition asString (v : JSValue) : option string :=
  match v with JStr s => Some s | _ => None end.

(** [(v as number[]) || [30]], as the calculator meets it in
    [Math.max(...input.family_members)]: the spread of a number, a boolean
    or an object raises a [TypeError], since none of them is iterable; a
    string is iterable, and the embedding does not follow the program on it
    nor on an array that holds another value than numbers. *)
Definition numberArrayOr (v : JSValue) (d : list Q) : Outcome + list Q :=
  if truthy v then
    match v with
    | JArr items =>
        match mapM asNumber items with
        | Some numbers => inr numbers
        | None => inl IllTyped
        end
    | JStr _ => inl IllTyped
    | _ => inl Thrown
    end
  else inr d.

(** [v as string | undefined], for an optional filter that is only used
    when truthy. *)
Definition optionalString (v : JSValue) : option (option string) :=
  if truthy v then
    match v with JStr s => Some (Some s) | _ => None end
  else Some None.


(** Serialisation by [JSON.stringify], the configuration the process
    reads, the first capture group of the [block.text.match] call that looks
    for a booking link, and the message the host gives a [TypeError]. *)
Record BookingInfo : Type := {
  message : string;
  bookingUrl : string;
  reason : JSValue;
  phone : string;
  whatsapp : string;
  email : string
}.

Class Host : Type := {
  stringifyHealth : HealthCalcResult.t -> string;
  stringifyTerm : TermCalcResult.t -> string;
  stringifyBooking : BookingInfo -> string;
  NEXT_PUBLIC_BOOKING_URL : option string;
  ANTHROPIC_API_KEY : option string;
  matchBookingUrl : string -> option string;
  typeErrorMessage : string
}.

Definition natText (n : nat) : string :=
  DecimalString.NilZero.string_of_uint (Nat.to_uint n).

Section ExecuteTool.

Variable kb : KnowledgeBase.
Context `{NumberFormat} `{Host}.

Local Open Scope string_scope.

Definition policyCard (p : Policy.t) : string :=
  "📋 " ++ p.(Policy.name) ++ " by " ++ p.(Policy.insurerName) ++ nl
  ++ p.(Policy.summary).

Definition executeTool (toolName : string) (toolInput : gmap string JSValue)
    : Outcome :=
  default IllTyped (
  if String.eqb toolName "search_insurance_knowledge" then
    match getProp toolInput "query" with
    | JStr query =>
        category ← optionalString (getProp toolInput "category");
        let articles := searchArticles kb query category (Some 3%nat) in
        if (length articles =? 0)%nat
        then Some (Returned
               "No articles found for this query. Try rephrasing or ask me directly.")
        else Some (Returned
               (join (nl ++ nl ++ "---" ++ nl ++ nl)
                  (map (fun a =>
                          let chunks :=
                            join (nl ++ nl) (slice0 2 a.(Article.chunks)) in
                          "📄 " ++ a.(Article.title) ++ " ("
                          ++ a.(Article.category) ++ ")" ++ nl ++ chunks)
                       articles)))
    | _ => Some Thrown
    end
  else if String.eqb toolName "search_policies" then
    match getProp toolInput "query" with
    | JStr query =>
        category ← optionalString (getProp toolInput "category");
        let insurer := getProp toolInput "insurer_name" in
        if truthy insurer && negb (bool_decide (is_Some (asString insurer)))
        then Some Thrown
        else
          let policies :=
            searchPolicies kb query category (asString insurer) (Some 5%nat) in
          if (length policies =? 0)%nat
          then Some (Returned
                 "No matching policies found. Try a different insurer name or broader query.")
          else Some (Returned
                 (join (nl ++ nl ++ "---" ++ nl ++ nl) (map policyCard policies)))
    | _ => Some Thrown
    end
  else if String.eqb toolName "compare_policies" then
    match getProp toolInput "policy_identifiers" with
    | JArr items =>
        ids ← mapM asString items;
        let policies := comparePolicies kb ids in
        if (length policies <? 2)%nat
        then Some (Returned
               ("Could only find " ++ natText (length policies)
                ++ " of the requested policies. Available policies: "
                ++ join ", " (map Policy.name policies)
                ++ ". Please check the policy names."))
        else Some (Returned
               (join (nl ++ nl ++ "=== VS ===" ++ nl ++ nl)
                  (map policyCard policies)))
    | _ => Some Thrown
    end
  else if String.eqb toolName "calculate_health_coverage" then
    match numberArrayOr (getProp toolInput "family_members") [30%Q] with
    | inl outcome => Some outcome
    | inr family_members =>
        city_tier ← cityTierOr (getProp toolInput "city_tier");
        let has_preexisting := truthy (getProp toolInput "has_preexisting") in
        corporate_cover ← numberOr (getProp toolInput "corporate_cover") 0;
        monthly_income ← numberOr (getProp toolInput "monthly_income") 0;
        let result :=
          calculateHealthCoverage
            {| city_tier := city_tier;
               family_members := family_members;
               has_preexisting := has_preexisting;
               corporate_cover := corporate_cover;
               monthly_income := monthly_income |} in
        Some (Returned (stringifyHealth result))
    end
  else if String.eqb toolName "calculate_term_coverage" then
    annual_income ← numberOr (getProp toolInput "annual_income") 0;
    monthly_expenses ← numberOr (getProp toolInput "monthly_expenses") 0;
    total_debts ← numberOr (getProp toolInput "total_debts") 0;
    num_children ← numberOr (getProp toolInput "num_children") 0;
    education_goal_per_child ←
      numberOr (getProp toolInput "education_goal_per_child") 2500000;
    existing_life_cover ← numberOr (getProp toolInput "existing_life_cover") 0;
    current_age ← numberOr (getProp toolInput "current_age") 30;
    retirement_age ← numberOr (getProp toolInput "retirement_age") 60;
    let result :=
      calculateTermCoverage
        {| annual_income := JsNum.ofQ annual_income;
           monthly_expenses := JsNum.ofQ monthly_expenses;
           total_debts := JsNum.ofQ total_debts;
           num_children := JsNum.ofQ num_children;
           education_goal_per_child := JsNum.ofQ education_goal_per_child;
           existing_life_cover := JsNum.ofQ existing_life_cover;
           current_age := JsNum.ofQ current_age;
           retirement_age := JsNum.ofQ retirement_age |} in
    Some (Returned (stringifyTerm result))
  else if String.eqb toolName "get_claims_guidance" then
    match getProp toolInput "query" with
    | JStr query =>
        insurance_type ← optionalString (getProp toolInput "insurance_type");
        let guides := searchClaimsGuides kb query insurance_type in
        if (length guides =? 0)%nat
        then Some (Returned
               "No specific claims guide found. For general claims support, contact NYVO at +91 99000 91495 or book a consultation.")
        else Some (Returned
               (join (nl ++ nl ++ "---" ++ nl ++ nl)
                  (map (fun g =>
                          "📑 " ++ g.(ClaimsGuide.title) ++ nl
                          ++ substring0 2000 g.(ClaimsGuide.content))
                       guides)))
    | _ => Some Thrown
    end
  else if String.eqb toolName "get_insurer_details" then
    match getProp toolInput "insurer_name" with
    | JStr insurer_name =>
        match getInsurer kb insurer_name with
        | None =>
            Some (Returned
              ("Insurer " ++ dquote ++ insurer_name ++ dquote
               ++ " not found. Available insurers include Star Health, HDFC ERGO, ICICI Lombard, Care Health, Niva Bupa, Bajaj Allianz, LIC, Max Life, etc."))
        | Some insurer =>
            let policies := getPoliciesByInsurer kb insurer.(Insurer.name) in
            Some (Returned
              (join nl
                 (List.filter (fun line => negb (String.eqb line ""))
                    [ "🏢 " ++ insurer.(Insurer.name) ++ " ("
                      ++ insurer.(Insurer.shortName) ++ ")";
                      "Type: " ++ insurer.(Insurer.type);
                      if negb (String.eqb insurer.(Insurer.renewalLink) "")
                      then "Renewal Portal: " ++ insurer.(Insurer.renewalLink)
                      else "";
                      if (0 <? length policies)%nat
                      then "Available Plans: "
                           ++ join ", " (map Policy.name policies)
                      else "" ])))
        end
    | _ => Some Thrown
    end
  else if String.eqb toolName "book_consultation" then
    let bookingUrl :=
      if truthyStr NEXT_PUBLIC_BOOKING_URL
      then default "" NEXT_PUBLIC_BOOKING_URL
      else "https://calendar.google.com/calendar/appointments/schedules/AcZssZ0ORrvJhRP3kGcmYIOl5S_BZfb45n3aex1Lt-Yew3wXTkjLhEBhJsJm1bD0BQFH7FZbpKX69Ci" in
    Some (Returned
      (stringifyBooking
         {| message := "Book a free consultation with NYVO insurance advisors";
            bookingUrl := bookingUrl;
            reason := getProp toolInput "reason";
            phone := "+91 99000 91495";
            whatsapp := "+91 99000 91495";
            email := "hello@nyvo.in" |}))
  else Some (Returned ("Unknown tool: " ++ toolName))).

End ExecuteTool.

(* ===================================================================== *)
(** ** Orchestration loop ([POST /api/chat])                               *)
(* ===================================================================== *)

Module Chat.

Inductive Role : Type := user | assistant.

Module ConversationMessage.
Record t : Type := {
  role : Role;
  content : string
}.
End ConversationMessage.

(** A block of a reply's [content], told apart by its [type]. *)
Inductive ContentBlock : Type :=
| TextBlock (text : string)
| ToolUseBlock (id name : string) (input : gmap string JSValue)
| OtherBlock (type : string).

Module ToolResultBlockParam.
Record t : Type := {
  tool_use_id : string;
  content : string
}.
End ToolResultBlockParam.

(** The [content] of a [MessageParam]: plain text, the blocks of an earlier
    reply, or the results of one dispatch round. *)
Inductive MessageContent : Type :=
| Text (text : string)
| Blocks (blocks : list ContentBlock)
| ToolResults (results : list ToolResultBlockParam.t).

Module MessageParam.
Record t : Type := {
  role : Role;
  content : MessageContent
}.
End MessageParam.

(** The reply of [anthropic.messages.create]. *)
Module Message.
Record t : Type := {
  stop_reason : string;
  content : list ContentBlock
}.
End Message.

Record CreateParams : Type := {
  model : string;
  max_tokens : nat;
  system : string;
  tools : list Tool;
  messages : list MessageParam.t
}.

(** The request body once its properties have the types the route
    annotates them with; a property may be absent.  [POST_raw] below takes
    the JSON value of a request to it. *)
Record Body : Type := {
  message : option string;
  conversationHistory : option (list ConversationMessage.t);
  language : option string
}.

Inductive Reply : Type :=
| Ok (message : string) (bookingUrl : option string) (toolsUsed : list string)
| Error (status : nat) (error : string) (details : option string)
| Unfollowed.

(** What one request does besides replying: the caller's history array as
    the handler leaves it, the [messages] array it builds, every request it
    sends to the reasoning engine in order, and the rounds of the tool loop
    it runs. *)
Record Run : Type := {
  callerHistory : list ConversationMessage.t;
  finalMessages : list MessageParam.t;
  sent : list CreateParams;
  iterations : nat
}.

Definition isToolUse (b : ContentBlock) : bool :=
  match b with ToolUseBlock _ _ _ => true | _ => false end.

Definition textOf (b : ContentBlock) : option string :=
  match b with TextBlock t => Some t | _ => None end.

Definition toolNameOf (b : ContentBlock) : option string :=
  match b with ToolUseBlock _ n _ => Some n | _ => None end.

Definition maxIterations : nat := 5.

Section Route.

Variable kb : KnowledgeBase.
Context `{NumberFormat} `{Host}.

(** [SYSTEM_PROMPT], the constant instruction text of [tools.ts]. *)
Variable SYSTEM_PROMPT : string.

(** [anthropic.messages.create]: the reply to the [n]-th request of this
    question (counted from 0), or the message of the error it rejects
    with. *)
Variable create : nat -> CreateParams -> string + Message.t.

Local Open Scope string_scope.

Definition augmentedSystem (message lang : string) : string :=
  let ragContext := buildContext kb message in
  SYSTEM_PROMPT ++ nl ++ nl
  ++ "## CURRENT LANGUAGE" ++ nl
  ++ "The user is speaking in: "
  ++ (if String.eqb lang "hi" then "Hindi" else "English")
  ++ ". Respond in the same language." ++ nl
  ++ (if String.eqb lang "hi"
      then "Respond in Hindi (Devanagari script). Use simple Hindi that is easy to understand."
      else "")
  ++ nl ++ nl
  ++ "## RELEVANT KNOWLEDGE BASE CONTEXT" ++ nl
  ++ "The following information from NYVO's knowledge base may be relevant to the user's query. Use this to provide accurate answers:"
  ++ nl ++ nl
  ++ (if negb (String.eqb ragContext "") then ragContext
      else "No specific context found — use your general insurance knowledge and available tools.").

Definition request (systemText : string) (msgs : list MessageParam.t)
    : CreateParams :=
  {| model := "claude-sonnet-4-20250514";
     max_tokens := 400;
     system := systemText;
     tools := TOOLS;
     messages := msgs |}.

(** [toolUseBlocks.map(...)]: the blocks are executed in order, and an
    invocation that does not return ends the round. *)
Fixpoint runTools (toolUseBlocks : list ContentBlock)
    : Outcome + list ToolResultBlockParam.t :=
  match toolUseBlocks with
  | [] => inr []
  | ToolUseBlock id name input :: rest =>
      match executeTool kb name input with
      | Returned text =>
          match runTools rest with
          | inr results =>
              inr ({| ToolResultBlockParam.tool_use_id := id;
                     ToolResultBlockParam.content := text |} :: results)
          | inl o => inl o
          end
      | o => inl o
      end
  | _ :: rest => runTools rest
  end.

(** State of the [while] loop, and how the handler's [try] block ends. *)
Record LoopState : Type := {
  response : Message.t;
  ls_iterations : nat;
  ls_messages : list MessageParam.t;
  ls_sent : list CreateParams
}.

Inductive LoopEnd : Type :=
| Completed (st : LoopState)
| Rejected (details : string) (st : LoopState)
| ToolThrew (st : LoopState)
| ToolIllTyped (st : LoopState).

(** The [while] loop.  [fuel] bounds the unfolding and is [None] when it
    runs out; the loop's own guard is the test on [iterations]. *)
Fixpoint toolLoop (systemText : string) (fuel : nat) (st : LoopState)
    : option LoopEnd :=
  if String.eqb st.(response).(Message.stop_reason) "tool_use"
     && (st.(ls_iterations) <? maxIterations)%nat
  then
    match fuel with
    | O => None
    | S fuel =>
        let iterations := S st.(ls_iterations) in
        let toolUseBlocks :=
          List.filter isToolUse st.(response).(Message.content) in
        let st :=
          {| response := st.(response); ls_iterations := iterations;
             ls_messages := st.(ls_messages); ls_sent := st.(ls_sent) |} in
        match runTools toolUseBlocks with
        | inl Thrown => Some (ToolThrew st)
        | inl _ => Some (ToolIllTyped st)
        | inr toolResults =>
            let msgs :=
              push (push st.(ls_messages)
                      {| MessageParam.role := assistant;
                         MessageParam.content :=
                           Blocks st.(response).(Message.content) |})
                   {| MessageParam.role := user;
                      MessageParam.content := ToolResults toolResults |} in
            let params := request systemText msgs in
            let st :=
              {| response := st.(response); ls_iterations := iterations;
                 ls_messages := msgs; ls_sent := push st.(ls_sent) params |} in
            match create (length st.(ls_sent) - 1) params with
            | inl details => Some (Rejected details st)
            | inr next =>
                toolLoop systemText fuel
                  {| response := next; ls_iterations := iterations;
                     ls_messages := msgs; ls_sent := st.(ls_sent) |}
            end
        end
    end
  else Some (Completed st).

Definition runOf (history : list ConversationMessage.t) (st : LoopState) : Run :=
  {| callerHistory := history;
     finalMessages := st.(ls_messages);
     sent := st.(ls_sent);
     iterations := st.(ls_iterations) |}.

Definition finalReply (response : Message.t) : Reply :=
  let textBlocks := omap textOf response.(Message.content) in
  let assistantMessage := join nl textBlocks in
  let bookingUrl :=
    fold_left
      (fun bookingUrl text =>
         if includes text "bookingUrl"
         then match matchBookingUrl text with
              | Some url => Some url
              | None => bookingUrl
              end
         else bookingUrl)
      textBlocks None in
  Ok assistantMessage bookingUrl (omap toolNameOf response.(Message.content)).

(** The handler, run on a parsed body with fuel for its loop.  [None] only
    when the fuel runs out. *)
Definition POST (fuel : nat) (body : Body) : option (Reply * Run) :=
  let history := default [] body.(conversationHistory) in
  let idle :=
    {| callerHistory := history; finalMessages := []; sent := [];
       iterations := 0 |} in
  if negb (truthyStr ANTHROPIC_API_KEY)
  then Some (Error 500 "Anthropic API key not configured" None, idle)
  else
    let lang := default "en" body.(language) in
    if negb (truthyStr body.(message))
    then Some (Error 400 "No message provided" None, idle)
    else
      let message := default "" body.(message) in
      let systemText := augmentedSystem message lang in
      let msgs : list MessageParam.t := [] in
      let recentHistory := sliceLast 10 history in
      let msgs :=
        fold_left
          (fun msgs msg =>
             push msgs
               {| MessageParam.role := msg.(ConversationMessage.role);
                  MessageParam.content :=
                    Text msg.(ConversationMessage.content) |})
          recentHistory msgs in
      let msgs :=
        push msgs {| MessageParam.role := user;
                     MessageParam.content := Text message |} in
      let params := request systemText msgs in
      match create 0 params with
      | inl details =>
          Some (Error 500 "Chat failed" (Some details),
                {| callerHistory := history; finalMessages := msgs;
                   sent := [params]; iterations := 0 |})
      | inr first =>
          match
            toolLoop systemText fuel
              {| response := first; ls_iterations := 0;
                 ls_messages := msgs; ls_sent := [params] |}
          with
          | None => None
          | Some (Completed st) =>
              Some (finalReply st.(response), runOf history st)
          | Some (Rejected details st) =>
              Some (Error 500 "Chat failed" (Some details), runOf history st)
          | Some (ToolThrew st) =>
              Some (Error 500 "Chat failed" (Some typeErrorMessage),
                    runOf history st)
          | Some (ToolIllTyped st) => Some (Unfollowed, runOf history st)
          end
      end.

End Route.

End Chat.

(* ===================================================================== *)
(** ** Reading of the specification's words                                *)
(* ===================================================================== *)

Import Chat.

Local Open Scope Z_scope.

(** Some keyword contains the token or the token contains the keyword. *)
Definition keywordHit (keywords : list string) (token : string) : Prop :=
  Exists (fun kw => isSubstring token kw \/ isSubstring kw token) keywords.

(** The lower-cased document text contains the token. *)
Definition textHit (text token : string) : Prop :=
  isSubstring token (toLowerCase text).

(** [includes] decides [isSubstring], which makes the two hits decidable. *)
Lemma prefix_app (t s : string) :
  String.prefix t s = true <-> exists post, s = (t ++ post)%string.
Proof.
  revert t. induction s as [|d s IH]; intros t; simpl.
  - destruct t as [|c t].
    + split; [intros _; by exists EmptyString | done].
    + split; [done | intros [post Hp]; discriminate].
  - destruct t as [|c t].
    + split; [intros _; by exists (String d s) | done].
    + destruct (Ascii.ascii_dec c d) as [->|Hne].
      * rewrite IH. split; intros [post Hp]; exists post.
        -- by rewrite Hp.
        -- by inversion Hp.
      * split; [done | intros [post Hp]; inversion Hp; congruence].
Qed.

Lemma includes_unfold (s t : string) :
  includes s t
  = String.prefix t s
    || match s with
       | EmptyString => false
       | String _ s' => includes s' t
       end.
Proof. destruct s; cbn [includes]; by destruct (String.prefix t _). Qed.

Lemma isSubstring_cons (t : string) (c : ascii) (s : string) :
  isSubstring t (String c s)
  <-> (exists post, String c s = (t ++ post)%string) \/ isSubstring t s.
Proof.
  split.
  - intros [pre [post Hs]]. destruct pre as [|d pre].
    + left. by exists post.
    + right. inversion Hs. by exists pre, post.
  - intros [[post Hs] | [pre [post ->]]].
    + by exists EmptyString, post.
    + by exists (String c pre), post.
Qed.

Lemma includes_spec (s t : string) :
  includes s t = true <-> isSubstring t s.
Proof.
  induction s as [|c s IH]; rewrite includes_unfold, orb_true_iff, prefix_app.
  - split.
    + intros [[post Hs] | ?]; [by exists EmptyString, post | done].
    + intros [pre [post Hs]]. left. destruct pre; [by exists post | discriminate].
  - rewrite IH. symmetry. apply isSubstring_cons.
Qed.

#[global] Instance isSubstring_dec (t s : string) : Decision (isSubstring t s).
Proof.
  refine (cast_if (decide (includes s t = true))); by rewrite <- includes_spec.
Defined.

#[global] Instance keywordHit_dec kws tok : Decision (keywordHit kws tok).
Proof. unfold keywordHit. apply _. Defined.

#[global] Instance textHit_dec text tok : Decision (textHit text tok).
Proof. unfold textHit. apply _. Defined.

(** The points one query token earns against one document. *)
Definition tokenPoints (keywords : list string) (text token : string) : Z :=
  (if decide (keywordHit keywords token) then 3 else 0)
  + (if decide (textHit text token) then 1 else 0).

(** The score as the specification words it: the sum of the token points
    over the query tokens, each occurrence counted. *)
Definition lexicalScore (keywords : list string) (text : string)
    (tokens : list string) : Z :=
  foldr Z.add 0 (map (tokenPoints keywords text) tokens).

(** The text a search scores a document on. *)
Definition articleText (a : Article.t) : string :=
  (a.(Article.title) ++ " "
   ++ substring0 500 (join " " a.(Article.chunks)))%string.
Definition policyText (p : Policy.t) : string :=
  (p.(Policy.name) ++ " " ++ p.(Policy.summary))%string.
Definition guideText (g : ClaimsGuide.t) : string :=
  (g.(ClaimsGuide.title) ++ " "
   ++ substring0 500 g.(ClaimsGuide.content))%string.

Definition articleScore (query : string) (a : Article.t) : Z :=
  scoreMatch a.(Article.keywords) (articleText a) (tokenize query).
Definition policyScore (query : string) (p : Policy.t) : Z :=
  scoreMatch p.(Policy.keywords) (policyText p) (tokenize query).
Definition guideScore (query : string) (g : ClaimsGuide.t) : Z :=
  scoreMatch g.(ClaimsGuide.keywords) (guideText g) (tokenize query).

(** The tail shared by the three searches: pair every candidate with its
    score, keep the positive ones, sort by score descending, cut. *)
Definition topK {A : Type} (score : A -> Z) (n : nat) (candidates : list A)
    : list A :=
  map fst
    (slice0 n
       (Array_sort (fun a b => snd b - snd a)
          (List.filter (fun s => 0 <? snd s)
             (map (fun d => (d, score d)) candidates)))).

(** What the specification asks of a ranked result: at most [bound]
    documents, each scoring above zero, in non-increasing score order, and
    for every score the documents of that score in the order in which the
    collection holds them. *)
Definition Ranked {A : Type} (score : A -> Z) (bound : nat)
    (collection result : list A) : Prop :=
  (length result <= bound)%nat
  /\ Forall (fun d => 0 < score d) result
  /\ StronglySorted (fun a b => score b <= score a) result
  /\ forall s, List.filter (fun d => score d =? s) result `sublist_of` collection.

Local Open Scope string_scope.

(** The labelled excerpt of one hit. *)
Definition articleExcerpt (a : Article.t) : string :=
  nl ++ "--- " ++ a.(Article.title) ++ " (" ++ a.(Article.category) ++ ") ---"
  ++ nl ++ join (nl ++ nl) (take 2 a.(Article.chunks)).
Definition policyExcerpt (p : Policy.t) : string :=
  nl ++ "--- " ++ p.(Policy.name) ++ " by " ++ p.(Policy.insurerName) ++ " ---"
  ++ nl ++ p.(Policy.summary).
Definition guideExcerpt (g : ClaimsGuide.t) : string :=
  nl ++ "--- " ++ g.(ClaimsGuide.title) ++ " ---"
  ++ nl ++ substring0 1500 g.(ClaimsGuide.content).

(** A section of the context: nothing at all without hits, otherwise its
    header and then one excerpt per hit. *)
Definition sectionOf {A : Type} (header : string) (excerpt : A -> string)
    (hits : list A) : list string :=
  match hits with
  | [] => []
  | _ :: _ => header :: map excerpt hits
  end.

(** The context block as the specification lays it out. *)
Definition contextSections (arts : list Article.t) (pols : list Policy.t)
    (guides : list ClaimsGuide.t) : list string :=
  (sectionOf "=== RELEVANT ARTICLES ===" articleExcerpt arts
   ++ sectionOf (nl ++ "=== RELEVANT POLICIES ===") policyExcerpt pols
   ++ sectionOf (nl ++ "=== CLAIMS GUIDANCE ===") guideExcerpt guides)%list.

Local Close Scope string_scope.

(** The value [executeTool] passes for a missing parameter of
    [calculate_health_coverage]. *)
Definition healthDefaults : list (string * JSValue) :=
  [("city_tier"%string, JStr "metro");
   ("family_members"%string, JArr [JNum 30%Q]);
   ("has_preexisting"%string, JBool false);
   ("corporate_cover"%string, JNum 0%Q);
   ("monthly_income"%string, JNum 0%Q)].

Definition healthDefaultInput : HealthCalcInput :=
  {| city_tier := metro;
     family_members := [30%Q];
     has_preexisting := false;
     corporate_cover := 0%Q;
     monthly_income := 0%Q |}.

(** A payload of [calculate_health_coverage] whose parameters, where they
    are present and truthy, hold values of the declared types: a string for
    [city_tier] (one that names no inherited property), an array of numbers
    for [family_members], a number for [corporate_cover] and for
    [monthly_income].  Any value does for [has_preexisting]. *)
Definition healthTyped (toolInput : gmap string JSValue) : Prop :=
  (truthy (getProp toolInput "city_tier") = true ->
   exists s, getProp toolInput "city_tier" = JStr s /\ s ∉ inheritedKeys)
  /\ (truthy (getProp toolInput "family_members") = true ->
      exists ages, getProp toolInput "family_members" = JArr (map JNum ages))
  /\ (truthy (getProp toolInput "corporate_cover") = true ->
      exists n, getProp toolInput "corporate_cover" = JNum n)
  /\ (truthy (getProp toolInput "monthly_income") = true ->
      exists n, getProp toolInput "monthly_income" = JNum n).

Local Open Scope nat_scope.

Definition endState (e : LoopEnd) : LoopState :=
  match e with
  | Completed st | Rejected _ st | ToolThrew st | ToolIllTyped st => st
  end.

(** A reply that asks for tools, each of which returns when executed. *)
Definition asksForTools `{NumberFormat} `{Host} (kb : KnowledgeBase)
    (r : Message.t) : Prop :=
  r.(Message.stop_reason) = "tool_use"%string
  /\ forall id toolName input,
       ToolUseBlock id toolName input ∈ r.(Message.content) ->
       exists text, executeTool kb toolName input = Returned text.

(** The reasoning engine answers every request, it always asks for tools,
    and the request is one the handler forwards. *)
Definition alwaysAsksForTools `{NumberFormat} `{Host} (kb : KnowledgeBase)
    (create : nat -> CreateParams -> string + Message.t) (body : Body) : Prop :=
  truthyStr ANTHROPIC_API_KEY = true
  /\ truthyStr body.(message) = true
  /\ forall n params, exists r, create n params = inr r /\ asksForTools kb r.

(** The turns of the caller's history as the request carries them. *)
Definition turnOf (msg : ConversationMessage.t) : MessageParam.t :=
  {| MessageParam.role := msg.(ConversationMessage.role);
     MessageParam.content := Text msg.(ConversationMessage.content) |}.

(** The reply in the state answers the last request sent. *)
Definition answersLast (create : nat -> CreateParams -> string + Message.t)
    (st : LoopState) : Prop :=
  exists params,
    last st.(ls_sent) = Some params
    /\ create (length st.(ls_sent) - 1) params = inr st.(response).

(** The messages of the first request: the recent turns of the caller's
    history, then the new user message. *)
Definition initialMessages (history : list ConversationMessage.t)
    (message : string) : list MessageParam.t :=
  map turnOf (sliceLast 10 history)
  ++ [{| MessageParam.role := user; MessageParam.content := Text message |}].

Definition replyOf `{Host} (e : LoopEnd) : Reply :=
  match e with
  | Completed st => finalReply st.(response)
  | Rejected details _ => Error 500 "Chat failed" (Some details)
  | ToolThrew _ => Error 500 "Chat failed" (Some typeErrorMessage)
  | ToolIllTyped _ => Unfollowed
  end.

Local Close Scope nat_scope.

(* ===================================================================== *)
(** ** Sample inputs                                                       *)
(* ===================================================================== *)

(** A small corpus: one article on taxes, three policies of which the first
    and the third tie on the word [health], one claims guide. *)
Definition taxArticle : Article.t :=
  {| Article.id := "a-tax"; Article.title := "guide";
     Article.category := "general"; Article.slug := "guide";
     Article.keywords := ["tax"]; Article.sections := [];
     Article.chunks := ["plain words"; "more words"; "last words"];
     Article.fullContent := "plain words" |}%string.

Definition policyOne : Policy.t :=
  {| Policy.id := "p1"; Policy.name := "Alpha"; Policy.insurerName := "Star";
     Policy.insurerId := "star"; Policy.category := "health-insurance";
     Policy.description := "first"; Policy.summary := "family floater";
     Policy.raw := []; Policy.keywords := ["health"] |}%string.

Definition policyTwo : Policy.t :=
  {| Policy.id := "p2"; Policy.name := "Beta"; Policy.insurerName := "Care";
     Policy.insurerId := "care"; Policy.category := "health-insurance";
     Policy.description := "second"; Policy.summary := "health cover";
     Policy.raw := []; Policy.keywords := ["health"] |}%string.

Definition policyThree : Policy.t :=
  {| Policy.id := "p3"; Policy.name := "Gamma"; Policy.insurerName := "Star";
     Policy.insurerId := "star"; Policy.category := "health-insurance";
     Policy.description := "third"; Policy.summary := "family floater";
     Policy.raw := []; Policy.keywords := ["health"] |}%string.

Definition cashlessGuide : ClaimsGuide.t :=
  {| ClaimsGuide.id := "g1"; ClaimsGuide.title := "Cashless claims";
     ClaimsGuide.category := "health-insurance";
     ClaimsGuide.content := "Call the TPA desk first";
     ClaimsGuide.keywords := ["cashless"] |}%string.

Definition sampleKb : KnowledgeBase :=
  {| articles := [taxArticle];
     policies := [policyOne; policyTwo; policyThree];
     insurers := [];
     claimsGuides := [cashlessGuide] |}.

Definition healthExamplePayload : gmap string JSValue :=
  list_to_map
    [("city_tier"%string, JStr "metro");
     ("family_members"%string, JArr [JNum 35%Q; JNum 32%Q; JNum 5%Q]);
     ("has_preexisting"%string, JBool false);
     ("corporate_cover"%string, JNum 0%Q)].

Definition healthExampleInput : HealthCalcInput :=
  {| city_tier := metro;
     family_members := [35%Q; 32%Q; 5%Q];
     has_preexisting := false;
     corporate_cover := 0%Q;
     monthly_income := 0%Q |}.

(** Stand-ins for the host's formatting and serialisation, for running the
    embedding on concrete inputs. *)
Definition sampleFormat : NumberFormat :=
  {| toFixed := fun _ _ => "#"%string;
     numberText := fun _ => "#"%string;
     toLocaleString := fun _ => "#"%string |}.

Definition sampleHost : Host :=
  {| stringifyHealth := fun r => String.concat ";" r.(HealthCalcResult.reasoning);
     stringifyTerm := fun r => String.concat ";" r.(TermCalcResult.reasoning);
     stringifyBooking := fun b => b.(bookingUrl);
     NEXT_PUBLIC_BOOKING_URL := None;
     ANTHROPIC_API_KEY := Some "key"%string;
     matchBookingUrl := fun _ => None;
     typeErrorMessage := "TypeError"%string |}.

(** An engine that asks for a tool the catalog does not hold on every
    reply, and a request with a history of twelve turns. *)
Definition busyEngine (n : nat) (params : CreateParams) : string + Message.t :=
  inr {| Message.stop_reason := "tool_use";
         Message.content :=
           [TextBlock ("partial " ++ natText n);
            ToolUseBlock "call" "lookup_weather" ∅] |}.

Definition turn (n : nat) : ConversationMessage.t :=
  {| ConversationMessage.role := if Nat.even n then user else assistant;
     ConversationMessage.content := "turn " ++ natText n |}.

Definition sampleBody : Body :=
  {| message := Some "what is no claim bonus"%string;
     conversationHistory := Some (map turn (seq 1 12));
     language := None |}.

(* ===================================================================== *)
(** ** Further code of the repository                                      *)
(* ===================================================================== *)

(** *** Corpus lookups ([knowledge-base.ts]) *)

Section KnowledgeBaseLookups.

Variable kb : KnowledgeBase.

Definition getPolicyById (policyId : string) : option Policy.t :=
  List.find (fun p => String.eqb p.(Policy.id) policyId) kb.(policies).

End KnowledgeBaseLookups.

(** Every code unit of [s] passes the test [P]. *)
Definition allChars (P : ascii -> bool) (s : string) : Prop :=
  Forall (fun c => P c = true) (list_ascii_of_string s).

(** The candidates a search ranks: the collection after its filters. *)
Definition articleCandidates (kb : KnowledgeBase) (category : option string)
    : list Article.t :=
  if truthyStr category
  then List.filter
         (fun a => bool_decide (Some a.(Article.category) = category))
         kb.(articles)
  else kb.(articles).

Definition insurerMatches (lowerInsurer : string) (p : Policy.t) : bool :=
  includes (toLowerCase p.(Policy.insurerName)) lowerInsurer
  || includes (toLowerCase p.(Policy.insurerId)) lowerInsurer.

Definition policyCandidates (kb : KnowledgeBase)
    (category insurerName : option string) : list Policy.t :=
  let byCategory :=
    if truthyStr category
    then List.filter
           (fun p => bool_decide (Some p.(Policy.category) = category))
           kb.(policies)
    else kb.(policies) in
  if truthyStr insurerName
  then List.filter
         (insurerMatches (toLowerCase (default EmptyString insurerName)))
         byCategory
  else byCategory.

Definition guideCandidates (kb : KnowledgeBase) (category : option string)
    : list ClaimsGuide.t :=
  if truthyStr category
  then List.filter
         (fun g => bool_decide (Some g.(ClaimsGuide.category) = category))
         kb.(claimsGuides)
  else kb.(claimsGuides).

(** *** Quantities of the calculators, for stating their properties *)

(** The risk factor [calculateHealthCoverage] applies for an oldest age
    ([None] when the family list is empty). *)
Definition riskOf (maxAge : option Q) : Q :=
  lookupOr (AGE_RISK_FACTOR !! getAgeGroup maxAge) 1.0.

Definition cityFactor (t : CityTier) : Q :=
  lookupOr (CITY_MULTIPLIERS !! tierName t) 1.0.

(** [totalNeed] of [calculateHealthCoverage], in rupees. *)
Definition healthNeed (input : HealthCalcInput) : Q :=
  let baseCost :=
    (BASE_HOSPITAL_COST * cityFactor input.(city_tier)
     * riskOf (Math_max_spread input.(family_members)))%Q in
  ((if input.(has_preexisting) then baseCost * 1.4 else baseCost)
   * Math_pow (1 + MEDICAL_INFLATION) 10
   * (1 + (inject_Z (Z.of_nat (length input.(family_members))) - 1) * 0.15))%Q.

Definition withPreexisting (b : bool) (input : HealthCalcInput)
    : HealthCalcInput :=
  {| city_tier := input.(city_tier);
     family_members := input.(family_members);
     has_preexisting := b;
     corporate_cover := input.(corporate_cover);
     monthly_income := input.(monthly_income) |}.

Definition withFamily (members : list Q) (input : HealthCalcInput)
    : HealthCalcInput :=
  {| city_tier := input.(city_tier);
     family_members := members;
     has_preexisting := input.(has_preexisting);
     corporate_cover := input.(corporate_cover);
     monthly_income := input.(monthly_income) |}.

(** *** Names used in the statements on lookups and premiums *)

(** How [comparePolicies] resolves one identifier. *)
Definition identifies (id : string) (p : Policy.t) : Prop :=
  p.(Policy.id) = id
  \/ isSubstring (toLowerCase id) (toLowerCase p.(Policy.name)).

(** The test of [getInsurer] on one insurer. *)
Definition insurerNamed (lower : string) (i : Insurer.t) : bool :=
  includes (toLowerCase i.(Insurer.name)) lower
  || includes (toLowerCase i.(Insurer.shortName)) lower
  || includes (toLowerCase i.(Insurer.id)) lower.

(** The age factor of the term premium estimate. *)
Definition termAgeFactor (age : JsNumber) : JsNumber :=
  (if JsNum.leb age (Num 30) then Num 1.0
   else if JsNum.leb age (Num 40) then Num 1.5
   else Num 2.2)%Q.

(** *** Parameters of the catalogue, for stating how [executeTool] reads them *)

(** The defaults [executeTool] supplies for [calculate_term_coverage]. *)
Definition termDefaults : list (string * JSValue) :=
  [ ("annual_income", JNum 0); ("monthly_expenses", JNum 0);
    ("total_debts", JNum 0); ("num_children", JNum 0);
    ("education_goal_per_child", JNum 2500000);
    ("existing_life_cover", JNum 0); ("current_age", JNum 30);
    ("retirement_age", JNum 60) ]%string.

(** The cases of [executeTool] that read no argument before they supply a
    default for it. *)
Definition defaultingTools : list string :=
  [ "calculate_health_coverage"; "calculate_term_coverage";
    "book_consultation" ]%string.

(** The cases of [executeTool] whose answer is serialised by the host. *)
Definition serialisingTools : list string := defaultingTools.

(** The defaults that the two calculator cases of [executeTool] supply. *)
Definition calculatorDefaults (toolName : string) : list (string * JSValue) :=
  if String.eqb toolName "calculate_health_coverage" then healthDefaults
  else if String.eqb toolName "calculate_term_coverage" then termDefaults
  else [].

(** *** The request body as the route receives it ([POST /api/chat]) *)

(** The route annotates the body with a type that is not checked when the
    program runs: [request.json()] gives any JSON value.  A value parses as
    a value of the annotated type, or the handler raises a [TypeError] on
    it, or it strays beyond the values the embedding follows (the handler
    goes on and sends what it holds). *)
Inductive Parsed (A : Type) : Type :=
| Parses (a : A)
| Raises
| Strays.

Arguments Parses {A} a.
Arguments Raises {A}.
Arguments Strays {A}.

(** [obj.key] on a parsed object: the last member of that name. *)
Definition fieldOf (fields : list (string * JSValue)) (key : string) : JSValue :=
  match List.find (fun member => String.eqb (fst member) key) (rev fields) with
  | Some member => snd member
  | None => JUndefined
  end.

(** The destructuring [const { message, conversationHistory, language } =
    body] raises on [null]; of a number, a boolean, a string or an array it
    reads three properties that none of them has. *)
Definition destructures (body : JSValue) : bool :=
  match body with
  | JUndefined | JNull => false
  | _ => true
  end.

(** One of the three properties the destructuring reads, [JUndefined] when
    it is absent. *)
Definition bodyProp (body : JSValue) (key : string) : JSValue :=
  match body with
  | JObj fields => fieldOf fields key
  | _ => JUndefined
  end.

(** One element of the history, of which the loop reads [msg.role] and
    [msg.content]: reading a property of [null] raises. *)
Definition parseTurn (v : JSValue) : Parsed ConversationMessage.t :=
  match v with
  | JNull | JUndefined => Raises
  | JObj fields =>
      match fieldOf fields "role", fieldOf fields "content" with
      | JStr role, JStr content =>
          if String.eqb role "user"
          then Parses {| ConversationMessage.role := user;
                         ConversationMessage.content := content |}
          else if String.eqb role "assistant"
          then Parses {| ConversationMessage.role := assistant;
                         ConversationMessage.content := content |}
          else Strays
      | _, _ => Strays
      end
  | _ => Strays
  end.

(** The loop over the history pushes what it reads and raises at the first
    [null], so that a [null] anywhere keeps the request from being sent. *)
Fixpoint parseTurns (items : list JSValue)
    : Parsed (list ConversationMessage.t) :=
  match items with
  | [] => Parses []
  | v :: rest =>
      match parseTurn v, parseTurns rest with
      | Raises, _ | _, Raises => Raises
      | Parses turn, Parses turns => Parses (turn :: turns)
      | _, _ => Strays
      end
  end.

(** [conversationHistory = []] in the destructuring, then
    [conversationHistory.slice(-10)] and the loop over it: the default is
    for an absent property only; [null], a number, a boolean and an object
    have no [slice] method; of an array, the last ten elements are read,
    and these are the history that is handed on. *)
Definition parseHistory (v : JSValue)
    : Parsed (option (list ConversationMessage.t)) :=
  match v with
  | JUndefined => Parses None
  | JArr items =>
      match parseTurns (sliceLast 10 items) with
      | Parses turns => Parses (Some turns)
      | Raises => Raises
      | Strays => Strays
      end
  | JStr s => if String.eqb s "" then Parses (Some []) else Strays
  | _ => Raises
  end.

(** [language = 'en'] in the destructuring; the route only ever compares
    the value with ['hi'], so that any other value reads as English. *)
Definition parseLanguage (v : JSValue) : option string :=
  match v with
  | JUndefined => None
  | JStr s => Some s
  | _ => Some "en"%string
  end.

Section RawRoute.

Variable kb : KnowledgeBase.
Context `{NumberFormat} `{Host}.
Variable SYSTEM_PROMPT : string.
Variable create : nat -> CreateParams -> string + Message.t.

(** The message of the [TypeError] the handler raises on a body, as the
    host words it. *)
Variable errorMessage : JSValue -> string.

(** The handler on the JSON value of a request.  A truthy message that is
    not a string raises in [tokenize], which [buildContext] calls first;
    the history is read after that. *)
Definition POST_raw (fuel : nat) (body : JSValue) : option (Reply * Run) :=
  let idle :=
    {| callerHistory := []; finalMessages := []; sent := [];
       iterations := 0 |} in
  let raised := Error 500 "Chat failed" (Some (errorMessage body)) in
  if negb (truthyStr ANTHROPIC_API_KEY)
  then Some (Error 500 "Anthropic API key not configured" None, idle)
  else if negb (destructures body)
  then Some (raised, idle)
  else if negb (truthy (bodyProp body "message"))
  then Some (Error 400 "No message provided" None, idle)
  else
    match bodyProp body "message" with
    | JStr message =>
        match parseHistory (bodyProp body "conversationHistory") with
        | Parses history =>
            POST kb SYSTEM_PROMPT create fuel
              {| message := Some message;
                 conversationHistory := history;
                 language := parseLanguage (bodyProp body "language") |}
        | Raises => Some (raised, idle)
        | Strays => Some (Unfollowed, idle)
        end
    | _ => Some (raised, idle)
    end.

End RawRoute.

(** *** The client's request ([page.tsx], [sendToChat]) *)

Module ChatMessage.
Record t : Type := {
  id : string;
  role : Role;
  content : string;
  timestamp : Q;
  language : option string
}.
End ChatMessage.

(** The body [sendToChat] posts to [/api/chat] for the text [text], from
    the [messages] of the page's state, as the route parses it. *)
Definition chatRequestBody (messages : list ChatMessage.t) (text : string)
    (language : string) : Body :=
  {| message := Some text;
     conversationHistory :=
       Some (map (fun m =>
                    {| ConversationMessage.role := m.(ChatMessage.role);
                       ConversationMessage.content := m.(ChatMessage.content) |})
               (sliceLast 10 messages));
     language := Some language |}.

(** *** The conversation the handler carries from one request to the next *)

(** Request [q] follows up on request [p], the [i]-th of the question: the
    engine answered [p] by asking for tools, every tool returned, and [q] is
    [p] with two more messages, the blocks of that answer and the results of
    the tools. *)
Definition followsUp `{NumberFormat} `{Host} (kb : KnowledgeBase)
    (create : nat -> CreateParams -> string + Message.t) (i : nat)
    (p q : CreateParams) : Prop :=
  exists reply results,
    create i p = inr reply
    /\ reply.(Message.stop_reason) = "tool_use"%string
    /\ runTools kb (List.filter isToolUse reply.(Message.content))
       = inr results
    /\ q = request p.(system)
             (p.(messages)
              ++ [ {| MessageParam.role := assistant;
                      MessageParam.content := Blocks reply.(Message.content) |};
                   {| MessageParam.role := user;
                      MessageParam.content := ToolResults results |} ]).

(** The requests of one question form a chain of follow-ups. *)
Definition chained `{NumberFormat} `{Host} (kb : KnowledgeBase)
    (create : nat -> CreateParams -> string + Message.t)
    (sent : list CreateParams) : Prop :=
  forall i p q,
    sent !! i = Some p -> sent !! S i = Some q -> followsUp kb create i p q.

(** The loop's state is in step with the requests sent: the last request
    carries the messages of the state, the reply of the state answers it,
    and there is one request more than rounds. *)
Definition inStep (create : nat -> CreateParams -> string + Message.t)
    (systemText : string) (st : LoopState) : Prop :=
  last st.(ls_sent) = Some (request systemText st.(ls_messages))
  /\ create (length st.(ls_sent) - 1)%nat (request systemText st.(ls_messages))
     = inr st.(response)
  /\ length st.(ls_sent) = S st.(ls_iterations).

(** The result of one tool-use block. *)
Definition resultOf `{NumberFormat} `{Host} (kb : KnowledgeBase)
    (b : ContentBlock) (r : ToolResultBlockParam.t) : Prop :=
  exists id toolName input,
    b = ToolUseBlock id toolName input
    /\ r.(ToolResultBlockParam.tool_use_id) = id
    /\ executeTool kb toolName input
       = Returned r.(ToolResultBlockParam.content).

(** *** Further sample inputs *)

(** An engine that answers at once, and twelve messages of the page. *)
Definition plainEngine (n : nat) (params : CreateParams) : string + Message.t :=
  inr {| Message.stop_reason := "end_turn";
         Message.content := [TextBlock "It is a discount."] |}.

Definition pageMessage (n : nat) : ChatMessage.t :=
  {| ChatMessage.id := "m" ++ natText n;
     ChatMessage.role := if Nat.even n then user else assistant;
     ChatMessage.content := "turn " ++ natText n;
     ChatMessage.timestamp := inject_Z (Z.of_nat n);
     ChatMessage.language := Some "en"%string |}.

(** Inputs of the term calculator: an earner of 30 with two children, one
    without debts or children and with a cover of two crore, the first with
    both ages infinite (the payload can say 1e999), and the first with an
    income of 1e308. *)
Definition youngEarner : TermCalcInput :=
  {| monthly_expenses := Num 50000; annual_income := Num 1200000;
     total_debts := Num 2000000; num_children := Num 2;
     education_goal_per_child := Num 2500000;
     existing_life_cover := Num 0; current_age := Num 30;
     retirement_age := Num 60 |}%Q.

Definition wellCovered : TermCalcInput :=
  {| monthly_expenses := Num 50000; annual_income := Num 1200000;
     total_debts := Num 0; num_children := Num 0;
     education_goal_per_child := Num 2500000;
     existing_life_cover := Num 20000000; current_age := Num 30;
     retirement_age := Num 60 |}%Q.



(* ===================================================================== *)
(** ** Lexical scorer: properties                                          *)
(* ===================================================================== *)

Lemma keywordHit_existsb (keywords : list string) (token : string) :
  existsb (fun kw => includes kw token || includes token kw) keywords = true
  <-> keywordHit keywords token.
Proof.
  unfold keywordHit. rewrite existsb_exists, Exists_exists.
  split; intros [kw [Hin Hkw]]; exists kw.
  - apply list_elem_of_In in Hin. split; [done|].
    apply orb_true_iff in Hkw. by rewrite <- !includes_spec.
  - apply list_elem_of_In in Hin. split; [done|].
    apply orb_true_iff. by rewrite !includes_spec.
Qed.

Lemma scoreStep_points (keywords : list string) (text : string) (score : Z)
    (token : string) :
  scoreStep keywords (toLowerCase text) score token
  = score + tokenPoints keywords text token.
Proof.
  unfold scoreStep, tokenPoints.
  destruct (existsb _ keywords) eqn:Hk.
  - apply keywordHit_existsb in Hk. rewrite decide_True by done.
    destruct (includes (toLowerCase text) token) eqn:Ht.
    + apply includes_spec in Ht. rewrite decide_True by done. lia.
    + rewrite decide_False; [lia|]. unfold textHit.
      rewrite <- includes_spec. congruence.
  - rewrite (decide_False (P := keywordHit keywords token)).
    2:{ rewrite <- keywordHit_existsb. congruence. }
    destruct (includes (toLowerCase text) token) eqn:Ht.
    + apply includes_spec in Ht. rewrite decide_True by done. lia.
    + rewrite decide_False; [lia|]. unfold textHit.
      rewrite <- includes_spec. congruence.
Qed.

Lemma tokenPoints_nonneg (keywords : list string) (text token : string) :
  0 <= tokenPoints keywords text token.
Proof. unfold tokenPoints. repeat case_decide; lia. Qed.

Lemma lexicalScore_nonneg (keywords : list string) (text : string)
    (tokens : list string) :
  0 <= lexicalScore keywords text tokens.
Proof.
  unfold lexicalScore. induction tokens as [|t ts IH]; simpl; [lia|].
  pose proof (tokenPoints_nonneg keywords text t). lia.
Qed.

Lemma fold_scoreStep (keywords : list string) (text : string)
    (tokens : list string) (acc : Z) :
  fold_left (scoreStep keywords (toLowerCase text)) tokens acc
  = acc + lexicalScore keywords text tokens.
Proof.
  revert acc. induction tokens as [|t ts IH]; intros acc; simpl.
  - unfold lexicalScore. simpl. lia.
  - rewrite IH, scoreStep_points. unfold lexicalScore. simpl. lia.
Qed.

Lemma scoreMatch_lexicalScore (keywords : list string) (text : string)
    (tokens : list string) :
  scoreMatch keywords text tokens = lexicalScore keywords text tokens.
Proof. unfold scoreMatch. rewrite fold_scoreStep. lia. Qed.

(** C2.  The score of a document is the sum, over the query tokens in
    sequence, of 3 points when some keyword contains the token or the token
    contains the keyword, plus 1 point when the lower-cased text contains
    the token; it is a non-negative integer, and every occurrence of a
    token counts (the score of two token sequences in a row is the sum of
    their scores). *)
Theorem scoreMatch_sum_of_token_points (keywords : list string)
    (text : string) (tokens more : list string) :
  scoreMatch keywords text tokens
  = foldr Z.add 0
      (map (fun token =>
              (if decide (keywordHit keywords token) then 3 else 0)
              + (if decide (textHit text token) then 1 else 0))
           tokens)
  /\ 0 <= scoreMatch keywords text tokens
  /\ scoreMatch keywords text (tokens ++ more)
     = scoreMatch keywords text tokens + scoreMatch keywords text more.
Proof.
  split; [apply scoreMatch_lexicalScore|]. split.
  - rewrite scoreMatch_lexicalScore. apply lexicalScore_nonneg.
  - unfold scoreMatch. rewrite fold_left_app, !fold_scoreStep. lia.
Qed.

(* ===================================================================== *)
(** ** Collection search: the ranking pipeline                             *)
(* ===================================================================== *)

Section ListFacts.

Context {A : Type}.
Implicit Types (f g : A -> bool) (l k : list A).

Lemma filterb_sublist f l : List.filter f l `sublist_of` l.
Proof.
  induction l as [|x l IH]; simpl; [constructor|].
  destruct (f x); by constructor.
Qed.

Lemma filterb_sublist_mono f l k :
  l `sublist_of` k -> List.filter f l `sublist_of` List.filter f k.
Proof.
  induction 1 as [|x l k _ IH|x l k _ IH]; simpl.
  - constructor.
  - destruct (f x); [by constructor | done].
  - destruct (f x); [by constructor | done].
Qed.

Lemma filterb_take_sublist f (n : nat) l :
  List.filter f (take n l) `sublist_of` List.filter f l.
Proof. apply filterb_sublist_mono, sublist_take. Qed.

Lemma filterb_Forall f l : Forall (fun x => f x = true) (List.filter f l).
Proof.
  apply Forall_forall. intros x Hx.
  apply list_elem_of_In, filter_In in Hx. tauto.
Qed.

Lemma StronglySorted_sublist (R : relation A) l k :
  l `sublist_of` k -> StronglySorted R k -> StronglySorted R l.
Proof.
  induction 1 as [|x l k Hlk IH|x l k Hlk IH]; intros Hs.
  - constructor.
  - apply StronglySorted_cons in Hs as [Hx Hs].
    apply StronglySorted_cons. split; [|by apply IH].
    apply Forall_forall. intros y Hy. rewrite Forall_forall in Hx.
    apply Hx. by eapply sublist_subseteq.
  - apply StronglySorted_cons in Hs as [_ Hs]. by apply IH.
Qed.

End ListFacts.

Lemma sublist_map {A B : Type} (f : A -> B) (l k : list A) :
  l `sublist_of` k -> map f l `sublist_of` map f k.
Proof. induction 1; simpl; by constructor. Qed.

(** *** The sort *)

Section SortByScore.

Context {A : Type}.

Abbreviation cmp := (fun a b : A * Z => snd b - snd a).
Abbreviation desc := (fun a b : A * Z => snd b <= snd a).
Abbreviation hasScore s := (fun p : A * Z => snd p =? s).

Lemma sortInsert_Permutation (x : A * Z) (l : list (A * Z)) :
  sortInsert cmp x l ≡ₚ x :: l.
Proof.
  induction l as [|y l IH]; simpl; [done|].
  destruct (snd x - snd y <? 0); [|done].
  rewrite IH. apply Permutation_swap.
Qed.

Lemma Array_sort_Permutation (l : list (A * Z)) : Array_sort cmp l ≡ₚ l.
Proof.
  induction l as [|x l IH]; simpl; [done|].
  by rewrite sortInsert_Permutation, IH.
Qed.

Lemma sortInsert_sorted (x : A * Z) (l : list (A * Z)) :
  StronglySorted desc l -> StronglySorted desc (sortInsert cmp x l).
Proof.
  induction l as [|y l IH]; intros Hs; simpl.
  - repeat constructor.
  - apply StronglySorted_cons in Hs as [Hy Hs].
    destruct (snd x - snd y <? 0) eqn:Hlt.
    + apply Z.ltb_lt in Hlt. apply StronglySorted_cons. split; [|by apply IH].
      rewrite sortInsert_Permutation. constructor; [lia | done].
    + apply Z.ltb_ge in Hlt. apply StronglySorted_cons. split.
      * constructor; [lia|]. eapply Forall_impl; [exact Hy|]. simpl. lia.
      * by apply StronglySorted_cons.
Qed.

Lemma Array_sort_sorted (l : list (A * Z)) :
  StronglySorted desc (Array_sort cmp l).
Proof.
  induction l as [|x l IH]; simpl; [constructor | by apply sortInsert_sorted].
Qed.

(** Stability: the elements of one score keep their order. *)
Lemma sortInsert_stable (s : Z) (x : A * Z) (l : list (A * Z)) :
  List.filter (hasScore s) (sortInsert cmp x l)
  = List.filter (hasScore s) (x :: l).
Proof.
  induction l as [|y l IH]; [done|].
  cbn [sortInsert]. destruct (snd x - snd y <? 0) eqn:Hlt; [|done].
  apply Z.ltb_lt in Hlt. cbn [List.filter] in *. rewrite IH.
  destruct (snd x =? s) eqn:Hx; [|done].
  apply Z.eqb_eq in Hx. destruct (snd y =? s) eqn:Hy; [|done].
  apply Z.eqb_eq in Hy. lia.
Qed.

Lemma Array_sort_stable (s : Z) (l : list (A * Z)) :
  List.filter (hasScore s) (Array_sort cmp l) = List.filter (hasScore s) l.
Proof.
  induction l as [|x l IH]; [done|].
  cbn [Array_sort]. rewrite sortInsert_stable. cbn [List.filter].
  by rewrite IH.
Qed.

(** A list in descending score order whose elements of each score come in
    the order of [l] is the sorted list: the contract of a stable sort has
    one solution. *)
Lemma stable_sort_unique (l1 l2 : list (A * Z)) :
  StronglySorted desc l1 -> StronglySorted desc l2 ->
  (forall s, List.filter (hasScore s) l1 = List.filter (hasScore s) l2) ->
  l1 = l2.
Proof.
  revert l2. induction l1 as [|x l1 IH]; intros l2 Hs1 Hs2 Hf.
  - destruct l2 as [|y l2]; [done|].
    specialize (Hf (snd y)). cbn [List.filter] in Hf.
    rewrite Z.eqb_refl in Hf. discriminate.
  - destruct l2 as [|y l2].
    { specialize (Hf (snd x)). cbn [List.filter] in Hf.
      rewrite Z.eqb_refl in Hf. discriminate. }
    apply StronglySorted_cons in Hs1 as [Hx Hs1].
    apply StronglySorted_cons in Hs2 as [Hy Hs2].
    assert (Hxy : snd x <= snd y).
    { pose proof (Hf (snd x)) as Hfx. cbn [List.filter] in Hfx.
      rewrite Z.eqb_refl in Hfx. destruct (snd y =? snd x) eqn:E.
      - apply Z.eqb_eq in E. lia.
      - assert (Hin : x ∈ List.filter (hasScore (snd x)) l2)
          by (rewrite <- Hfx; left).
        apply list_elem_of_In, filter_In in Hin as [Hin _].
        apply list_elem_of_In in Hin. rewrite Forall_forall in Hy.
        by apply Hy. }
    assert (Hyx : snd y <= snd x).
    { pose proof (Hf (snd y)) as Hfy. cbn [List.filter] in Hfy.
      rewrite Z.eqb_refl in Hfy. destruct (snd x =? snd y) eqn:E.
      - apply Z.eqb_eq in E. lia.
      - assert (Hin : y ∈ List.filter (hasScore (snd y)) l1)
          by (rewrite Hfy; left).
        apply list_elem_of_In, filter_In in Hin as [Hin _].
        apply list_elem_of_In in Hin. rewrite Forall_forall in Hx.
        by apply Hx. }
    assert (Heq : snd x = snd y) by lia.
    pose proof (Hf (snd x)) as Hfx. cbn [List.filter] in Hfx.
    rewrite Z.eqb_refl, <- Heq, Z.eqb_refl in Hfx.
    injection Hfx as -> Htl. f_equal. apply IH; [done..|].
    intros s. destruct (decide (s = snd y)) as [->|Hne]; [done|].
    specialize (Hf s). cbn [List.filter] in Hf.
    assert ((snd y =? s) = false) as E by (apply Z.eqb_neq; done).
    by rewrite E in Hf.
Qed.

(** So the model of [Array.prototype.sort] does not depend on the sorting
    algorithm of the host. *)
Lemma Array_sort_characterised (l sorted : list (A * Z)) :
  StronglySorted desc sorted ->
  (forall s, List.filter (hasScore s) sorted = List.filter (hasScore s) l) ->
  sorted = Array_sort cmp l.
Proof.
  intros Hs Hf. apply stable_sort_unique; [done | apply Array_sort_sorted |].
  intros s. by rewrite Array_sort_stable.
Qed.

End SortByScore.

(** *** The pipeline *)

Section TopK.

Context {A : Type} (score : A -> Z).

Abbreviation scoredOf := (map (fun d : A => (d, score d))).

Lemma scored_fst (l : list A) : map fst (scoredOf l) = l.
Proof. induction l; simpl; congruence. Qed.

Lemma scored_snd (l : list A) :
  Forall (fun p => snd p = score (fst p)) (scoredOf l).
Proof. induction l; simpl; by constructor. Qed.

Lemma filter_score_fst (s : Z) (L : list (A * Z)) :
  Forall (fun p => snd p = score (fst p)) L ->
  List.filter (fun d => score d =? s) (map fst L)
  = map fst (List.filter (fun p => snd p =? s) L).
Proof.
  induction 1 as [|p L Hp _ IH]; [done|].
  simpl. rewrite <- Hp, IH. by destruct (snd p =? s).
Qed.

Lemma topK_Ranked (n : nat) (candidates collection : list A) :
  candidates `sublist_of` collection ->
  Ranked score n collection (topK score n candidates).
Proof.
  intros Hsub. unfold topK, slice0.
  set (pos := List.filter (fun s : A * Z => 0 <? snd s) (scoredOf candidates)).
  set (sorted := Array_sort (fun a b : A * Z => snd b - snd a) pos).
  assert (Hpos_sub : pos `sublist_of` scoredOf candidates)
    by apply filterb_sublist.
  assert (Hinv : Forall (fun p => snd p = score (fst p)) sorted).
  { apply Forall_forall. intros p Hp.
    unfold sorted in Hp. rewrite Array_sort_Permutation in Hp.
    pose proof (scored_snd candidates) as Hall. rewrite Forall_forall in Hall.
    apply Hall. by eapply sublist_subseteq. }
  assert (Hgt : Forall (fun p : A * Z => 0 < snd p) sorted).
  { apply Forall_forall. intros p Hp.
    unfold sorted in Hp. rewrite Array_sort_Permutation in Hp.
    apply list_elem_of_In, filter_In in Hp as [_ Hp]. by apply Z.ltb_lt. }
  assert (Htake : take n sorted `sublist_of` sorted) by apply sublist_take.
  assert (Hinv' : Forall (fun p => snd p = score (fst p)) (take n sorted)).
  { rewrite Forall_forall in Hinv |- *. intros p Hp. apply Hinv.
    by eapply sublist_subseteq. }
  repeat split.
  - rewrite length_map, length_take. lia.
  - apply Forall_forall. intros d Hd.
    apply list_elem_of_In, in_map_iff in Hd as [p [<- Hp]].
    apply list_elem_of_In in Hp. rewrite Forall_forall in Hinv'.
    rewrite Forall_forall in Hgt.
    rewrite <- Hinv' by done. apply Hgt. by eapply sublist_subseteq.
  - assert (Hs : StronglySorted (fun a b : A * Z => snd b <= snd a)
                   (take n sorted)).
    { eapply StronglySorted_sublist; [exact Htake|]. apply Array_sort_sorted. }
    revert Hinv' Hs. generalize (take n sorted). clear.
    induction l as [|p l IH]; intros Hinv Hs; simpl; [constructor|].
    apply Forall_cons in Hinv as [Hp Hinv].
    apply StronglySorted_cons in Hs as [Hall Hs].
    apply StronglySorted_cons. split; [|by apply IH].
    rewrite Forall_forall in Hall. rewrite Forall_forall in Hinv.
    apply Forall_forall. intros d Hd.
    apply list_elem_of_In, in_map_iff in Hd as [q [<- Hq]].
    apply list_elem_of_In in Hq. rewrite <- Hp, <- (Hinv q) by done.
    by apply Hall.
  - intros s. rewrite filter_score_fst by done.
    transitivity candidates; [|done].
    rewrite <- (scored_fst candidates). apply sublist_map.
    transitivity (List.filter (fun p : A * Z => snd p =? s) sorted).
    { apply filterb_take_sublist. }
    unfold sorted. rewrite Array_sort_stable.
    transitivity pos; [apply filterb_sublist | done].
Qed.

(** A document that scores nothing is not returned. *)
Lemma topK_excludes_zero (n : nat) (candidates : list A) (d : A) :
  score d = 0 -> d ∉ topK score n candidates.
Proof.
  intros Hz Hd.
  destruct (topK_Ranked n candidates candidates) as (_ & Hpos & _); [done|].
  rewrite Forall_forall in Hpos. specialize (Hpos d Hd). lia.
Qed.

End TopK.

Lemma searchArticles_topK (kb : KnowledgeBase) (query : string)
    (category : option string) (maxResults : option nat) :
  exists candidates,
    candidates `sublist_of` kb.(articles)
    /\ searchArticles kb query category maxResults
       = topK (articleScore query) (default 3%nat maxResults) candidates.
Proof.
  unfold searchArticles. destruct (truthyStr category);
    eexists; (split; [|reflexivity]); [apply filterb_sublist | done].
Qed.

Lemma searchPolicies_topK (kb : KnowledgeBase) (query : string)
    (category insurerName : option string) (maxResults : option nat) :
  exists candidates,
    candidates `sublist_of` kb.(policies)
    /\ searchPolicies kb query category insurerName maxResults
       = topK (policyScore query) (default 5%nat maxResults) candidates.
Proof.
  unfold searchPolicies.
  destruct (truthyStr category), (truthyStr insurerName);
    eexists; (split; [|reflexivity]); try done;
    repeat (first [apply filterb_sublist
                  | etransitivity; [apply filterb_sublist|]]).
Qed.

Lemma searchClaimsGuides_topK (kb : KnowledgeBase) (query : string)
    (category : option string) :
  exists candidates,
    candidates `sublist_of` kb.(claimsGuides)
    /\ searchClaimsGuides kb query category
       = topK (guideScore query) 3 candidates.
Proof.
  unfold searchClaimsGuides. destruct (truthyStr category);
    eexists; (split; [|reflexivity]); [apply filterb_sublist | done].
Qed.

(** C1.  Each of the three searches returns at most [maxResults] documents
    (the default 3 or 5 when the argument is omitted, always 3 for claims
    guides), every one of them scoring above 0, in non-increasing score
    order, documents of equal score in the order of the collection. *)
Theorem search_results_ranked (kb : KnowledgeBase) (query : string)
    (category insurerName : option string) (maxResults : option nat) :
  Ranked (articleScore query) (default 3%nat maxResults) kb.(articles)
    (searchArticles kb query category maxResults)
  /\ Ranked (policyScore query) (default 5%nat maxResults) kb.(policies)
       (searchPolicies kb query category insurerName maxResults)
  /\ Ranked (guideScore query) 3 kb.(claimsGuides)
       (searchClaimsGuides kb query category).
Proof.
  destruct (searchArticles_topK kb query category maxResults)
    as (ca & Hca & ->).
  destruct (searchPolicies_topK kb query category insurerName maxResults)
    as (cp & Hcp & ->).
  destruct (searchClaimsGuides_topK kb query category) as (cg & Hcg & ->).
  auto using topK_Ranked.
Qed.

(* ===================================================================== *)
(** ** Documents that share nothing with the query                         *)
(* ===================================================================== *)

Lemma no_hit_no_points (keywords : list string) (text : string)
    (tokens : list string) :
  (forall token, token ∈ tokens ->
     ~ keywordHit keywords token /\ ~ textHit text token) ->
  scoreMatch keywords text tokens = 0.
Proof.
  intros Hno. rewrite scoreMatch_lexicalScore. unfold lexicalScore.
  induction tokens as [|t ts IH]; [done|].
  simpl. rewrite IH.
  - destruct (Hno t) as [Hk Ht]; [left|].
    unfold tokenPoints. by rewrite !decide_False.
  - intros token Hin. apply Hno. by right.
Qed.

(** C3, as the claim words it, at a concrete document and query.  No token
    of the query [taxes] occurs in a keyword or in the text of the article,
    yet the token contains the keyword [tax]: the article scores 3 and is
    returned. *)
Lemma token_containing_keyword_scores :
  (forall token, token ∈ tokenize "taxes" ->
     ~ Exists (isSubstring token) taxArticle.(Article.keywords)
     /\ ~ isSubstring token (toLowerCase (articleText taxArticle))
     /\ ~ isSubstring token taxArticle.(Article.fullContent))
  /\ articleScore "taxes" taxArticle = 3
  /\ searchArticles sampleKb "taxes" None None = [taxArticle].
Proof.
  split; [|split; reflexivity].
  apply Forall_forall. by apply (bool_decide_unpack _).
Qed.

(** C3, amended.  When no token of the query's tokenization is a substring
    of a keyword of the document, no keyword is a substring of a token, and
    no token is a substring of the lower-cased text the search scores, the
    score is 0 and no search returns the document. *)
Theorem no_overlap_scores_zero_and_is_excluded (kb : KnowledgeBase)
    (query : string) (category insurerName : option string)
    (maxResults : option nat) (keywords : list string) (text : string) :
  (forall token, token ∈ tokenize query ->
     ~ keywordHit keywords token /\ ~ textHit text token) ->
  scoreMatch keywords text (tokenize query) = 0
  /\ (forall a, a.(Article.keywords) = keywords -> articleText a = text ->
        a ∉ searchArticles kb query category maxResults)
  /\ (forall p, p.(Policy.keywords) = keywords -> policyText p = text ->
        p ∉ searchPolicies kb query category insurerName maxResults)
  /\ (forall g, g.(ClaimsGuide.keywords) = keywords -> guideText g = text ->
        g ∉ searchClaimsGuides kb query category).
Proof.
  intros Hno. pose proof (no_hit_no_points _ _ _ Hno) as Hz.
  split; [done|]. repeat split.
  - intros a <- <-.
    destruct (searchArticles_topK kb query category maxResults)
      as (c & _ & ->).
    by apply topK_excludes_zero.
  - intros p <- <-.
    destruct (searchPolicies_topK kb query category insurerName maxResults)
      as (c & _ & ->).
    by apply topK_excludes_zero.
  - intros g <- <-.
    destruct (searchClaimsGuides_topK kb query category) as (c & _ & ->).
    by apply topK_excludes_zero.
Qed.

Lemma no_overlap_witness :
  scoreMatch ["tax"]%string (articleText taxArticle)
    (tokenize "Life & Term!"%string) = 0
  /\ taxArticle ∉ searchArticles sampleKb "Life & Term!"%string None None.
Proof.
  destruct (no_overlap_scores_zero_and_is_excluded sampleKb
              "Life & Term!"%string None None None
              ["tax"]%string (articleText taxArticle)) as (Hz & Ha & _).
  - apply Forall_forall. by apply (bool_decide_unpack _).
  - split; [exact Hz | by apply Ha].
Defined.

(* ===================================================================== *)
(** ** Context assembler                                                   *)
(* ===================================================================== *)

Lemma fold_left_push {A B : Type} (f : A -> B) (l : list A) (init : list B) :
  fold_left (fun parts x => push parts (f x)) l init = init ++ map f l.
Proof.
  revert init. induction l as [|x l IH]; intros init; simpl.
  - by rewrite app_nil_r.
  - rewrite IH. unfold push. by rewrite <- app_assoc.
Qed.

Lemma pushArticles_section (parts : list string) (arts : list Article.t) :
  pushArticles parts arts
  = parts ++ sectionOf "=== RELEVANT ARTICLES ===" articleExcerpt arts.
Proof.
  unfold pushArticles. destruct arts as [|a arts]; [by rewrite app_nil_r|].
  cbn [length Nat.ltb Nat.leb sectionOf].
  rewrite (fold_left_push articleExcerpt). unfold push.
  by rewrite <- app_assoc.
Qed.

Lemma pushPolicies_section (parts : list string) (pols : list Policy.t) :
  pushPolicies parts pols
  = parts ++ sectionOf (nl ++ "=== RELEVANT POLICIES ===")%string
               policyExcerpt pols.
Proof.
  unfold pushPolicies. destruct pols as [|p pols]; [by rewrite app_nil_r|].
  cbn [length Nat.ltb Nat.leb sectionOf].
  rewrite (fold_left_push policyExcerpt). unfold push.
  by rewrite <- app_assoc.
Qed.

Lemma pushClaims_section (parts : list string) (guides : list ClaimsGuide.t) :
  pushClaims parts guides
  = parts ++ sectionOf (nl ++ "=== CLAIMS GUIDANCE ===")%string
               guideExcerpt guides.
Proof.
  unfold pushClaims. destruct guides as [|g guides]; [by rewrite app_nil_r|].
  cbn [length Nat.ltb Nat.leb sectionOf].
  rewrite (fold_left_push guideExcerpt). unfold push.
  by rewrite <- app_assoc.
Qed.

(** C6.  [buildContext] searches the articles with cap 2, the policies with
    cap 3 and the claims guides with cap 3, and its text is the sections
    for articles, policies and claims in that order joined by line breaks:
    a section without hits contributes nothing, not even its header; an
    article contributes its first two chunks, a policy its summary, a
    claims guide the first 1500 characters of its content. *)
Theorem buildContext_sections (kb : KnowledgeBase) (query : string) :
  buildContext kb query
  = join nl
      (contextSections
         (searchArticles kb query None (Some 2%nat))
         (searchPolicies kb query None None (Some 3%nat))
         (searchClaimsGuides kb query None))
  /\ (length (searchArticles kb query None (Some 2%nat)) <= 2)%nat
  /\ (length (searchPolicies kb query None None (Some 3%nat)) <= 3)%nat
  /\ (length (searchClaimsGuides kb query None) <= 3)%nat.
Proof.
  split.
  - unfold buildContext, buildContextParts, contextSections.
    by rewrite pushClaims_section, pushPolicies_section, pushArticles_section,
      <- app_assoc.
  - destruct (searchArticles_topK kb query None (Some 2%nat)) as (ca & Hca & ->).
    destruct (searchPolicies_topK kb query None None (Some 3%nat))
      as (cp & Hcp & ->).
    destruct (searchClaimsGuides_topK kb query None) as (cg & Hcg & ->).
    repeat split; eapply topK_Ranked; eassumption.
Qed.

(* ===================================================================== *)
(** ** Calculators                                                         *)
(* ===================================================================== *)

Local Open Scope Q_scope.


(** *** Numbers in full *)

Lemma overflowAt_big : 1000000000000 < overflowAt.
Proof. reflexivity. Qed.

Lemma ofQ_Num (q : Q) :
  - overflowAt < q -> q < overflowAt -> JsNum.ofQ q = Num q.
Proof.
  intros Hlo Hhi. unfold JsNum.ofQ.
  destruct (Qle_bool overflowAt q) eqn:E1.
  { apply Qle_bool_iff in E1. lra. }
  destruct (Qle_bool q (- overflowAt)) eqn:E2; [|done].
  apply Qle_bool_iff in E2. lra.
Qed.

Lemma ofQ_inv (q r : Q) :
  JsNum.ofQ q = Num r -> r = q /\ - overflowAt < q /\ q < overflowAt.
Proof.
  unfold JsNum.ofQ.
  destruct (Qle_bool overflowAt q) eqn:E1; [done|].
  destruct (Qle_bool q (- overflowAt)) eqn:E2; [done|].
  intros [= <-]. split; [done|].
  apply not_true_iff_false in E1, E2. rewrite Qle_bool_iff in E1, E2.
  split; apply Qnot_le_lt; done.
Qed.





(** A finite [Math.max(0, y)] is not negative. *)
Lemma max_zero_Num (y : JsNumber) (g : Q) :
  JsNum.max (Num 0) y = Num g -> 0 <= g.
Proof.
  destruct y as [q| | |]; cbn; try done.
  - destruct (Qle_bool 0 q) eqn:E; intros [= <-]; [|done].
    by apply Qle_bool_iff in E.
  - by intros [= <-].
Qed.

(** The cover recommended for a finite gap. *)
Lemma cover_of_finite_gap (g : Q) :
  0 <= g -> g < overflowAt ->
  JsNum.mul (JsNum.ceil (JsNum.div (Num g) (Num 2500000))) (Num 0.25)
  = Num (inject_Z (Qceiling (g / 2500000)) * 0.25).
Proof.
  intros H0 Hg. pose proof overflowAt_big as Hbig.
  assert (Hdiv : JsNum.div (Num g) (Num 2500000) = Num (g / 2500000)).
  { cbn [JsNum.div]. change (Qeq_bool 2500000 0) with false. cbv iota.
    apply ofQ_Num.
    - assert (0 <= g / 2500000) by (apply Qle_shift_div_l; lra). lra.
    - apply Qlt_shift_div_r; lra. }
  rewrite Hdiv. cbn [JsNum.ceil JsNum.mul].
  pose proof (Qle_ceiling (g / 2500000)) as Hlo.
  pose proof (Qceiling_lt (g / 2500000)) as Hhi.
  unfold Z.sub in Hhi. rewrite inject_Z_plus in Hhi.
  set (c := inject_Z (Qceiling (g / 2500000))) in *.
  assert (Hone : inject_Z (-1) == -1) by reflexivity. rewrite Hone in Hhi.
  assert (Hq : 0 <= g / 2500000) by (apply Qle_shift_div_l; lra).
  assert (Hq' : g / 2500000 < overflowAt) by (apply Qlt_shift_div_r; lra).
  apply ofQ_Num; lra.
Qed.




(* ===================================================================== *)
(** ** Capability registry: properties                                     *)
(* ===================================================================== *)

Section RegistryFacts.

Context (kb : KnowledgeBase) `{NumberFormat} `{Host}.

(** The [calculate_health_coverage] case reads five properties and nothing
    else. *)
Lemma executeTool_health (toolInput : gmap string JSValue) :
  executeTool kb "calculate_health_coverage" toolInput
  = default IllTyped
      (match numberArrayOr (getProp toolInput "family_members") [30] with
       | inl outcome => Some outcome
       | inr family_members =>
           city_tier ← cityTierOr (getProp toolInput "city_tier");
           corporate_cover ← numberOr (getProp toolInput "corporate_cover") 0;
           monthly_income ← numberOr (getProp toolInput "monthly_income") 0;
           Some (Returned (stringifyHealth (calculateHealthCoverage
             {| city_tier := city_tier;
                family_members := family_members;
                has_preexisting := truthy (getProp toolInput "has_preexisting");
                corporate_cover := corporate_cover;
                monthly_income := monthly_income |})))
       end).
Proof. reflexivity. Qed.

Lemma getProp_insert_eq (toolInput : gmap string JSValue) (key : string)
    (v : JSValue) :
  getProp (<[key := v]> toolInput) key = v.
Proof. unfold getProp. by rewrite lookup_insert_eq. Qed.

Lemma getProp_insert_ne (toolInput : gmap string JSValue) (key other : string)
    (v : JSValue) :
  key <> other -> getProp (<[key := v]> toolInput) other = getProp toolInput other.
Proof. intros Hne. unfold getProp. by rewrite lookup_insert_ne. Qed.

Lemma getProp_missing (toolInput : gmap string JSValue) (key : string) :
  toolInput !! key = None -> getProp toolInput key = JUndefined.
Proof. intros Hm. unfold getProp. by rewrite Hm. Qed.

Lemma mapM_asNumber (ages : list Q) : mapM asNumber (map JNum ages) = Some ages.
Proof.
  induction ages as [|age ages IH]; [done|].
  cbn [map mapM asNumber mbind option_bind]. by rewrite IH.
Qed.

Lemma cityTierOfString_plain (s : string) :
  s ∉ inheritedKeys -> is_Some (cityTierOfString s).
Proof.
  intros Hs. unfold cityTierOfString.
  destruct (String.eqb s "metro") eqn:E1; [done|].
  destruct (String.eqb s "tier1") eqn:E2; [done|].
  destruct (String.eqb s "tier2") eqn:E3; [done|].
  destruct (Bool.bool_dec (listed s) false) as [plain|Hl]; [done|].
  exfalso. apply Hl. unfold listed, ownKeys.
  cbn [app existsb]. rewrite E1, E2, E3. cbn [orb].
  apply not_true_iff_false. intros Hin. apply Hs.
  apply existsb_exists in Hin as (k & Hk & Hkey).
  apply String.eqb_eq in Hkey as <-. by apply list_elem_of_In.
Qed.

(** The default of a missing parameter gives what the missing parameter
    gives. *)
Lemma health_default_read (toolInput : gmap string JSValue) (key : string)
    (dflt : JSValue) :
  (key, dflt) ∈ healthDefaults ->
  toolInput !! key = None ->
  executeTool kb "calculate_health_coverage" toolInput
  = executeTool kb "calculate_health_coverage" (<[key := dflt]> toolInput).
Proof.
  intros Hin Hmiss. rewrite !executeTool_health.
  unfold healthDefaults in Hin.
  repeat (apply elem_of_cons in Hin as [Hin|Hin];
          [injection Hin as -> ->;
           rewrite (getProp_missing _ _ Hmiss), getProp_insert_eq,
             !getProp_insert_ne by done;
           reflexivity|]).
  by apply elem_of_nil in Hin.
Qed.

(** A payload of the declared types is answered with a result of the
    calculator. *)
Lemma health_typed_returns (toolInput : gmap string JSValue) :
  healthTyped toolInput ->
  exists input,
    executeTool kb "calculate_health_coverage" toolInput
    = Returned (stringifyHealth (calculateHealthCoverage input)).
Proof.
  intros (Hcity & Hfamily & Hcorp & Hincome). rewrite executeTool_health.
  assert (Hf : exists ages,
            numberArrayOr (getProp toolInput "family_members") [30]
            = inr ages).
  { unfold numberArrayOr.
    destruct (truthy (getProp toolInput "family_members")); [|by eexists].
    destruct Hfamily as [ages ->]; [done|]. rewrite mapM_asNumber.
    by eexists. }
  destruct Hf as [ages ->].
  assert (Hc : is_Some (cityTierOr (getProp toolInput "city_tier"))).
  { unfold cityTierOr.
    destruct (truthy (getProp toolInput "city_tier")); [|done].
    destruct Hcity as (s & -> & Hs); [done|]. by apply cityTierOfString_plain. }
  destruct Hc as [tier ->].
  assert (Hn : forall key,
            (truthy (getProp toolInput key) = true ->
             exists n, getProp toolInput key = JNum n) ->
            is_Some (numberOr (getProp toolInput key) 0)).
  { intros key Hkey. unfold numberOr.
    destruct (truthy (getProp toolInput key)); [|done].
    by destruct Hkey as [n ->]. }
  destruct (Hn _ Hcorp) as [corp ->]. destruct (Hn _ Hincome) as [income ->].
  by eexists.
Qed.

End RegistryFacts.

(** C7.  Invoked with [city_tier = "metro"], [family_members = [35,32,5]],
    [has_preexisting = false] and [corporate_cover = 0], the health-coverage
    capability returns the serialised result of the calculator on that
    input, whose recommended cover is a positive multiple of 5 lakhs and
    whose base plan is at most 25 lakhs. *)
Theorem health_example_cover (kb : KnowledgeBase) `{NumberFormat} `{Host} :
  executeTool kb "calculate_health_coverage" healthExamplePayload
  = Returned (stringifyHealth (calculateHealthCoverage healthExampleInput))
  /\ (exists k : Z,
        (0 < k)%Z
        /\ (calculateHealthCoverage healthExampleInput).(HealthCalcResult.recommended_cover_lakhs)
           == inject_Z (5 * k))
  /\ (calculateHealthCoverage healthExampleInput).(HealthCalcResult.base_plan_lakhs) <= 25.
Proof.
  split; [|split].
  - rewrite executeTool_health. reflexivity.
  - exists 5%Z. split; [done|]. vm_compute. reflexivity.
  - vm_compute. discriminate.
Qed.

(** C5.  Invoked with a name that the catalog does not hold, [executeTool]
    returns the text that reports the unknown tool, whatever the payload:
    it neither throws nor returns an empty answer. *)
Theorem unknown_tool_is_reported (kb : KnowledgeBase) `{NumberFormat} `{Host}
    (toolName : string) (toolInput : gmap string JSValue) :
  toolName ∉ map name TOOLS ->
  executeTool kb toolName toolInput
  = Returned ("Unknown tool: " ++ toolName)%string
  /\ ("Unknown tool: " ++ toolName)%string <> EmptyString.
Proof.
  intros Hn. split; [|done].
  assert (Hne : forall lit, lit ∈ map name TOOLS -> String.eqb toolName lit = false).
  { intros lit Hlit. apply String.eqb_neq. by intros ->. }
  unfold executeTool.
  rewrite !Hne; [reflexivity | ..];
    apply list_elem_of_In; cbn; tauto.
Qed.

Lemma unknown_tool_witness :
  @executeTool sampleKb sampleFormat sampleHost "delete_policy" ∅
  = Returned "Unknown tool: delete_policy".
Proof.
  refine (proj1 (@unknown_tool_is_reported sampleKb sampleFormat sampleHost
                   "delete_policy"%string ∅ _)).
  intros Hin. apply list_elem_of_In in Hin. cbn in Hin.
  repeat (destruct Hin as [Hin|Hin]; [discriminate Hin|]). exact Hin.
Defined.

(** C8.  For every payload of [calculate_health_coverage] that lacks one of
    the five parameters, the invocation gives what it gives with the
    default supplied for it: "metro" for [city_tier], [30] for
    [family_members], false for [has_preexisting], 0 for [corporate_cover]
    and for [monthly_income].  When the parameters that are present hold
    values of the declared types, the invocation returns a result of the
    calculator, and with all five missing it returns the calculator's result
    on the defaults. *)
Theorem health_missing_parameter_defaults (kb : KnowledgeBase)
    `{NumberFormat} `{Host} (toolInput : gmap string JSValue)
    (key : string) (dflt : JSValue) :
  (key, dflt) ∈ healthDefaults ->
  toolInput !! key = None ->
  executeTool kb "calculate_health_coverage" toolInput
  = executeTool kb "calculate_health_coverage" (<[key := dflt]> toolInput)
  /\ (healthTyped toolInput ->
      exists input,
        executeTool kb "calculate_health_coverage" toolInput
        = Returned (stringifyHealth (calculateHealthCoverage input)))
  /\ executeTool kb "calculate_health_coverage" ∅
     = Returned (stringifyHealth (calculateHealthCoverage healthDefaultInput)).
Proof.
  intros Hin Hmiss. split; [by apply health_default_read|].
  split; [apply health_typed_returns|]. by rewrite executeTool_health.
Qed.

(** A parameter that is present with a value of another type can still
    make the invocation fail: with the number 5 for [family_members] and
    [city_tier] missing, it throws. *)
Lemma health_invocation_can_throw :
  ({[ "family_members"%string := JNum 5 ]} : gmap string JSValue)
    !! "city_tier"%string = None
  /\ @executeTool sampleKb sampleFormat sampleHost "calculate_health_coverage"
       {[ "family_members"%string := JNum 5 ]}
     = Thrown.
Proof. split; reflexivity. Qed.

Lemma health_missing_city_tier_witness :
  @executeTool sampleKb sampleFormat sampleHost "calculate_health_coverage"
    {[ "family_members"%string := JArr [JNum 61; JNum 58] ]}
  = @executeTool sampleKb sampleFormat sampleHost "calculate_health_coverage"
      (<["city_tier"%string := JStr "metro"]>
         {[ "family_members"%string := JArr [JNum 61; JNum 58] ]}).
Proof.
  refine (proj1 (@health_missing_parameter_defaults sampleKb sampleFormat
                   sampleHost
                   {[ "family_members"%string := JArr [JNum 61; JNum 58] ]}
                   "city_tier"%string (JStr "metro") _ _)).
  - left.
  - reflexivity.
Defined.

(* ===================================================================== *)
(** ** Orchestration loop: properties                                      *)
(* ===================================================================== *)

Import Chat.

Local Open Scope nat_scope.

Section LoopFacts.

Context (kb : KnowledgeBase) `{NumberFormat} `{Host}.
Variable create : nat -> CreateParams -> string + Message.t.

Abbreviation loop := (toolLoop kb create).

(** The loop stops: once the fuel covers the rounds that are left, it is
    never short. *)
Lemma toolLoop_total (systemText : string) (fuel : nat) (st : LoopState) :
  maxIterations - st.(ls_iterations) <= fuel ->
  is_Some (loop systemText fuel st).
Proof.
  revert st. induction fuel as [|fuel IH]; intros st Hfuel;
    cbn [toolLoop];
    destruct (String.eqb _ _ && (_ <? maxIterations)) eqn:Hguard; try done.
  - apply andb_true_iff in Hguard as [_ Hlt]. apply Nat.ltb_lt in Hlt.
    lia.
  - apply andb_true_iff in Hguard as [_ Hlt]. apply Nat.ltb_lt in Hlt.
    destruct (runTools kb _) as [[]|results]; try done.
    destruct (create _ _) as [details|next]; [done|].
    apply IH. cbn [ls_iterations]. lia.
Qed.

(** What the loop does to the round counter and to the requests sent. *)
Lemma toolLoop_run (systemText : string) (fuel : nat) (st : LoopState)
    (e : LoopEnd) :
  loop systemText fuel st = Some e ->
  st.(ls_iterations) <= (endState e).(ls_iterations)
  /\ (st.(ls_iterations) <= maxIterations ->
      (endState e).(ls_iterations) <= maxIterations)
  /\ exists more,
       (endState e).(ls_sent) = st.(ls_sent) ++ more
       /\ length more <= (endState e).(ls_iterations) - st.(ls_iterations).
Proof.
  revert st. induction fuel as [|fuel IH]; intros st;
    cbn [toolLoop];
    destruct (String.eqb _ _ && (_ <? maxIterations)) eqn:Hguard;
    try discriminate;
    try (intros [= <-]; cbn [endState ls_iterations ls_sent];
         split; [lia|]; split; [lia|];
         exists []; rewrite app_nil_r; split; [done | cbn [length]; lia]).
  apply andb_true_iff in Hguard as [_ Hlt]. apply Nat.ltb_lt in Hlt.
  destruct (runTools kb _) as [[]|results];
    try (intros [= <-]; cbn [endState ls_iterations ls_sent];
         split; [lia|]; split; [lia|];
         exists []; rewrite app_nil_r; split; [done | cbn [length]; lia]).
  destruct (create _ _) as [details|next].
  - intros [= <-]. cbn [endState ls_iterations ls_sent]. split; [lia|].
    split; [lia|]. eexists [_]. split; [reflexivity | cbn [length]; lia].
  - intros He. apply IH in He as (Hle & Hmax & more & Hsent & Hlen).
    cbn [ls_iterations ls_sent] in Hle, Hmax, Hsent, Hlen.
    split; [lia|]. split; [lia|].
    eexists (_ :: more). split.
    + rewrite Hsent. unfold push. by rewrite <- app_assoc.
    + cbn [length]. lia.
Qed.

Lemma runTools_returns (blocks : list ContentBlock) :
  (forall id toolName input,
     ToolUseBlock id toolName input ∈ blocks ->
     exists text, executeTool kb toolName input = Returned text) ->
  exists results, runTools kb blocks = inr results.
Proof.
  induction blocks as [|b blocks IH]; intros Hret; [by eexists|].
  destruct IH as [results Hres].
  { intros id n i Hin. eapply Hret. by right. }
  destruct b as [t|id n i|t]; cbn [runTools]; try by eexists.
  destruct (Hret id n i) as [text ->]; [left|].
  rewrite Hres. by eexists.
Qed.

(** With an engine that asks for tools on every reply, the loop runs until
    its counter reaches the cap and then stops with the reply to the last
    request. *)
Lemma toolLoop_busy (systemText : string) (fuel : nat) (st : LoopState) :
  (forall n params, exists r, create n params = inr r /\ asksForTools kb r) ->
  st.(ls_iterations) <= maxIterations ->
  maxIterations - st.(ls_iterations) <= fuel ->
  asksForTools kb st.(response) ->
  answersLast create st ->
  exists st',
    loop systemText fuel st = Some (Completed st')
    /\ st'.(ls_iterations) = maxIterations
    /\ answersLast create st'
    /\ length st'.(ls_sent)
       = length st.(ls_sent) + (maxIterations - st.(ls_iterations)).
Proof.
  intros Hbusy. revert st.
  induction fuel as [|fuel IH]; intros st Hle Hfuel [Hstop Htools] Hlast;
    cbn [toolLoop]; rewrite Hstop, String.eqb_refl; cbn [andb];
    destruct (st.(ls_iterations) <? maxIterations) eqn:Hlt.
  - apply Nat.ltb_lt in Hlt. lia.
  - apply Nat.ltb_ge in Hlt. exists st. repeat split; [lia | done | lia].
  - apply Nat.ltb_lt in Hlt.
    destruct (runTools_returns (List.filter isToolUse st.(response).(Message.content)))
      as [results ->].
    { intros id n i Hin. apply list_elem_of_In, filter_In in Hin as [Hin _].
      apply list_elem_of_In in Hin. eauto. }
    cbn [ls_sent ls_messages ls_iterations response].
    match goal with
    | |- context [create ?n ?p] => destruct (Hbusy n p) as (next & Hnext & Hasks)
    end.
    rewrite Hnext.
    match goal with
    | |- context [toolLoop _ _ _ _ ?s] =>
        destruct (IH s) as (st' & Hloop & Hiter & Hlast' & Hlen)
    end.
    + cbn [ls_iterations]. lia.
    + cbn [ls_iterations]. lia.
    + done.
    + unfold answersLast. cbn [ls_sent response].
      eexists. unfold push. rewrite last_snoc. split; [reflexivity|].
      exact Hnext.
    + exists st'. split; [exact Hloop|]. split; [done|]. split; [done|].
      rewrite Hlen. cbn [ls_sent ls_iterations]. unfold push.
      rewrite length_app. cbn [length]. lia.
  - apply Nat.ltb_ge in Hlt. exists st. repeat split; [lia | done | lia].
Qed.

End LoopFacts.

Lemma sliceLast_split {A : Type} (n : nat) (l : list A) :
  exists dropped,
    l = dropped ++ sliceLast n l /\ length (sliceLast n l) = n `min` length l.
Proof.
  exists (take (length l - n) l). unfold sliceLast. split.
  - by rewrite take_drop.
  - rewrite length_drop. lia.
Qed.

Section RouteFacts.

Context (kb : KnowledgeBase) `{NumberFormat} `{Host}.
Variable SYSTEM_PROMPT : string.
Variable create : nat -> CreateParams -> string + Message.t.

Abbreviation handler := (POST kb SYSTEM_PROMPT create).

Lemma POST_not_forwarded (fuel : nat) (body : Body) :
  truthyStr ANTHROPIC_API_KEY && truthyStr body.(message) = false ->
  exists reply,
    handler fuel body
    = Some (reply,
            {| callerHistory := default [] body.(conversationHistory);
               finalMessages := []; sent := []; iterations := 0 |}).
Proof.
  intros Hno. unfold POST.
  destruct (truthyStr ANTHROPIC_API_KEY); cbn [negb]; [|by eexists].
  cbn [andb] in Hno. rewrite Hno. cbn [negb]. by eexists.
Qed.

(** A request with a key and a message is forwarded: the engine is called
    on the initial messages, and the loop runs from its first reply. *)
Lemma POST_forwarded (fuel : nat) (body : Body) :
  truthyStr ANTHROPIC_API_KEY && truthyStr body.(message) = true ->
  let history := default [] body.(conversationHistory) in
  let message := default ""%string body.(message) in
  let systemText :=
    augmentedSystem kb SYSTEM_PROMPT message
      (default "en"%string body.(language)) in
  let msgs := initialMessages history message in
  let params := request systemText msgs in
  handler fuel body
  = match create 0 params with
    | inl details =>
        Some (Error 500 "Chat failed" (Some details),
              {| callerHistory := history; finalMessages := msgs;
                 sent := [params]; iterations := 0 |})
    | inr first =>
        e ← toolLoop kb create systemText fuel
              {| response := first; ls_iterations := 0;
                 ls_messages := msgs; ls_sent := [params] |};
        Some (replyOf e, runOf history (endState e))
    end.
Proof.
  intros Hyes. apply andb_true_iff in Hyes as [Hkey Hmsg].
  cbv zeta. unfold POST. rewrite Hkey, Hmsg. cbn [negb].
  rewrite (fold_left_push turnOf). cbn [app]. unfold push, initialMessages.
  destruct (create 0 _) as [details|first]; [done|].
  destruct (toolLoop _ _ _ _ _) as [[]|]; done.
Qed.

End RouteFacts.

Section RouteTheorems.

Context (kb : KnowledgeBase) `{NumberFormat} `{Host}.
Variable SYSTEM_PROMPT : string.
Variable create : nat -> CreateParams -> string + Message.t.

(** C4.  Whatever the question and whatever the engine replies, the handler
    ends with at most 5 dispatch rounds and at most one request more than
    rounds.  When every reply asks for tools, it ends after exactly 5 rounds
    and 6 requests, and answers with the text blocks of the reply to the
    last request, joined by line breaks (the empty text when it has none). *)
Theorem tool_loop_at_most_five_rounds (fuel : nat) (body : Body) :
  maxIterations <= fuel ->
  exists reply run,
    POST kb SYSTEM_PROMPT create fuel body = Some (reply, run)
    /\ run.(iterations) <= 5
    /\ length run.(sent) <= S run.(iterations)
    /\ (alwaysAsksForTools kb create body ->
        run.(iterations) = 5
        /\ length run.(sent) = 6
        /\ exists params lastReply url used,
             last run.(sent) = Some params
             /\ create 5 params = inr lastReply
             /\ reply
                = Ok (join nl (omap textOf lastReply.(Message.content))) url used).
Proof.
  intros Hfuel.
  destruct (truthyStr ANTHROPIC_API_KEY && truthyStr body.(message)) eqn:Hfw.
  2:{ destruct (POST_not_forwarded kb SYSTEM_PROMPT create fuel body Hfw)
        as [reply ->].
      eexists _, _. split; [reflexivity|]. cbn [iterations sent length].
      split; [lia|]. split; [lia|]. intros (Hkey & Hmsg & _).
      rewrite Hkey, Hmsg in Hfw. discriminate. }
  rewrite (POST_forwarded kb SYSTEM_PROMPT create fuel body Hfw). cbv zeta.
  set (systemText := augmentedSystem _ _ _ _). set (msgs := initialMessages _ _).
  set (params := request _ _).
  destruct (create 0 params) as [details|first] eqn:Hfirst.
  { eexists _, _. split; [reflexivity|]. cbn [iterations sent length].
    split; [lia|]. split; [lia|]. intros (_ & _ & Hbusy).
    destruct (Hbusy 0 params) as (r & Hr & _). congruence. }
  set (st0 := {| response := first; ls_iterations := 0;
                 ls_messages := msgs; ls_sent := [params] |}).
  destruct (toolLoop_total kb create systemText fuel st0) as [e He].
  { cbn [ls_iterations st0]. lia. }
  rewrite He. cbn [mbind option_bind].
  eexists _, _. split; [reflexivity|].
  destruct (toolLoop_run kb create systemText fuel st0 e He)
    as (_ & Hmax & more & Hsent & Hmore).
  cbn [ls_iterations ls_sent st0] in Hmax, Hsent, Hmore.
  cbn [runOf iterations sent]. rewrite Hsent, length_app. cbn [length].
  unfold maxIterations in Hmax.
  split; [lia|]. split; [lia|]. intros (_ & _ & Hbusy).
  destruct (toolLoop_busy kb create systemText fuel st0 Hbusy)
    as (st' & Hloop & Hiter & (p & Hlast & Hp) & Hlen).
  - cbn [ls_iterations st0]. lia.
  - cbn [ls_iterations st0]. lia.
  - cbn [response st0]. destruct (Hbusy 0 params) as (r & Hr & Hasks).
    congruence.
  - exists params. split; [done|]. exact Hfirst.
  - rewrite He in Hloop. injection Hloop as ->.
    cbn [endState] in Hsent |- *. cbn [ls_sent ls_iterations st0] in Hlen.
    unfold maxIterations in Hiter, Hlen.
    assert (Hm : length more = 5).
    { rewrite Hsent, length_app in Hlen. cbn [length] in Hlen. lia. }
    split; [done|]. split; [lia|].
    exists p, st'.(response). eexists _, _.
    split; [by rewrite <- Hsent|]. split; [|reflexivity].
    rewrite Hlen in Hp. exact Hp.
Qed.

(** C10.  The first request the handler sends carries the last 10 turns of
    the caller's history (all of them when there are fewer) and then the
    new user message; the earlier turns are not in it; the caller's history
    array is as it was.  A request without a key or a message is not
    forwarded at all. *)
Theorem initial_request_keeps_last_ten_turns (fuel : nat) (body : Body) :
  maxIterations <= fuel ->
  let history := default [] body.(conversationHistory) in
  exists reply run,
    POST kb SYSTEM_PROMPT create fuel body = Some (reply, run)
    /\ run.(callerHistory) = history
    /\ (exists dropped,
          history = dropped ++ sliceLast 10 history
          /\ length (sliceLast 10 history) = 10 `min` length history)
    /\ if truthyStr ANTHROPIC_API_KEY && truthyStr body.(message)
       then exists first rest,
              run.(sent) = first :: rest
              /\ first.(messages)
                 = map turnOf (sliceLast 10 history)
                   ++ [{| MessageParam.role := user;
                          MessageParam.content := Text (default ""%string body.(message)) |}]
       else run.(sent) = [].
Proof.
  intros Hfuel history.
  destruct (truthyStr ANTHROPIC_API_KEY && truthyStr body.(message)) eqn:Hfw.
  2:{ destruct (POST_not_forwarded kb SYSTEM_PROMPT create fuel body Hfw)
        as [reply ->].
      eexists _, _. split; [reflexivity|]. split; [done|].
      split; [apply sliceLast_split | done]. }
  rewrite (POST_forwarded kb SYSTEM_PROMPT create fuel body Hfw). cbv zeta.
  fold history.
  set (systemText := augmentedSystem _ _ _ _). set (msgs := initialMessages _ _).
  set (params := request _ _).
  destruct (create 0 params) as [details|first] eqn:Hfirst.
  { eexists _, _. split; [reflexivity|]. split; [done|].
    split; [apply sliceLast_split|]. by eexists _, _. }
  set (st0 := {| response := first; ls_iterations := 0;
                 ls_messages := msgs; ls_sent := [params] |}).
  destruct (toolLoop_total kb create systemText fuel st0) as [e He].
  { cbn [ls_iterations st0]. lia. }
  rewrite He. cbn [mbind option_bind].
  eexists _, _. split; [reflexivity|]. split; [done|].
  split; [apply sliceLast_split|].
  destruct (toolLoop_run kb create systemText fuel st0 e He)
    as (_ & _ & more & Hsent & _).
  cbn [runOf sent]. rewrite Hsent. cbn [ls_sent st0 app]. by eexists _, _.
Qed.

End RouteTheorems.

Lemma busyEngine_always_asks :
  @alwaysAsksForTools sampleFormat sampleHost sampleKb busyEngine sampleBody.
Proof.
  split; [reflexivity|]. split; [reflexivity|].
  intros n params. eexists. split; [reflexivity|]. split; [reflexivity|].
  intros id toolName input Hin. cbn [Message.content] in Hin.
  apply elem_of_cons in Hin as [Hin|Hin]; [discriminate|].
  apply elem_of_cons in Hin as [Hin|Hin]; [|by apply elem_of_nil in Hin].
  injection Hin as -> -> ->. by eexists.
Defined.

Lemma five_rounds_witness :
  exists reply run,
    @POST sampleKb sampleFormat sampleHost "You are an assistant." busyEngine
      5 sampleBody = Some (reply, run)
    /\ run.(iterations) = 5
    /\ length run.(sent) = 6
    /\ exists url used, reply = Ok "partial 5" url used.
Proof.
  destruct (@tool_loop_at_most_five_rounds sampleKb sampleFormat sampleHost
              "You are an assistant." busyEngine 5 sampleBody (le_n 5))
    as (reply & run & HP & _ & _ & Hbusy).
  destruct (Hbusy busyEngine_always_asks)
    as (Hi & Hs & p & lastReply & url & used & _ & Hc & Hr).
  exists reply, run. split; [exact HP|]. split; [exact Hi|].
  split; [exact Hs|]. exists url, used.
  injection Hc as <-. exact Hr.
Defined.

Lemma last_ten_turns_witness :
  exists reply run,
    @POST sampleKb sampleFormat sampleHost "You are an assistant." busyEngine
      5 sampleBody = Some (reply, run)
    /\ run.(callerHistory) = map turn (seq 1 12)
    /\ exists first rest,
         run.(sent) = first :: rest
         /\ first.(messages)
            = map turnOf (map turn (seq 3 10))
              ++ [{| MessageParam.role := user;
                     MessageParam.content := Text "what is no claim bonus" |}].
Proof.
  destruct (@initial_request_keeps_last_ten_turns sampleKb sampleFormat
              sampleHost "You are an assistant." busyEngine 5 sampleBody
              (le_n 5))
    as (reply & run & HP & Hh & _ & Hsent).
  exists reply, run. split; [exact HP|]. split; [exact Hh|]. exact Hsent.
Defined.

(** The loop on the sample engine, run: five rounds, six requests, and the
    text of the sixth reply, with any fuel from 5 on. *)
Example busy_engine_run :
  (fun '(reply, run) => (reply, run.(iterations), length run.(sent)))
    <$> @POST sampleKb sampleFormat sampleHost "You are an assistant."
          busyEngine 5 sampleBody
  = Some (Ok "partial 5" None ["lookup_weather"%string], 5, 6)
  /\ @POST sampleKb sampleFormat sampleHost "You are an assistant."
       busyEngine 40 sampleBody
     = @POST sampleKb sampleFormat sampleHost "You are an assistant."
         busyEngine 5 sampleBody.
Proof. split; vm_compute; reflexivity. Qed.

(* ===================================================================== *)
(** ** The embedding, run on small inputs                                  *)
(* ===================================================================== *)

Example tokenize_drops_short_tokens :
  tokenize "  What is No-Claim Bonus?? in 80D "
  = ["what"; "claim"; "bonus"; "80d"]%string.
Proof. reflexivity. Qed.

Example split_keeps_empty_ends :
  splitWhitespace " a  b " = [""; "a"; "b"; ""]%string
  /\ splitWhitespace "" = [""]%string.
Proof. split; reflexivity. Qed.

Example score_counts_every_occurrence :
  scoreMatch ["tax"]%string "Guide" (tokenize "taxes guide guide") = 5%Z.
Proof. reflexivity. Qed.

(** Ties keep the order of the collection: the first and the third policy
    both score 3 and stay in that order behind the second, which scores 4. *)
Example policies_tie_in_collection_order :
  searchPolicies sampleKb "health" None None None
  = [policyTwo; policyOne; policyThree]
  /\ searchPolicies sampleKb "health" None None (Some 2)
     = [policyTwo; policyOne]
  /\ searchPolicies sampleKb "health" None (Some "STAR"%string) None
     = [policyOne; policyThree].
Proof. repeat split; reflexivity. Qed.

Example context_omits_empty_sections :
  buildContextParts sampleKb "cashless health"
  = [ (nl ++ "=== RELEVANT POLICIES ===")%string;
      policyExcerpt policyTwo; policyExcerpt policyOne;
      policyExcerpt policyThree;
      (nl ++ "=== CLAIMS GUIDANCE ===")%string;
      guideExcerpt cashlessGuide ]
  /\ buildContext sampleKb "zzz" = EmptyString.
Proof. split; reflexivity. Qed.

Example missing_query_throws :
  @executeTool sampleKb sampleFormat sampleHost "search_policies" ∅ = Thrown
  /\ @executeTool sampleKb sampleFormat sampleHost "search_policies"
       {[ "query"%string := JStr "health" ]}
     = Returned
         (join (nl ++ nl ++ "---" ++ nl ++ nl)%string
            (map policyCard [policyTwo; policyOne; policyThree])).
Proof. split; reflexivity. Qed.

(* ===================================================================== *)
(** ** Further properties: tokens and scores                               *)
(* ===================================================================== *)

Local Open Scope Z_scope.

Lemma lowerChar_idem (c : ascii) : lowerChar (lowerChar c) = lowerChar c.
Proof. by destruct c as [[] [] [] [] [] [] [] []]. Qed.

Lemma toLowerCase_idem (s : string) : toLowerCase (toLowerCase s) = toLowerCase s.
Proof. induction s as [|c s IH]; [done|]. simpl. by rewrite lowerChar_idem, IH. Qed.

Lemma tokenize_toLowerCase (text : string) :
  tokenize (toLowerCase text) = tokenize text.
Proof. unfold tokenize. by rewrite toLowerCase_idem. Qed.

Lemma scoreMatch_toLowerCase (keywords : list string) (text : string)
    (tokens : list string) :
  scoreMatch keywords (toLowerCase text) tokens = scoreMatch keywords text tokens.
Proof. unfold scoreMatch. by rewrite toLowerCase_idem. Qed.

Lemma list_ascii_app (s t : string) :
  list_ascii_of_string (s ++ t) = list_ascii_of_string s ++ list_ascii_of_string t.
Proof. induction s as [|c s IH]; [done|]. simpl. by rewrite IH. Qed.

Lemma allChars_snoc (P : ascii -> bool) (s : string) (c : ascii) :
  allChars P s -> P c = true -> allChars P (s ++ String c EmptyString).
Proof.
  unfold allChars. intros Hs Hc. rewrite list_ascii_app.
  apply Forall_app. split; [done|]. by repeat constructor.
Qed.

Lemma replaceNonAlnum_chars (s : string) :
  allChars (fun c => isLowerAlnum c || isSpace c) (replaceNonAlnum s).
Proof.
  unfold allChars. induction s as [|c s IH]; [constructor|].
  simpl. constructor; [|done].
  destruct (isLowerAlnum c || isSpace c) eqn:E; [done|]. reflexivity.
Qed.

Lemma splitGo_pieces (s cur : string) (inSep : bool) :
  allChars (fun c => isLowerAlnum c || isSpace c) s ->
  allChars isLowerAlnum cur ->
  Forall (allChars isLowerAlnum) (splitGo s cur inSep).
Proof.
  revert cur inSep. induction s as [|c s IH]; intros cur inSep Hs Hcur.
  - by repeat constructor.
  - apply Forall_cons in Hs as [Hc Hs]. cbn [splitGo].
    assert (Hnil : allChars isLowerAlnum EmptyString) by constructor.
    destruct (isSpace c) eqn:Hsp.
    + destruct inSep; [by apply IH|]. constructor; [done | by apply IH].
    + apply IH; [done|]. apply allChars_snoc; [done|].
      by rewrite orb_false_r in Hc.
Qed.

(** X1.  Every token of [tokenize] has at least three code units, all of
    them lower-case ASCII letters or digits. *)
Theorem tokenize_tokens_are_normalised (text : string) :
  Forall (fun token =>
            (3 <= String.length token)%nat /\ allChars isLowerAlnum token)
         (tokenize text).
Proof.
  unfold tokenize. apply Forall_forall. intros token Hin.
  apply list_elem_of_In, filter_In in Hin as [Hin Hlen].
  apply Nat.ltb_lt in Hlen. split; [lia|].
  pose proof (splitGo_pieces (replaceNonAlnum (toLowerCase text)) EmptyString
                false (replaceNonAlnum_chars _)) as Hall.
  rewrite Forall_forall in Hall. apply Hall; [constructor|].
  by apply list_elem_of_In.
Qed.

(** X2.  The searches and the context do not depend on the letter case of
    the query, and the score does not depend on the letter case of the
    document text. *)
Theorem search_ignores_query_case (kb : KnowledgeBase) (query : string)
    (category insurerName : option string) (maxResults : option nat)
    (keywords : list string) (text : string) :
  searchArticles kb (toLowerCase query) category maxResults
  = searchArticles kb query category maxResults
  /\ searchPolicies kb (toLowerCase query) category insurerName maxResults
     = searchPolicies kb query category insurerName maxResults
  /\ searchClaimsGuides kb (toLowerCase query) category
     = searchClaimsGuides kb query category
  /\ buildContext kb (toLowerCase query) = buildContext kb query
  /\ scoreMatch keywords (toLowerCase text) (tokenize query)
     = scoreMatch keywords text (tokenize query).
Proof.
  unfold buildContext, buildContextParts, searchArticles, searchPolicies,
    searchClaimsGuides.
  rewrite !tokenize_toLowerCase, scoreMatch_toLowerCase. done.
Qed.

Lemma lexicalScore_le (keywords : list string) (text : string)
    (tokens : list string) :
  lexicalScore keywords text tokens <= 4 * Z.of_nat (length tokens).
Proof.
  unfold lexicalScore. induction tokens as [|t ts IH]; [simpl; lia|].
  cbn [map foldr length]. unfold tokenPoints at 1.
  repeat case_decide; lia.
Qed.

Lemma lexicalScore_no_keywords (text : string) (tokens : list string) :
  lexicalScore [] text tokens <= Z.of_nat (length tokens).
Proof.
  unfold lexicalScore. induction tokens as [|t ts IH]; [simpl; lia|].
  cbn [map foldr length]. unfold tokenPoints at 1.
  rewrite (decide_False (P := keywordHit [] t)).
  2:{ unfold keywordHit. inversion 1. }
  case_decide; lia.
Qed.

(** X3.  A score never exceeds 4 points per query token, and a document
    without keywords never scores more than 1 point per token. *)
Theorem scoreMatch_upper_bounds (keywords : list string) (text : string)
    (tokens : list string) :
  scoreMatch keywords text tokens <= 4 * Z.of_nat (length tokens)
  /\ scoreMatch [] text tokens <= Z.of_nat (length tokens).
Proof.
  rewrite !scoreMatch_lexicalScore.
  split; [apply lexicalScore_le | apply lexicalScore_no_keywords].
Qed.

Lemma isSubstring_empty (s : string) : isSubstring EmptyString s.
Proof. by exists EmptyString, s. Qed.

(** X4.  A document that has the empty string among its keywords earns the
    3 keyword points for every query token, whatever the token. *)
Theorem empty_keyword_matches_every_token (keywords : list string)
    (text : string) (tokens : list string) :
  EmptyString ∈ keywords ->
  3 * Z.of_nat (length tokens) <= scoreMatch keywords text tokens.
Proof.
  intros Hin. rewrite scoreMatch_lexicalScore. unfold lexicalScore.
  induction tokens as [|t ts IH]; [simpl; lia|].
  cbn [map foldr length]. unfold tokenPoints at 1.
  rewrite (decide_True (P := keywordHit keywords t)).
  2:{ unfold keywordHit. apply Exists_exists. exists EmptyString.
      split; [done|]. right. apply isSubstring_empty. }
  case_decide; lia.
Qed.

Lemma empty_keyword_witness :
  3 * Z.of_nat (length (tokenize "term plan"))
  <= scoreMatch [""%string; "health"%string] "Cover" (tokenize "term plan").
Proof.
  apply (empty_keyword_matches_every_token [""%string; "health"%string]
           "Cover" (tokenize "term plan")).
  left.
Defined.

(* ===================================================================== *)
(** ** Further properties: searches and lookups                            *)
(* ===================================================================== *)

Lemma searchArticles_candidates (kb : KnowledgeBase) (query : string)
    (category : option string) (maxResults : option nat) :
  searchArticles kb query category maxResults
  = topK (articleScore query) (default 3%nat maxResults)
      (articleCandidates kb category).
Proof. unfold searchArticles, articleCandidates. by destruct (truthyStr _). Qed.

Lemma searchPolicies_candidates (kb : KnowledgeBase) (query : string)
    (category insurerName : option string) (maxResults : option nat) :
  searchPolicies kb query category insurerName maxResults
  = topK (policyScore query) (default 5%nat maxResults)
      (policyCandidates kb category insurerName).
Proof.
  unfold searchPolicies, policyCandidates.
  by destruct (truthyStr category), (truthyStr insurerName).
Qed.

Lemma searchClaimsGuides_candidates (kb : KnowledgeBase) (query : string)
    (category : option string) :
  searchClaimsGuides kb query category
  = topK (guideScore query) 3 (guideCandidates kb category).
Proof. unfold searchClaimsGuides, guideCandidates. by destruct (truthyStr _). Qed.

Section TopKFacts.

Context {A : Type} (score : A -> Z).

Lemma topK_elem_of (n : nat) (candidates : list A) (d : A) :
  d ∈ topK score n candidates -> d ∈ candidates.
Proof.
  intros Hd.
  destruct (topK_Ranked score n candidates candidates) as (_ & _ & _ & Hsub);
    [done|].
  eapply sublist_subseteq; [apply (Hsub (score d))|].
  apply list_elem_of_In, filter_In. split; [by apply list_elem_of_In|].
  apply Z.eqb_refl.
Qed.

Lemma topK_no_positive (n : nat) (candidates : list A) :
  (forall d, d ∈ candidates -> score d <= 0) -> topK score n candidates = [].
Proof.
  intros Hz. unfold topK.
  replace (List.filter _ _) with (@nil (A * Z)); [by destruct n|].
  symmetry. induction candidates as [|d l IH]; [done|]. cbn.
  destruct (0 <? score d) eqn:E.
  - apply Z.ltb_lt in E. assert (score d <= 0) by (apply Hz; left). lia.
  - apply IH. intros e He. apply Hz. by right.
Qed.

(** The number of results: everything that scores, up to the cap. *)
Lemma topK_length (n : nat) (candidates : list A) :
  length (topK score n candidates)
  = Nat.min n (length (List.filter (fun d => 0 <? score d) candidates)).
Proof.
  unfold topK, slice0. rewrite length_map, length_take.
  rewrite (Permutation_length (Array_sort_Permutation _)).
  f_equal. induction candidates as [|d l IH]; [done|]. cbn.
  destruct (0 <? score d); cbn; by rewrite IH.
Qed.

Lemma topK_prefix (n m : nat) (candidates : list A) :
  (n <= m)%nat -> topK score n candidates `prefix_of` topK score m candidates.
Proof.
  intros Hnm. unfold topK, slice0.
  set (sorted := Array_sort _ _).
  exists (map fst (drop n (take m sorted))).
  rewrite <- map_app. f_equal.
  rewrite <- (take_drop n (take m sorted)) at 1.
  f_equal. rewrite take_take. f_equal. lia.
Qed.

End TopKFacts.

Lemma scoreMatch_no_tokens (keywords : list string) (text : string) :
  scoreMatch keywords text [] = 0.
Proof. reflexivity. Qed.

(** X5.  A query without a token of three or more letters or digits finds
    nothing: the three searches return no document and the context is the
    empty string. *)
Theorem query_without_tokens_finds_nothing (kb : KnowledgeBase)
    (query : string) (category insurerName : option string)
    (maxResults : option nat) :
  tokenize query = [] ->
  searchArticles kb query category maxResults = []
  /\ searchPolicies kb query category insurerName maxResults = []
  /\ searchClaimsGuides kb query category = []
  /\ buildContext kb query = EmptyString.
Proof.
  intros Hno.
  assert (Ha : forall c n, searchArticles kb query c n = []).
  { intros c n. rewrite searchArticles_candidates. apply topK_no_positive.
    intros a _. unfold articleScore. by rewrite Hno. }
  assert (Hp : forall c i n, searchPolicies kb query c i n = []).
  { intros c i n. rewrite searchPolicies_candidates. apply topK_no_positive.
    intros p _. unfold policyScore. by rewrite Hno. }
  assert (Hg : forall c, searchClaimsGuides kb query c = []).
  { intros c. rewrite searchClaimsGuides_candidates. apply topK_no_positive.
    intros g _. unfold guideScore. by rewrite Hno. }
  repeat split; try done.
  unfold buildContext, buildContextParts. by rewrite Ha, Hp, Hg.
Qed.

Lemma query_without_tokens_witness :
  searchArticles sampleKb "a is to?!" None None = []
  /\ searchPolicies sampleKb "a is to?!" None None None = []
  /\ searchClaimsGuides sampleKb "a is to?!" None = []
  /\ buildContext sampleKb "a is to?!" = EmptyString.
Proof.
  exact (query_without_tokens_finds_nothing sampleKb "a is to?!" None None None
           eq_refl).
Defined.

Lemma truthyStr_Some (s : option string) (c : string) :
  s = Some c -> c <> EmptyString -> truthyStr s = true.
Proof.
  intros -> Hne. cbn. apply negb_true_iff, String.eqb_neq. done.
Qed.

Lemma articleCandidates_spec (kb : KnowledgeBase) (category : option string)
    (a : Article.t) :
  a ∈ articleCandidates kb category ->
  a ∈ kb.(articles)
  /\ forall c, category = Some c -> c <> EmptyString -> a.(Article.category) = c.
Proof.
  unfold articleCandidates. intros Ha.
  destruct (truthyStr category) eqn:Ht.
  - apply list_elem_of_In, filter_In in Ha as [Ha Hc].
    apply list_elem_of_In in Ha. split; [done|]. intros c -> _.
    apply bool_decide_eq_true in Hc. congruence.
  - split; [done|]. intros c Hc Hne.
    rewrite (truthyStr_Some _ _ Hc Hne) in Ht. discriminate.
Qed.

Lemma guideCandidates_spec (kb : KnowledgeBase) (category : option string)
    (g : ClaimsGuide.t) :
  g ∈ guideCandidates kb category ->
  g ∈ kb.(claimsGuides)
  /\ forall c, category = Some c -> c <> EmptyString ->
       g.(ClaimsGuide.category) = c.
Proof.
  unfold guideCandidates. intros Hg.
  destruct (truthyStr category) eqn:Ht.
  - apply list_elem_of_In, filter_In in Hg as [Hg Hc].
    apply list_elem_of_In in Hg. split; [done|]. intros c -> _.
    apply bool_decide_eq_true in Hc. congruence.
  - split; [done|]. intros c Hc Hne.
    rewrite (truthyStr_Some _ _ Hc Hne) in Ht. discriminate.
Qed.

Lemma policyCandidates_spec (kb : KnowledgeBase)
    (category insurerName : option string) (p : Policy.t) :
  p ∈ policyCandidates kb category insurerName ->
  p ∈ kb.(policies)
  /\ (forall c, category = Some c -> c <> EmptyString ->
        p.(Policy.category) = c)
  /\ (forall i, insurerName = Some i -> i <> EmptyString ->
        isSubstring (toLowerCase i) (toLowerCase p.(Policy.insurerName))
        \/ isSubstring (toLowerCase i) (toLowerCase p.(Policy.insurerId))).
Proof.
  unfold policyCandidates. intros Hp.
  assert (Hcat : p ∈ (if truthyStr category
                     then List.filter
                            (fun p => bool_decide
                                        (Some p.(Policy.category) = category))
                            kb.(policies)
                     else kb.(policies))
                 /\ (forall i, insurerName = Some i -> i <> EmptyString ->
                       insurerMatches (toLowerCase i) p = true)).
  { destruct (truthyStr insurerName) eqn:Ht.
    - apply list_elem_of_In, filter_In in Hp as [Hp Hm].
      apply list_elem_of_In in Hp. split; [done|]. by intros i -> _.
    - split; [done|]. intros i Hi Hne.
      rewrite (truthyStr_Some _ _ Hi Hne) in Ht. discriminate. }
  destruct Hcat as [Hp' Hins]. split; [|split].
  - destruct (truthyStr category); [|done].
    apply list_elem_of_In, filter_In in Hp' as [Hp' _].
    by apply list_elem_of_In.
  - intros c Hc Hne. rewrite (truthyStr_Some _ _ Hc Hne) in Hp'.
    apply list_elem_of_In, filter_In in Hp' as [_ Hd].
    apply bool_decide_eq_true in Hd. congruence.
  - intros i Hi Hne. specialize (Hins i Hi Hne).
    unfold insurerMatches in Hins. apply orb_true_iff in Hins.
    by rewrite <- !includes_spec.
Qed.

(** X6.  Every document a search returns belongs to the collection and
    passes the filters given: it has the category asked for, and for
    policies the lower-cased insurer name or insurer id contains the
    lower-cased insurer filter.  (An absent or empty filter asks for
    nothing.) *)
Theorem search_results_pass_filters (kb : KnowledgeBase) (query : string)
    (category insurerName : option string) (maxResults : option nat) :
  Forall (fun a =>
            a ∈ kb.(articles)
            /\ forall c, category = Some c -> c <> EmptyString ->
                 a.(Article.category) = c)
         (searchArticles kb query category maxResults)
  /\ Forall (fun p =>
               p ∈ kb.(policies)
               /\ (forall c, category = Some c -> c <> EmptyString ->
                     p.(Policy.category) = c)
               /\ (forall i, insurerName = Some i -> i <> EmptyString ->
                     isSubstring (toLowerCase i)
                       (toLowerCase p.(Policy.insurerName))
                     \/ isSubstring (toLowerCase i)
                          (toLowerCase p.(Policy.insurerId))))
            (searchPolicies kb query category insurerName maxResults)
  /\ Forall (fun g =>
               g ∈ kb.(claimsGuides)
               /\ forall c, category = Some c -> c <> EmptyString ->
                    g.(ClaimsGuide.category) = c)
            (searchClaimsGuides kb query category).
Proof.
  rewrite searchArticles_candidates, searchPolicies_candidates,
    searchClaimsGuides_candidates.
  repeat split; apply Forall_forall; intros d Hd; apply topK_elem_of in Hd.
  - by apply articleCandidates_spec.
  - by apply policyCandidates_spec.
  - by apply guideCandidates_spec.
Qed.

(** X7.  Asking for fewer results gives the beginning of what asking for
    more results gives. *)
Theorem smaller_cap_gives_prefix (kb : KnowledgeBase) (query : string)
    (category insurerName : option string) (n m : nat) :
  (n <= m)%nat ->
  searchArticles kb query category (Some n)
    `prefix_of` searchArticles kb query category (Some m)
  /\ searchPolicies kb query category insurerName (Some n)
       `prefix_of` searchPolicies kb query category insurerName (Some m).
Proof.
  intros Hnm. rewrite !searchArticles_candidates, !searchPolicies_candidates.
  split; by apply topK_prefix.
Qed.

Lemma smaller_cap_witness :
  searchArticles sampleKb "health" None (Some 1%nat)
    `prefix_of` searchArticles sampleKb "health" None (Some 2%nat)
  /\ searchPolicies sampleKb "health" None None (Some 1%nat)
       `prefix_of` searchPolicies sampleKb "health" None None (Some 2%nat).
Proof.
  apply (smaller_cap_gives_prefix sampleKb "health" None None 1 2). lia.
Defined.

(** X8.  A search returns every candidate that scores above zero as long as
    the cap allows: the number of results is the smaller of the cap and the
    number of filtered documents with a positive score. *)
Theorem search_result_count (kb : KnowledgeBase) (query : string)
    (category insurerName : option string) (maxResults : option nat) :
  length (searchArticles kb query category maxResults)
  = Nat.min (default 3%nat maxResults)
      (length (List.filter (fun a => 0 <? articleScore query a)
                 (articleCandidates kb category)))
  /\ length (searchPolicies kb query category insurerName maxResults)
     = Nat.min (default 5%nat maxResults)
         (length (List.filter (fun p => 0 <? policyScore query p)
                    (policyCandidates kb category insurerName)))
  /\ length (searchClaimsGuides kb query category)
     = Nat.min 3
         (length (List.filter (fun g => 0 <? guideScore query g)
                    (guideCandidates kb category))).
Proof.
  rewrite searchArticles_candidates, searchPolicies_candidates,
    searchClaimsGuides_candidates.
  by rewrite !topK_length.
Qed.

Lemma includes_empty (s : string) : includes s EmptyString = true.
Proof. apply includes_spec, isSubstring_empty. Qed.

Lemma includes_refl (s : string) : includes s s = true.
Proof.
  apply includes_spec. exists EmptyString, EmptyString.
  induction s as [|c s IH]; [done|].
  change (String c s = String c (EmptyString ++ s ++ EmptyString)%string).
  by rewrite <- IH.
Qed.

Lemma comparePolicies_cons (kb : KnowledgeBase) (id : string)
    (ids : list string) :
  comparePolicies kb (id :: ids)
  = match List.find
            (fun p => String.eqb p.(Policy.id) id
                      || includes (toLowerCase p.(Policy.name)) (toLowerCase id))
            kb.(policies) with
    | Some p => p :: comparePolicies kb ids
    | None => comparePolicies kb ids
    end.
Proof. unfold comparePolicies. cbn. by destruct (List.find _ _). Qed.

(** X9.  [comparePolicies] resolves the identifiers one by one and in
    order: at most one policy per identifier, each from the corpus and
    matching an identifier by id or by name (as a case-insensitive
    substring); identifiers that match nothing are dropped without notice,
    and the empty identifier resolves to the first policy of the corpus. *)
Theorem comparePolicies_resolves_in_order (kb : KnowledgeBase)
    (ids more : list string) :
  (length (comparePolicies kb ids) <= length ids)%nat
  /\ Forall (fun p => p ∈ kb.(policies) /\ exists id, id ∈ ids /\ identifies id p)
       (comparePolicies kb ids)
  /\ comparePolicies kb (ids ++ more)
     = comparePolicies kb ids ++ comparePolicies kb more
  /\ comparePolicies kb [EmptyString] = take 1 kb.(policies).
Proof.
  split; [|split; [|split]].
  - induction ids as [|id ids IH]; [done|].
    rewrite comparePolicies_cons. destruct (List.find _ _); cbn; lia.
  - induction ids as [|id ids IH]; [constructor|].
    rewrite comparePolicies_cons.
    assert (Htl : Forall (fun p => p ∈ kb.(policies)
                            /\ exists i, i ∈ id :: ids /\ identifies i p)
                    (comparePolicies kb ids)).
    { eapply Forall_impl; [exact IH|]. intros p (Hp & i & Hi & Hid).
      split; [done|]. exists i. split; [by right | done]. }
    destruct (List.find _ _) as [p|] eqn:Hf; [|done].
    constructor; [|done]. apply find_some in Hf as [Hin Hm].
    split; [by apply list_elem_of_In|]. exists id. split; [left|].
    apply orb_true_iff in Hm as [Hm|Hm].
    + left. by apply String.eqb_eq.
    + right. by apply includes_spec.
  - unfold comparePolicies. by rewrite omap_app.
  - rewrite comparePolicies_cons. destruct kb.(policies) as [|p ps]; [done|].
    cbn [List.find toLowerCase]. by rewrite includes_empty, orb_true_r.
Qed.

(** X10.  [getPolicyById] finds a policy exactly when the corpus holds one
    with that id; the policy it returns is in the corpus and has the id. *)
Theorem getPolicyById_finds_by_id (kb : KnowledgeBase) (policyId : string) :
  (is_Some (getPolicyById kb policyId)
   <-> exists p, p ∈ kb.(policies) /\ p.(Policy.id) = policyId)
  /\ forall p, getPolicyById kb policyId = Some p ->
       p ∈ kb.(policies) /\ p.(Policy.id) = policyId.
Proof.
  unfold getPolicyById.
  assert (Hsome : forall p,
            List.find (fun p => String.eqb p.(Policy.id) policyId)
              kb.(policies) = Some p ->
            p ∈ kb.(policies) /\ p.(Policy.id) = policyId).
  { intros p Hf. apply find_some in Hf as [Hin He].
    split; [by apply list_elem_of_In | by apply String.eqb_eq]. }
  split; [|done]. split.
  - intros [p Hp]. exists p. by apply Hsome.
  - intros (p & Hin & Hid).
    destruct (List.find _ _) as [q|] eqn:Hf; [done|].
    apply list_elem_of_In in Hin.
    pose proof (find_none _ _ Hf p Hin) as Hn. cbn in Hn.
    apply String.eqb_neq in Hn. done.
Qed.

(** X11.  [getInsurer] returns the first insurer whose name, short name or
    id contains the given text, letter case aside, and nothing when there is
    none; the empty text finds the first insurer of the corpus. *)
Theorem getInsurer_first_match (kb : KnowledgeBase) (name : string) :
  match getInsurer kb name with
  | Some i =>
      exists before after,
        kb.(insurers) = before ++ i :: after
        /\ insurerNamed (toLowerCase name) i = true
        /\ Forall (fun j => insurerNamed (toLowerCase name) j = false) before
  | None =>
      Forall (fun j => insurerNamed (toLowerCase name) j = false) kb.(insurers)
  end
  /\ getInsurer kb (toLowerCase name) = getInsurer kb name
  /\ getInsurer kb EmptyString = head kb.(insurers).
Proof.
  unfold getInsurer. fold (insurerNamed (toLowerCase name)).
  split; [|split].
  - induction kb.(insurers) as [|i l IH]; [constructor|].
    cbn [List.find]. destruct (insurerNamed (toLowerCase name) i) eqn:Hi.
    + exists [], l. by repeat split.
    + destruct (List.find _ l) as [j|].
      * destruct IH as (before & after & -> & Hj & Hb).
        exists (i :: before), after. repeat split; [done|]. by constructor.
      * by constructor.
  - by rewrite toLowerCase_idem.
  - destruct kb.(insurers) as [|i l]; [done|].
    cbn [List.find toLowerCase head]. by rewrite includes_empty.
Qed.

(** X12.  [getPoliciesByInsurer] keeps the policies of the corpus, in
    order, whose insurer name or id contains the given text, letter case
    aside: a policy whose insurer name is the text is always among them, and
    the empty text keeps every policy. *)
Theorem getPoliciesByInsurer_matches (kb : KnowledgeBase) (insurerName : string) :
  getPoliciesByInsurer kb insurerName `sublist_of` kb.(policies)
  /\ (forall p, p ∈ kb.(policies) ->
        (p ∈ getPoliciesByInsurer kb insurerName
         <-> isSubstring (toLowerCase insurerName)
               (toLowerCase p.(Policy.insurerName))
             \/ isSubstring (toLowerCase insurerName)
                  (toLowerCase p.(Policy.insurerId))))
  /\ (forall p, p ∈ kb.(policies) -> p.(Policy.insurerName) = insurerName ->
        p ∈ getPoliciesByInsurer kb insurerName)
  /\ getPoliciesByInsurer kb (toLowerCase insurerName)
     = getPoliciesByInsurer kb insurerName
  /\ getPoliciesByInsurer kb EmptyString = kb.(policies).
Proof.
  unfold getPoliciesByInsurer.
  assert (Hiff : forall p, p ∈ kb.(policies) ->
            (p ∈ List.filter
                   (fun p =>
                      includes (toLowerCase p.(Policy.insurerName))
                        (toLowerCase insurerName)
                      || includes (toLowerCase p.(Policy.insurerId))
                           (toLowerCase insurerName)) kb.(policies)
             <-> isSubstring (toLowerCase insurerName)
                   (toLowerCase p.(Policy.insurerName))
                 \/ isSubstring (toLowerCase insurerName)
                      (toLowerCase p.(Policy.insurerId)))).
  { intros p Hp. rewrite list_elem_of_In, filter_In, orb_true_iff,
      !includes_spec, <- list_elem_of_In. tauto. }
  split; [apply filterb_sublist|]. split; [exact Hiff|]. split; [|split].
  - intros p Hp <-. apply Hiff; [done|]. left.
    apply includes_spec, includes_refl.
  - by rewrite toLowerCase_idem.
  - clear Hiff. induction kb.(policies) as [|p l IH]; [done|].
    cbn [List.filter toLowerCase]. rewrite includes_empty. cbn [orb].
    f_equal. exact IH.
Qed.

(* ===================================================================== *)
(** ** Further properties: calculators                                     *)
(* ===================================================================== *)

Local Open Scope Q_scope.

Lemma Qleb_le (x y : Q) : Qleb x y = true <-> x <= y.
Proof. apply Qle_bool_iff. Qed.

Lemma Qleb_gt (x y : Q) : Qleb x y = false <-> y < x.
Proof.
  unfold Qleb. rewrite <- not_true_iff_false, Qle_bool_iff. split.
  - apply Qnot_le_lt.
  - apply Qlt_not_le.
Qed.


Lemma Qltb_ge (x y : Q) : Qltb x y = false <-> y <= x.
Proof. unfold Qltb. rewrite negb_false_iff. apply Qleb_le. Qed.

Lemma riskOf_cases (maxAge : option Q) :
  riskOf maxAge = 0.5 \/ riskOf maxAge = 0.8 \/ riskOf maxAge = 1.2
  \/ riskOf maxAge = 1.8 \/ riskOf maxAge = 2.5.
Proof.
  unfold riskOf, getAgeGroup. destruct maxAge as [a|]; [|by left].
  repeat (destruct (Qleb a _); [by vm_compute; tauto|]).
  vm_compute. tauto.
Qed.

Lemma riskOf_pos (maxAge : option Q) : 0 < riskOf maxAge.
Proof.
  destruct (riskOf_cases maxAge) as [->|[->|[->|[->| ->]]]]; reflexivity.
Qed.

Lemma CITY_MULTIPLIERS_plain (s : string) :
  listed s = false -> CITY_MULTIPLIERS !! s = None.
Proof.
  intros plain. unfold CITY_MULTIPLIERS. apply not_elem_of_list_to_map_1.
  intros Hin. apply not_true_iff_false in plain. apply plain.
  unfold listed. apply existsb_exists. exists s.
  split; [|apply String.eqb_refl]. apply in_or_app. left.
  by apply list_elem_of_In.
Qed.

Lemma cityFactor_pos (t : CityTier) : 0 < cityFactor t.
Proof.
  destruct t as [| | |s plain]; try reflexivity.
  unfold cityFactor. cbn [tierName]. by rewrite CITY_MULTIPLIERS_plain.
Qed.

Lemma familyFactor_pos (n : nat) :
  0 < 1 + (inject_Z (Z.of_nat n) - 1) * 0.15.
Proof.
  assert (0 <= inject_Z (Z.of_nat n)).
  { rewrite <- (Zle_Qle 0). lia. }
  lra.
Qed.

Lemma healthNeed_pos (input : HealthCalcInput) : 0 < healthNeed input.
Proof.
  unfold healthNeed. cbv zeta.
  destruct input.(has_preexisting);
    repeat apply Qmult_lt_0_compat;
    try apply cityFactor_pos; try apply riskOf_pos; try apply familyFactor_pos;
    reflexivity.
Qed.

Section HealthFacts.

Context `{NumberFormat}.

Lemma health_recommended (input : HealthCalcInput) :
  (calculateHealthCoverage input).(HealthCalcResult.recommended_cover_lakhs)
  = Math_ceil (healthNeed input / 500000) * 5.
Proof.
  unfold calculateHealthCoverage, healthNeed, riskOf, cityFactor.
  cbn [HealthCalcResult.recommended_cover_lakhs].
  by destruct input.(has_preexisting).
Qed.

End HealthFacts.

Lemma Math_ceil_pos (x : Q) : 0 < x -> (1 <= Qceiling x)%Z.
Proof.
  intros Hx. assert (0 < inject_Z (Qceiling x)) as Hc.
  { eapply Qlt_le_trans; [exact Hx | apply Qle_ceiling]. }
  rewrite <- (Zlt_Qlt 0) in Hc. lia.
Qed.

Lemma Math_ceil_le (x y : Q) : x <= y -> Math_ceil x <= Math_ceil y.
Proof.
  intros Hxy. unfold Math_ceil. rewrite <- Zle_Qle. by apply Qceiling_resp_le.
Qed.

Lemma Math_round_le (x y : Q) : x <= y -> Math_round x <= Math_round y.
Proof.
  intros Hxy. unfold Math_round. rewrite <- Zle_Qle.
  apply Qfloor_resp_le. lra.
Qed.

Lemma Math_round_zero (x : Q) : x == 0 -> Math_round x == 0.
Proof. intros Hx. unfold Math_round. by rewrite Hx. Qed.

Section HealthTheorems.

Context `{NumberFormat}.

Abbreviation cover input :=
  (calculateHealthCoverage input).(HealthCalcResult.recommended_cover_lakhs).
Abbreviation gapOf input :=
  (calculateHealthCoverage input).(HealthCalcResult.coverage_gap_lakhs).
Abbreviation baseOf input :=
  (calculateHealthCoverage input).(HealthCalcResult.base_plan_lakhs).
Abbreviation topupOf input :=
  (calculateHealthCoverage input).(HealthCalcResult.super_topup_lakhs).
Abbreviation premiumOf input :=
  (calculateHealthCoverage input).(HealthCalcResult.estimated_premium_range).

(** The numeric fields of the result, from the recommended cover on. *)
Lemma health_fields (input : HealthCalcInput) :
  let g := Qmax 0 (cover input - numOr input.(corporate_cover) 0) in
  let b := if Qltb 25 g then 15 else Qmin g 25 in
  gapOf input = g
  /\ baseOf input = b
  /\ topupOf input = (if Qltb 25 g then g - b else Qmax 0 (g - Qmin g 25))
  /\ (premiumOf input).(min)
     = Math_round (b * 800 * riskOf (Math_max_spread input.(family_members)))
  /\ (premiumOf input).(max)
     = Math_round
         (b * 800 * riskOf (Math_max_spread input.(family_members)) * 1.5).
Proof. cbv zeta. repeat split; reflexivity. Qed.

Lemma health_cover_pos (input : HealthCalcInput) : 0 < cover input.
Proof.
  rewrite health_recommended. unfold Math_ceil.
  assert (1 <= Qceiling (healthNeed input / 500000))%Z as Hk.
  { apply Math_ceil_pos. apply Qlt_shift_div_l; [reflexivity|].
    rewrite Qmult_0_l. apply healthNeed_pos. }
  rewrite Zle_Qle in Hk.
  set (c := inject_Z (Qceiling _)) in *. change (inject_Z 1) with 1 in Hk. lra.
Qed.

(** X13.  For every input the recommended health cover is a positive
    multiple of 5 lakhs. *)
Theorem health_cover_positive_multiple_of_five (input : HealthCalcInput) :
  exists k : Z, (1 <= k)%Z /\ cover input == inject_Z (5 * k).
Proof.
  rewrite health_recommended. exists (Qceiling (healthNeed input / 500000)).
  split.
  - apply Math_ceil_pos. apply Qlt_shift_div_l; [reflexivity|].
    rewrite Qmult_0_l. apply healthNeed_pos.
  - unfold Math_ceil. rewrite inject_Z_mult. ring.
Qed.


(** X15.  When the corporate cover is at least the recommended cover,
    nothing is left to buy: gap, base plan, top-up and both ends of the
    premium estimate are zero. *)
Theorem health_corporate_cover_suffices (input : HealthCalcInput) :
  cover input <= input.(corporate_cover) ->
  gapOf input == 0 /\ baseOf input == 0 /\ topupOf input == 0
  /\ (premiumOf input).(min) == 0 /\ (premiumOf input).(max) == 0.
Proof.
  intros Hcov.
  pose proof (health_cover_pos input) as Hpos.
  destruct (health_fields input) as (-> & -> & -> & -> & ->). cbv zeta.
  assert (Hcorp : numOr input.(corporate_cover) 0 == input.(corporate_cover)).
  { unfold numOr. destruct (Qeq_bool _ 0) eqn:E; [|reflexivity].
    apply Qeq_bool_eq in E. lra. }
  set (g := Qmax 0 _).
  assert (Hg : g == 0).
  { apply Q.max_l. lra. }
  assert (Hlt : Qltb 25 g = false) by (apply Qltb_ge; lra).
  rewrite Hlt.
  assert (Hmin : Qmin g 25 == 0).
  { assert (Hm : Qmin g 25 == g) by (apply Q.min_l; lra). lra. }
  repeat split; try done.
  - apply Q.max_l. lra.
  - apply Math_round_zero. rewrite Hmin. ring.
  - apply Math_round_zero. rewrite Hmin. ring.
Qed.

(** X16.  A pre-existing condition never lowers the recommended cover. *)
Theorem health_preexisting_never_lowers_cover (input : HealthCalcInput) :
  cover (withPreexisting false input) <= cover (withPreexisting true input).
Proof.
  rewrite !health_recommended. apply Qmult_le_compat_r; [|done].
  apply Math_ceil_le. apply Qmult_le_compat_r; [|done].
  unfold healthNeed, withPreexisting. cbn.
  set (b := BASE_HOSPITAL_COST * _ * _).
  assert (0 < b).
  { unfold b. repeat apply Qmult_lt_0_compat;
      [reflexivity | apply cityFactor_pos | apply riskOf_pos]. }
  set (f := 1 + _ * 0.15).
  assert (0 < f) by apply familyFactor_pos.
  assert (0 <= Math_pow (1 + MEDICAL_INFLATION) 10) by done.
  apply Qmult_le_compat_r; [|lra].
  apply Qmult_le_compat_r; [lra | done].
Qed.

(** The base plan is never negative, and the risk factor is positive. *)
Lemma health_base_nonneg (input : HealthCalcInput) :
  0 <= (if Qltb 25 (Qmax 0 (cover input - numOr input.(corporate_cover) 0))
        then 15
        else Qmin (Qmax 0 (cover input - numOr input.(corporate_cover) 0)) 25)
  /\ 0 < riskOf (Math_max_spread input.(family_members)).
Proof.
  split; [|apply riskOf_pos].
  set (g := Qmax 0 _). assert (Hg : 0 <= g) by apply Q.le_max_l.
  destruct (Qltb 25 g); [done|]. by apply Q.min_glb.
Qed.

End HealthTheorems.

Lemma health_corporate_cover_witness :
  let input :=
    {| city_tier := metro; family_members := [30]; has_preexisting := false;
       corporate_cover := 100; monthly_income := 0 |} in
  (@calculateHealthCoverage sampleFormat input).(HealthCalcResult.coverage_gap_lakhs)
  == 0
  /\ (@calculateHealthCoverage sampleFormat input).(HealthCalcResult.base_plan_lakhs)
     == 0.
Proof.
  cbv zeta.
  destruct (@health_corporate_cover_suffices sampleFormat
              {| city_tier := metro; family_members := [30];
                 has_preexisting := false; corporate_cover := 100;
                 monthly_income := 0 |}) as (Hg & Hb & _).
  - vm_compute. discriminate.
  - split; [exact Hg | exact Hb].
Defined.

Lemma Math_round_nonneg (x : Q) : 0 <= x -> 0 <= Math_round x.
Proof.
  intros Hx. change 0 with (Math_round 0). by apply Math_round_le.
Qed.

Lemma Math_max_spread_snoc (l : list Q) (x : Q) :
  Math_max_spread (l ++ [x])
  = match Math_max_spread l with
    | None => Some x
    | Some m => Some (Qmax m x)
    end.
Proof. unfold Math_max_spread. by rewrite fold_left_app. Qed.

Lemma riskOf_mono (a b : Q) : a <= b -> riskOf (Some a) <= riskOf (Some b).
Proof.
  intros Hab. unfold riskOf, getAgeGroup.
  repeat match goal with
         | |- context [Qleb ?x ?y] =>
             let E := fresh "E" in
             destruct (Qleb x y) eqn:E;
             [apply Qleb_le in E | apply Qleb_gt in E]
         end;
    first [ exfalso; lra | vm_compute; discriminate ].
Qed.

Lemma riskOf_least (maxAge : option Q) : riskOf None <= riskOf maxAge.
Proof.
  destruct (riskOf_cases maxAge) as [->|[->|[->|[->| ->]]]];
    vm_compute; discriminate.
Qed.

Lemma healthNeed_family (input : HealthCalcInput) (members : list Q) :
  riskOf (Math_max_spread input.(family_members))
  <= riskOf (Math_max_spread members) ->
  (length input.(family_members) <= length members)%nat ->
  healthNeed input <= healthNeed (withFamily members input).
Proof.
  intros Hrisk Hlen. unfold healthNeed, withFamily.
  cbn [city_tier family_members has_preexisting]. cbv zeta.
  pose proof (riskOf_pos (Math_max_spread input.(family_members))) as Hr.
  pose proof (cityFactor_pos input.(city_tier)) as Hc.
  pose proof (familyFactor_pos (length input.(family_members))) as Hf.
  assert (Hn : inject_Z (Z.of_nat (length input.(family_members)))
               <= inject_Z (Z.of_nat (length members))).
  { rewrite <- Zle_Qle. lia. }
  set (r1 := riskOf (Math_max_spread input.(family_members))) in *.
  set (r2 := riskOf (Math_max_spread members)) in *.
  set (n1 := inject_Z (Z.of_nat (length input.(family_members)))) in *.
  set (n2 := inject_Z (Z.of_nat (length members))) in *.
  set (c := cityFactor _) in *.
  assert (Hp : 0 < Math_pow (1 + MEDICAL_INFLATION) 10) by reflexivity.
  set (p := Math_pow _ _) in *.
  assert (Hb : 0 < BASE_HOSPITAL_COST) by reflexivity.
  set (B := BASE_HOSPITAL_COST) in *.
  assert (H1 : B * c * r1 <= B * c * r2).
  { apply Qmult_le_l; [|exact Hrisk]. by apply Qmult_lt_0_compat. }
  assert (H0 : 0 < B * c * r1) by (by repeat apply Qmult_lt_0_compat).
  set (x1 := B * c * r1) in *. set (x2 := B * c * r2) in *.
  set (f1 := 1 + (n1 - 1) * 0.15) in *.
  assert (Hf2 : f1 <= 1 + (n2 - 1) * 0.15) by (unfold f1; lra).
  set (f2 := 1 + (n2 - 1) * 0.15) in *.
  assert (Hstep : forall y1 y2, 0 < y1 -> y1 <= y2 -> y1 * p * f1 <= y2 * p * f2).
  { intros y1 y2 Hy Hy12. apply Qle_trans with (y2 * p * f1).
    - apply Qmult_le_compat_r; [|lra]. apply Qmult_le_compat_r; lra.
    - apply Qmult_le_l; [|exact Hf2]. apply Qmult_lt_0_compat; lra. }
  destruct input.(has_preexisting); apply Hstep; lra.
Qed.

(** X18.  Adding a family member never lowers the recommended health
    cover. *)
Theorem health_extra_member_never_lowers_cover `{NumberFormat}
    (input : HealthCalcInput) (age : Q) :
  (calculateHealthCoverage input).(HealthCalcResult.recommended_cover_lakhs)
  <= (calculateHealthCoverage
        (withFamily (input.(family_members) ++ [age]) input)).(HealthCalcResult.recommended_cover_lakhs).
Proof.
  rewrite !health_recommended. apply Qmult_le_compat_r; [|done].
  apply Math_ceil_le. apply Qmult_le_compat_r; [|done].
  apply healthNeed_family.
  - rewrite Math_max_spread_snoc.
    destruct (Math_max_spread input.(family_members)) as [m|].
    + apply riskOf_mono, Q.le_max_l.
    + apply riskOf_least.
  - rewrite length_app. cbn [length]. lia.
Qed.

(** *** The term calculator *)

Lemma term_fields `{NumberFormat} (input : TermCalcInput) :
  let r := calculateTermCoverage input in
  r.(TermCalcResult.income_replacement)
  = JsNum.mul input.(annual_income)
      (JsNum.min (Num 15)
         (JsNum.max (Num 10)
            (JsNum.mul
               (JsNum.max (Num 1)
                  (JsNum.sub input.(retirement_age) input.(current_age)))
               (Num 0.5))))
  /\ r.(TermCalcResult.total_need)
     = JsNum.add
         (JsNum.add r.(TermCalcResult.income_replacement) input.(total_debts))
         (JsNum.mul input.(num_children) input.(education_goal_per_child))
  /\ r.(TermCalcResult.gap)
     = JsNum.max (Num 0)
         (JsNum.sub r.(TermCalcResult.total_need)
            (JsNum.orElse input.(existing_life_cover) (Num 0)))
  /\ r.(TermCalcResult.recommended_cover_cr)
     = JsNum.mul (JsNum.ceil (JsNum.div r.(TermCalcResult.gap) (Num 2500000)))
         (Num 0.25)
  /\ r.(TermCalcResult.estimated_premium_range).(TermCalcResult.min)
     = JsNum.round
         (JsNum.mul
            (JsNum.mul
               (JsNum.mul r.(TermCalcResult.recommended_cover_cr) (Num 100))
               (Num 500))
            (termAgeFactor input.(current_age)))
  /\ r.(TermCalcResult.estimated_premium_range).(TermCalcResult.max)
     = JsNum.round
         (JsNum.mul
            (JsNum.mul
               (JsNum.mul r.(TermCalcResult.recommended_cover_cr) (Num 100))
               (Num 750))
            (termAgeFactor input.(current_age))).
Proof. cbv zeta. repeat split; reflexivity. Qed.

Lemma Math_ceil_bounds (x : Q) : x <= Math_ceil x /\ Math_ceil x < x + 1.
Proof.
  unfold Math_ceil. split; [apply Qle_ceiling|].
  pose proof (Qceiling_lt x) as Hlt. unfold Z.sub in Hlt.
  rewrite inject_Z_plus in Hlt. cbn [Z.opp Pos.succ] in Hlt.
  set (c := inject_Z (Qceiling x)) in *.
  assert (Hone : inject_Z (-1) == -1) by reflexivity.
  rewrite Hone in Hlt. lra.
Qed.

Lemma ofQ_cases (q : Q) :
  (JsNum.ofQ q = Num q /\ - overflowAt < q /\ q < overflowAt)
  \/ (JsNum.ofQ q = PosInfinity /\ overflowAt <= q)
  \/ (JsNum.ofQ q = NegInfinity /\ q <= - overflowAt).
Proof.
  unfold JsNum.ofQ.
  destruct (Qle_bool overflowAt q) eqn:E1.
  { right. left. split; [done|]. by apply Qle_bool_iff. }
  destruct (Qle_bool q (- overflowAt)) eqn:E2.
  { right. right. split; [done|]. by apply Qle_bool_iff. }
  left. split; [done|].
  apply not_true_iff_false in E1, E2. rewrite Qle_bool_iff in E1, E2.
  split; by apply Qnot_le_lt.
Qed.

(** A finite sum is within the range of the finite numbers. *)
Lemma add_Num_range (x y : JsNumber) (q : Q) :
  JsNum.add x y = Num q -> - overflowAt < q /\ q < overflowAt.
Proof.
  destruct x as [a| | |], y as [b| | |]; cbn; try done.
  intros Hq. apply ofQ_inv in Hq as (-> & Hq). exact Hq.
Qed.

Lemma mul_Num_nonneg (a b : Q) :
  0 <= a -> 0 <= b -> a * b < overflowAt ->
  JsNum.mul (Num a) (Num b) = Num (a * b).
Proof.
  intros Ha Hb Hab. cbn [JsNum.mul]. pose proof overflowAt_big.
  apply ofQ_Num; [|done].
  assert (0 <= a * b) by (by apply Qmult_le_0_compat). lra.
Qed.

Lemma termAgeFactor_cases (age : JsNumber) :
  termAgeFactor age = Num 1.0 \/ termAgeFactor age = Num 1.5
  \/ termAgeFactor age = Num 2.2.
Proof.
  unfold termAgeFactor. destruct (JsNum.leb age (Num 30)); [by left|].
  destruct (JsNum.leb age (Num 40)); [right; by left | right; by right].
Qed.

(** The gap of the term calculator, when it is finite. *)
Lemma term_gap_range `{NumberFormat} (input : TermCalcInput) (g : Q) :
  (calculateTermCoverage input).(TermCalcResult.gap) = Num g ->
  0 <= g /\ g < overflowAt.
Proof.
  destruct (term_fields input) as (_ & _ & -> & _). cbv zeta.
  intros Hg. split; [by eapply max_zero_Num|].
  pose proof overflowAt_big.
  destruct (JsNum.sub _ _) as [q| | |] eqn:Hsub; cbn in Hg; try done.
  - apply add_Num_range in Hsub as [_ Hq].
    destruct (Qle_bool 0 q); injection Hg as <-; [done | lra].
  - injection Hg as <-. lra.
Qed.

(** The premium estimate for a finite cover [c], at [p] rupees per lakh. *)
Lemma premium_of_finite_cover (c p f : Q) :
  0 <= c -> c * 165000 < overflowAt -> p = 500 \/ p = 750 ->
  f = 1.0 \/ f = 1.5 \/ f = 2.2 ->
  JsNum.round
    (JsNum.mul (JsNum.mul (JsNum.mul (Num c) (Num 100)) (Num p)) (Num f))
  = Num (Math_round (c * 100 * p * f)).
Proof.
  intros Hc Hrange Hp Hf.
  rewrite (mul_Num_nonneg c 100) by lra.
  destruct Hp as [-> | ->], Hf as [->|[->| ->]];
    rewrite mul_Num_nonneg by lra; rewrite mul_Num_nonneg by lra;
    reflexivity.
Qed.

(** The cover and the premium estimate for a finite gap. *)
Lemma term_finite_gap `{NumberFormat} (input : TermCalcInput) (g : Q) :
  (calculateTermCoverage input).(TermCalcResult.gap) = Num g ->
  let c := Math_ceil (g / 2500000) * 0.25 in
  0 <= g /\ g < overflowAt /\ 0 <= c
  /\ (calculateTermCoverage input).(TermCalcResult.recommended_cover_cr) = Num c
  /\ exists f,
       0 < f
       /\ (calculateTermCoverage input).(TermCalcResult.estimated_premium_range).(TermCalcResult.min)
          = Num (Math_round (c * 100 * 500 * f))
       /\ (calculateTermCoverage input).(TermCalcResult.estimated_premium_range).(TermCalcResult.max)
          = Num (Math_round (c * 100 * 750 * f)).
Proof.
  intros Hg. cbv zeta. destruct (term_gap_range input g Hg) as [H0 Hhi].
  split; [done|]. split; [done|].
  destruct (term_fields input) as (_ & _ & _ & Hc & Hmin & Hmax).
  cbv zeta in Hc, Hmin, Hmax.
  rewrite Hg, cover_of_finite_gap in Hc by done.
  fold (Math_ceil (g / 2500000)) in Hc.
  rewrite Hmin, Hmax, Hc. clear Hmin Hmax Hc Hg.
  pose proof overflowAt_big as Hbig.
  destruct (Math_ceil_bounds (g / 2500000)) as [Hlo Hup].
  assert (Hq : 0 <= g / 2500000) by (apply Qle_shift_div_l; lra).
  assert (Hq' : g / 2500000 < overflowAt) by (apply Qlt_shift_div_r; lra).
  assert (Hqg : g / 2500000 * 2500000 == g) by (field_simplify; reflexivity).
  generalize dependent (Math_ceil (g / 2500000)). intros k Hlo Hup.
  assert (Hk : 0 <= k * 0.25) by lra.
  assert (Hk' : k * 0.25 * 165000 < overflowAt) by lra.
  split; [done|]. split; [done|].
  assert (Hf : exists f, termAgeFactor input.(current_age) = Num f
                         /\ (f = 1.0 \/ f = 1.5 \/ f = 2.2)).
  { destruct (termAgeFactor_cases input.(current_age)) as [->|[->| ->]];
      eexists; eauto. }
  destruct Hf as (f & -> & Hf). exists f.
  split; [by destruct Hf as [->|[->| ->]]|].
  split; apply premium_of_finite_cover; auto.
Qed.

(** X17.  The health calculator gives a premium estimate whose lower end is
    not negative and not above its upper end, and so does the term
    calculator unless its gap is NaN. *)
Theorem premium_range_is_ordered `{NumberFormat} (health : HealthCalcInput)
    (term : TermCalcInput) :
  (0 <= (calculateHealthCoverage health).(HealthCalcResult.estimated_premium_range).(min)
   /\ (calculateHealthCoverage health).(HealthCalcResult.estimated_premium_range).(min)
      <= (calculateHealthCoverage health).(HealthCalcResult.estimated_premium_range).(max))
  /\ ((calculateTermCoverage term).(TermCalcResult.gap) <> NaN ->
      JsNum.leb (Num 0)
        (calculateTermCoverage term).(TermCalcResult.estimated_premium_range).(TermCalcResult.min)
      = true
      /\ JsNum.leb
           (calculateTermCoverage term).(TermCalcResult.estimated_premium_range).(TermCalcResult.min)
           (calculateTermCoverage term).(TermCalcResult.estimated_premium_range).(TermCalcResult.max)
         = true).
Proof.
  split.
  - destruct (health_base_nonneg health) as (Hb & Hr).
    destruct (health_fields health) as (_ & _ & _ & -> & ->). cbv zeta.
    split; [apply Math_round_nonneg | apply Math_round_le]; nra.
  - intros Hnan.
    destruct ((calculateTermCoverage term).(TermCalcResult.gap))
      as [g| | |] eqn:Hg; [| | |done].
    + destruct (term_finite_gap term g Hg) as (_ & _ & Hc & _ & f & Hf & -> & ->).
      cbv zeta in Hc. cbn [JsNum.leb]. rewrite !Qle_bool_iff.
      set (c := Math_ceil (g / 2500000) * 0.25) in *.
      split; [apply Math_round_nonneg | apply Math_round_le]; nra.
    + destruct (term_fields term) as (_ & _ & Hgap & Hc & -> & ->).
      cbv zeta in Hc, Hgap. rewrite Hg in Hc. rewrite Hc.
      by destruct (termAgeFactor_cases term.(current_age)) as [->|[->| ->]].
    + exfalso. destruct (term_fields term) as (_ & _ & Hgap & _).
      cbv zeta in Hgap. rewrite Hg in Hgap.
      destruct (JsNum.sub _ _) as [q| | |]; cbn in Hgap; try done.
      by destruct (Qle_bool 0 q).
Qed.



(** The multiple for a difference of the ages that is [d], or the infinity
    that [d] overflows to. *)
Lemma multiplier_of_years (d : Q) (years : JsNumber) :
  (years = Num d /\ - overflowAt < d /\ d < overflowAt)
  \/ (years = PosInfinity /\ overflowAt <= d)
  \/ (years = NegInfinity /\ d <= - overflowAt) ->
  exists m : Q,
    JsNum.min (Num 15)
      (JsNum.max (Num 10) (JsNum.mul (JsNum.max (Num 1) years) (Num 0.5)))
    = Num m
    /\ 10 <= m /\ m <= 15
    /\ (d <= 20 -> m == 10)
    /\ (20 <= d /\ d <= 30 -> m == d * 0.5)
    /\ (30 <= d -> m == 15).
Proof.
  pose proof overflowAt_big as Hbig.
  intros [(-> & Hlo & Hhi)|[(-> & Hd)|(-> & Hd)]].
  - cbn [JsNum.max JsNum.leb].
    destruct (Qle_bool 1 d) eqn:E1.
    + apply Qle_bool_iff in E1. cbn [JsNum.mul].
      rewrite ofQ_Num by lra. cbn [JsNum.max JsNum.leb].
      destruct (Qle_bool 10 (d * 0.5)) eqn:E2; cbn [JsNum.min JsNum.leb].
      * apply Qle_bool_iff in E2.
        destruct (Qle_bool 15 (d * 0.5)) eqn:E3.
        -- apply Qle_bool_iff in E3. exists 15. repeat split; intros; lra.
        -- apply not_true_iff_false in E3. rewrite Qle_bool_iff in E3.
           apply Qnot_le_lt in E3. exists (d * 0.5).
           repeat split; intros; lra.
      * apply not_true_iff_false in E2. rewrite Qle_bool_iff in E2.
        apply Qnot_le_lt in E2. change (Qle_bool 15 10) with false.
        exists 10. repeat split; intros; lra.
    + apply not_true_iff_false in E1. rewrite Qle_bool_iff in E1.
      apply Qnot_le_lt in E1. exists 10.
      split; [by vm_compute|]. repeat split; intros; lra.
  - exists 15. split; [by vm_compute|]. repeat split; intros; lra.
  - exists 10. split; [by vm_compute|]. repeat split; intros; lra.
Qed.

(** X20.  When both ages are finite, the income replacement is the annual
    income times a multiple between 10 and 15: half the years to
    retirement, 10 when retirement is at most 20 years away and 15 when it
    is 30 years away or more. *)
Theorem term_income_multiple `{NumberFormat} (input : TermCalcInput) :
  isFinite input.(current_age) ->
  isFinite input.(retirement_age) ->
  exists age retirement m : Q,
    input.(current_age) = Num age
    /\ input.(retirement_age) = Num retirement
    /\ (calculateTermCoverage input).(TermCalcResult.income_replacement)
       = JsNum.mul input.(annual_income) (Num m)
    /\ 10 <= m /\ m <= 15
    /\ (retirement - age <= 20 -> m == 10)
    /\ (20 <= retirement - age /\ retirement - age <= 30 ->
        m == (retirement - age) * 0.5)
    /\ (30 <= retirement - age -> m == 15).
Proof.
  intros Hage Hret. destruct (term_fields input) as (-> & _).
  destruct input.(current_age) as [a| | |]; try done.
  destruct input.(retirement_age) as [b| | |]; try done.
  destruct (multiplier_of_years (b - a) (JsNum.sub (Num b) (Num a)))
    as (m & -> & Hm); [apply ofQ_cases|].
  exists a, b, m. split; [done|]. split; [done|]. split; [done|]. exact Hm.
Qed.

Lemma term_income_multiple_witness :
  exists m : Q,
    (@calculateTermCoverage sampleFormat youngEarner).(TermCalcResult.income_replacement)
    = JsNum.mul (Num 1200000) (Num m)
    /\ m == 15.
Proof.
  destruct (@term_income_multiple sampleFormat youngEarner)
    as (a & b & m & Ha & Hb & Hm & _ & _ & _ & _ & H30).
  - vm_compute. split; reflexivity.
  - vm_compute. split; reflexivity.
  - exists m. split; [exact Hm|]. apply H30.
    injection Ha as <-. injection Hb as <-. by vm_compute.
Defined.

(** X21.  When the total need is finite and the existing life cover is at
    least the total need, the term calculator recommends no further cover
    and estimates no premium. *)
Theorem term_existing_cover_suffices `{NumberFormat} (input : TermCalcInput) :
  isFinite (calculateTermCoverage input).(TermCalcResult.total_need) ->
  JsNum.leb (calculateTermCoverage input).(TermCalcResult.total_need)
    input.(existing_life_cover) = true ->
  exists g c lo hi : Q,
    (calculateTermCoverage input).(TermCalcResult.gap) = Num g
    /\ (calculateTermCoverage input).(TermCalcResult.recommended_cover_cr)
       = Num c
    /\ (calculateTermCoverage input).(TermCalcResult.estimated_premium_range).(TermCalcResult.min)
       = Num lo
    /\ (calculateTermCoverage input).(TermCalcResult.estimated_premium_range).(TermCalcResult.max)
       = Num hi
    /\ g == 0 /\ c == 0 /\ lo == 0 /\ hi == 0.
Proof.
  intros Hfin Hle. pose proof overflowAt_big as Hbig.
  assert (Hgap : exists g, (calculateTermCoverage input).(TermCalcResult.gap)
                           = Num g /\ g == 0).
  { destruct (term_fields input) as (_ & _ & -> & _). cbv zeta.
    destruct ((calculateTermCoverage input).(TermCalcResult.total_need))
      as [t| | |]; try done.
    destruct Hfin as [Hlo Hhi].
    assert (Hsub : forall e, t <= e ->
              exists g, JsNum.max (Num 0) (JsNum.sub (Num t) (Num e)) = Num g
                        /\ g == 0).
    { intros e Hte. cbn [JsNum.sub JsNum.opp JsNum.add].
      destruct (ofQ_cases (t + - e)) as [(-> & _)|[(-> & Hq)|(-> & _)]].
      - cbn [JsNum.max JsNum.leb].
        destruct (Qle_bool 0 (t + - e)) eqn:E.
        + apply Qle_bool_iff in E. eexists. split; [done|]. lra.
        + by exists 0.
      - lra.
      - by exists 0. }
    destruct input.(existing_life_cover) as [e| | |]; try done.
    - cbn [JsNum.leb] in Hle. apply Qle_bool_iff in Hle.
      unfold JsNum.orElse. cbn [JsNum.truthy].
      destruct (Qeq_bool e 0) eqn:E; cbn [negb].
      + apply Qeq_bool_eq in E. apply Hsub. lra.
      + by apply Hsub.
    - by exists 0. }
  destruct Hgap as (g & Hg & Hzero).
  destruct (term_finite_gap input g Hg) as (_ & _ & _ & Hc & f & _ & Hmin & Hmax).
  cbv zeta in Hc, Hmin, Hmax.
  assert (Hk : Math_ceil (g / 2500000) == 0).
  { unfold Math_ceil.
    assert (Hq : g / 2500000 == 0) by (rewrite Hzero; reflexivity).
    by rewrite (Qceiling_comp _ _ Hq). }
  eexists g, _, _, _. split; [exact Hg|]. split; [exact Hc|].
  split; [exact Hmin|]. split; [exact Hmax|]. split; [exact Hzero|].
  split; [rewrite Hk; reflexivity|].
  split; apply Math_round_zero; rewrite Hk; ring.
Qed.

Lemma term_existing_cover_witness :
  exists c : Q,
    (@calculateTermCoverage sampleFormat wellCovered).(TermCalcResult.recommended_cover_cr)
    = Num c
    /\ c == 0.
Proof.
  destruct (@term_existing_cover_suffices sampleFormat wellCovered)
    as (g & c & lo & hi & _ & Hc & _ & _ & _ & Hzero & _).
  - vm_compute. split; reflexivity.
  - reflexivity.
  - exists c. split; [exact Hc | exact Hzero].
Defined.

(* ===================================================================== *)
(** ** Further properties: capability registry                             *)
(* ===================================================================== *)

Local Open Scope Z_scope.

Lemma comparePolicies_length (kb : KnowledgeBase) (ids : list string) :
  (length (comparePolicies kb ids) <= length ids)%nat.
Proof.
  induction ids as [|id ids IH]; [done|].
  rewrite comparePolicies_cons. destruct (List.find _ _); cbn; lia.
Qed.

Section RegistryTheorems.

Context (kb : KnowledgeBase) `{NumberFormat} `{Host}.

Lemma executeTool_term (toolInput : gmap string JSValue) :
  executeTool kb "calculate_term_coverage" toolInput
  = default IllTyped
      (annual_income ← numberOr (getProp toolInput "annual_income") 0;
       monthly_expenses ← numberOr (getProp toolInput "monthly_expenses") 0;
       total_debts ← numberOr (getProp toolInput "total_debts") 0;
       num_children ← numberOr (getProp toolInput "num_children") 0;
       education_goal_per_child ←
         numberOr (getProp toolInput "education_goal_per_child") 2500000;
       existing_life_cover ←
         numberOr (getProp toolInput "existing_life_cover") 0;
       current_age ← numberOr (getProp toolInput "current_age") 30;
       retirement_age ← numberOr (getProp toolInput "retirement_age") 60;
       Some (Returned (stringifyTerm (calculateTermCoverage
         {| annual_income := JsNum.ofQ annual_income;
            monthly_expenses := JsNum.ofQ monthly_expenses;
            total_debts := JsNum.ofQ total_debts;
            num_children := JsNum.ofQ num_children;
            education_goal_per_child := JsNum.ofQ education_goal_per_child;
            existing_life_cover := JsNum.ofQ existing_life_cover;
            current_age := JsNum.ofQ current_age;
            retirement_age := JsNum.ofQ retirement_age |})))).
Proof. reflexivity. Qed.

(** The default of a missing parameter gives what the missing parameter
    gives. *)
Lemma term_default_read (toolInput : gmap string JSValue) (key : string)
    (dflt : JSValue) :
  (key, dflt) ∈ termDefaults ->
  toolInput !! key = None ->
  executeTool kb "calculate_term_coverage" toolInput
  = executeTool kb "calculate_term_coverage" (<[key := dflt]> toolInput).
Proof.
  intros Hin Hmiss. rewrite !executeTool_term. unfold termDefaults in Hin.
  repeat (apply elem_of_cons in Hin as [Hin|Hin];
          [injection Hin as -> ->;
           rewrite (getProp_missing _ _ Hmiss), !getProp_insert_eq,
             !getProp_insert_ne by done;
           reflexivity|]).
  by apply elem_of_nil in Hin.
Qed.

(** X22.  For [calculate_term_coverage], a parameter that is missing and a
    parameter that is given as 0 are both read as the default: 0 for the
    amounts and the number of children, 2500000 for the education goal, 30
    for the current age and 60 for the retirement age. *)
Theorem term_missing_or_zero_parameter_defaults
    (toolInput : gmap string JSValue) (key : string) (dflt : JSValue) :
  (key, dflt) ∈ termDefaults ->
  (toolInput !! key = None ->
   executeTool kb "calculate_term_coverage" toolInput
   = executeTool kb "calculate_term_coverage" (<[key := dflt]> toolInput))
  /\ executeTool kb "calculate_term_coverage" (<[key := JNum 0]> toolInput)
     = executeTool kb "calculate_term_coverage" (<[key := dflt]> toolInput).
Proof.
  intros Hin. rewrite !executeTool_term. unfold termDefaults in Hin.
  repeat (apply elem_of_cons in Hin as [Hin|Hin];
          [injection Hin as -> ->; split;
           [intros Hmiss; rewrite (getProp_missing _ _ Hmiss)|];
           rewrite !getProp_insert_eq, !getProp_insert_ne by done;
           reflexivity|]).
  by apply elem_of_nil in Hin.
Qed.


Lemma join_lit_nonempty (sep : string) (c : ascii) (s rest : string)
    (parts : list string) :
  join sep ((String c s ++ rest)%string :: parts) <> EmptyString.
Proof. unfold join. destruct parts; cbn; discriminate. Qed.

Lemma executeTool_booking (toolInput : gmap string JSValue) :
  exists text, executeTool kb "book_consultation" toolInput = Returned text.
Proof. by eexists. Qed.

Lemma search_text_nonempty (toolInput : gmap string JSValue) (text : string) :
  executeTool kb "search_insurance_knowledge" toolInput = Returned text ->
  text <> EmptyString.
Proof.
  unfold executeTool. cbn [String.eqb Ascii.eqb Bool.eqb andb].
  destruct (getProp toolInput "query"); try discriminate.
  destruct (optionalString _); cbn [mbind option_bind from_option];
    [|discriminate].
  destruct (searchArticles _ _ _ _) as [|a l]; cbn [length Nat.eqb map];
    intros [= <-]; [discriminate | apply join_lit_nonempty].
Qed.


Lemma policies_text_nonempty (toolInput : gmap string JSValue) (text : string) :
  executeTool kb "search_policies" toolInput = Returned text ->
  text <> EmptyString.
Proof.
  unfold executeTool. cbn [String.eqb Ascii.eqb Bool.eqb andb].
  destruct (getProp toolInput "query"); try discriminate.
  destruct (optionalString _); cbn [mbind option_bind from_option];
    [|discriminate].
  destruct (truthy _ && _); [discriminate|].
  destruct (searchPolicies _ _ _ _ _) as [|a l]; cbn [length Nat.eqb map];
    intros [= <-]; [discriminate | apply join_lit_nonempty].
Qed.

Lemma compare_text_nonempty (toolInput : gmap string JSValue) (text : string) :
  executeTool kb "compare_policies" toolInput = Returned text ->
  text <> EmptyString.
Proof.
  unfold executeTool. cbn [String.eqb Ascii.eqb Bool.eqb andb].
  destruct (getProp toolInput "policy_identifiers"); try discriminate.
  destruct (mapM asString _); cbn [mbind option_bind from_option];
    [|discriminate].
  destruct (comparePolicies _ _) as [|pa [|pb pl]]; cbn [length Nat.ltb Nat.leb map];
    intros [= <-]; first [ discriminate | apply join_lit_nonempty ].
Qed.

Lemma claims_text_nonempty (toolInput : gmap string JSValue) (text : string) :
  executeTool kb "get_claims_guidance" toolInput = Returned text ->
  text <> EmptyString.
Proof.
  unfold executeTool. cbn [String.eqb Ascii.eqb Bool.eqb andb].
  destruct (getProp toolInput "query"); try discriminate.
  destruct (optionalString _); cbn [mbind option_bind from_option];
    [|discriminate].
  destruct (searchClaimsGuides _ _ _) as [|a l]; cbn [length Nat.eqb map];
    intros [= <-]; [discriminate | apply join_lit_nonempty].
Qed.

Lemma insurer_text_nonempty (toolInput : gmap string JSValue) (text : string) :
  executeTool kb "get_insurer_details" toolInput = Returned text ->
  text <> EmptyString.
Proof.
  unfold executeTool. cbn [String.eqb Ascii.eqb Bool.eqb andb].
  destruct (getProp toolInput "insurer_name"); try discriminate.
  destruct (getInsurer _ _) as [i|]; cbn [from_option];
    intros [= <-]; [|discriminate].
  discriminate.
Qed.

Lemma executeTool_unknown (toolName : string) (toolInput : gmap string JSValue) :
  toolName ∉ map name TOOLS ->
  executeTool kb toolName toolInput
  = Returned ("Unknown tool: " ++ toolName)%string.
Proof.
  intros Hn.
  assert (Hne : forall lit, lit ∈ map name TOOLS -> String.eqb toolName lit = false).
  { intros lit Hlit. apply String.eqb_neq. by intros ->. }
  unfold executeTool.
  rewrite !Hne; [reflexivity | ..];
    apply list_elem_of_In; cbn; tauto.
Qed.

(** X23.  When an argument that the catalogue marks as required is missing
    from the payload, the five capabilities that look something up throw,
    the booking returns, and the two calculators read the default for it:
    they give what they give with the default supplied. *)
Theorem missing_required_argument (tool : Tool) (key : string)
    (toolInput : gmap string JSValue) :
  tool ∈ TOOLS ->
  key ∈ tool.(required) ->
  toolInput !! key = None ->
  (tool.(name) ∉ defaultingTools ->
   executeTool kb tool.(name) toolInput = Thrown)
  /\ (tool.(name) = "book_consultation"%string ->
      exists text, executeTool kb tool.(name) toolInput = Returned text)
  /\ (tool.(name) ∈ ["calculate_health_coverage"; "calculate_term_coverage"]%string ->
      exists dflt,
        (key, dflt) ∈ calculatorDefaults tool.(name)
        /\ executeTool kb tool.(name) toolInput
           = executeTool kb tool.(name) (<[key := dflt]> toolInput)).
Proof.
  intros Htool Hkey Hmiss. unfold TOOLS in Htool.
  split; [|split].
  - intros Hnot.
    repeat (apply elem_of_cons in Htool as [->|Htool]);
      try (by apply elem_of_nil in Htool);
      cbn [name required] in Hkey, Hnot |- *;
      try (by exfalso; apply Hnot; unfold defaultingTools;
              repeat first [ by left | right ]);
      repeat (apply elem_of_cons in Hkey as [->|Hkey]);
      try (by apply elem_of_nil in Hkey);
      unfold executeTool; cbn [String.eqb Ascii.eqb Bool.eqb andb];
      by rewrite (getProp_missing _ _ Hmiss).
  - intros ->. apply executeTool_booking.
  - intros Hcalc.
    assert (Hd : forall dflt,
              (key, dflt) ∈ calculatorDefaults tool.(name) ->
              executeTool kb tool.(name) toolInput
              = executeTool kb tool.(name) (<[key := dflt]> toolInput)).
    { intros dflt Hin.
      repeat (apply elem_of_cons in Hcalc as [Hcalc|Hcalc]);
        try (by apply elem_of_nil in Hcalc);
        rewrite Hcalc in Hin |- *; cbn in Hin.
      - by apply health_default_read.
      - by apply term_default_read. }
    repeat (apply elem_of_cons in Htool as [->|Htool]);
      try (by apply elem_of_nil in Htool);
      cbn [name required] in Hkey, Hcalc, Hd |- *;
      try (exfalso;
           repeat (apply elem_of_cons in Hcalc as [Hcalc|Hcalc];
                   [discriminate Hcalc|]);
           by apply elem_of_nil in Hcalc);
      repeat (apply elem_of_cons in Hkey as [->|Hkey]);
      try (by apply elem_of_nil in Hkey);
      eexists; (split; [|apply Hd]);
      unfold calculatorDefaults, healthDefaults, termDefaults;
      cbn [String.eqb Ascii.eqb Bool.eqb andb];
      repeat first [ by left | right ].
Qed.

Lemma mapM_asString (ids : list string) :
  mapM asString (map JStr ids) = Some ids.
Proof.
  induction ids as [|id ids IH]; [done|].
  cbn [map mapM asString mbind option_bind]. by rewrite IH.
Qed.

(** X24.  [compare_policies] compares whatever its identifiers resolve to:
    with fewer than two identifiers it never compares and reports how many
    policies it found, and an identifier given twice has its policy compared
    with itself. *)
Theorem compare_policies_edge_cases (toolInput : gmap string JSValue)
    (ids : list string) :
  getProp toolInput "policy_identifiers" = JArr (map JStr ids) ->
  ((length ids < 2)%nat ->
   (length (comparePolicies kb ids) < 2)%nat
   /\ executeTool kb "compare_policies" toolInput
      = Returned
          ("Could only find " ++ natText (length (comparePolicies kb ids))
           ++ " of the requested policies. Available policies: "
           ++ join ", " (map Policy.name (comparePolicies kb ids))
           ++ ". Please check the policy names.")%string)
  /\ (forall id p,
        ids = [id; id] ->
        comparePolicies kb [id] = [p] ->
        executeTool kb "compare_policies" toolInput
        = Returned
            (policyCard p ++ nl ++ nl ++ "=== VS ===" ++ nl ++ nl
             ++ policyCard p)%string).
Proof.
  intros Hids.
  assert (Hrun : executeTool kb "compare_policies" toolInput
                 = let policies := comparePolicies kb ids in
                   if (length policies <? 2)%nat
                   then Returned
                          ("Could only find " ++ natText (length policies)
                           ++ " of the requested policies. Available policies: "
                           ++ join ", " (map Policy.name policies)
                           ++ ". Please check the policy names.")%string
                   else Returned
                          (join (nl ++ nl ++ "=== VS ===" ++ nl ++ nl)
                             (map policyCard policies))%string).
  { unfold executeTool. cbn [String.eqb Ascii.eqb Bool.eqb andb].
    rewrite Hids, mapM_asString. cbn [mbind option_bind from_option].
    cbv zeta. by destruct (_ <? 2)%nat. }
  rewrite Hrun. cbv zeta. split.
  - intros Hlen. pose proof (comparePolicies_length kb ids) as Hle.
    assert (Hlt : (length (comparePolicies kb ids) < 2)%nat) by lia.
    split; [exact Hlt|]. apply Nat.ltb_lt in Hlt. by rewrite Hlt.
  - intros id p -> Hp.
    assert (Htwice : comparePolicies kb [id; id] = [p; p]).
    { change [id; id] with ([id] ++ [id]). unfold comparePolicies in *.
      by rewrite omap_app, Hp. }
    rewrite Htwice. cbn [length Nat.ltb Nat.leb map]. unfold join.
    cbn [String.concat]. do 2 f_equal.
Qed.

(** X25.  Whenever a capability other than the two calculators and the
    booking returns, the text it returns is not empty; this includes the
    answer to a name the catalogue does not hold. *)
Theorem tool_text_is_never_empty (toolName : string)
    (toolInput : gmap string JSValue) (text : string) :
  toolName ∉ serialisingTools ->
  executeTool kb toolName toolInput = Returned text ->
  text <> EmptyString.
Proof.
  intros Hnot Hret.
  destruct (decide (toolName ∈ map name TOOLS)) as [Hin|Hout].
  - cbn [map TOOLS name] in Hin.
    repeat (apply elem_of_cons in Hin as [->|Hin]);
      try (by apply elem_of_nil in Hin);
      try (by exfalso; apply Hnot; unfold serialisingTools, defaultingTools;
              repeat first [ by left | right ]).
    + by eapply search_text_nonempty.
    + by eapply policies_text_nonempty.
    + by eapply compare_text_nonempty.
    + by eapply claims_text_nonempty.
    + by eapply insurer_text_nonempty.
  - rewrite (executeTool_unknown _ _ Hout) in Hret. by injection Hret as <-.
Qed.

End RegistryTheorems.

Lemma missing_query_witness :
  @executeTool sampleKb sampleFormat sampleHost "search_policies" ∅ = Thrown.
Proof.
  refine (proj1 (@missing_required_argument sampleKb sampleFormat sampleHost
                   {| name := "search_policies";
                      properties :=
                        [("query", "string", []);
                         ("category", "string",
                          ["health-insurance"; "term-insurance"]);
                         ("insurer_name", "string", [])];
                      required := ["query"] |}%string
                   "query"%string ∅ _ _ _) _).
  - right. left.
  - left.
  - reflexivity.
  - cbn [name]. intros Hin. unfold defaultingTools in Hin.
    repeat (apply elem_of_cons in Hin as [Hin|Hin]; [discriminate Hin|]).
    by apply elem_of_nil in Hin.
Defined.

Lemma tool_text_witness :
  ("No matching policies found. Try a different insurer name or broader query."
   : string) <> EmptyString.
Proof.
  refine (@tool_text_is_never_empty sampleKb sampleFormat sampleHost
            "search_policies"%string
            {[ "query"%string := JStr "pension" ]} _ _ _).
  - intros Hin. unfold serialisingTools, defaultingTools in Hin.
    repeat (apply elem_of_cons in Hin as [Hin|Hin]; [discriminate Hin|]).
    by apply elem_of_nil in Hin.
  - vm_compute. reflexivity.
Defined.

Lemma compare_policy_with_itself_witness :
  @executeTool sampleKb sampleFormat sampleHost "compare_policies"
    {[ "policy_identifiers"%string := JArr [JStr "p1"; JStr "p1"] ]}
  = Returned
      (policyCard policyOne ++ nl ++ nl ++ "=== VS ===" ++ nl ++ nl
       ++ policyCard policyOne)%string.
Proof.
  refine (proj2 (@compare_policies_edge_cases sampleKb sampleFormat sampleHost
                   {[ "policy_identifiers"%string
                      := JArr [JStr "p1"; JStr "p1"] ]}
                   ["p1"; "p1"]%string _) "p1"%string policyOne _ _);
    reflexivity.
Defined.

Lemma term_zero_age_witness :
  @executeTool sampleKb sampleFormat sampleHost "calculate_term_coverage"
    (<["current_age"%string := JNum 0]> ∅)
  = @executeTool sampleKb sampleFormat sampleHost "calculate_term_coverage"
      (<["current_age"%string := JNum 30]> ∅).
Proof.
  refine (proj2 (@term_missing_or_zero_parameter_defaults sampleKb sampleFormat
                   sampleHost ∅ "current_age"%string (JNum 30) _)).
  unfold termDefaults. do 6 right. left.
Defined.

(* ===================================================================== *)
(** ** Further properties: orchestration loop                              *)
(* ===================================================================== *)

Local Open Scope nat_scope.

Section ConversationFacts.

Context (kb : KnowledgeBase) `{NumberFormat} `{Host}.
Variable create : nat -> CreateParams -> string + Message.t.

Lemma chained_snoc (sent : list CreateParams) (p q : CreateParams) :
  chained kb create sent ->
  last sent = Some p ->
  followsUp kb create (length sent - 1) p q ->
  chained kb create (sent ++ [q]).
Proof.
  intros Hch Hlast Hfollow i a b Ha Hb.
  assert (Hlen : S i < length (sent ++ [q])) by (by eapply lookup_lt_Some).
  rewrite length_app in Hlen. cbn [length] in Hlen.
  rewrite lookup_app_l in Ha by lia.
  destruct (decide (S i < length sent)) as [Hin|Hout].
  - rewrite lookup_app_l in Hb by lia. by eapply Hch.
  - assert (Hi : S i = length sent) by lia.
    rewrite lookup_app_r in Hb by lia.
    replace (S i - length sent) with 0 in Hb by lia. injection Hb as <-.
    rewrite last_lookup in Hlast.
    replace (pred (length sent)) with i in Hlast by lia.
    rewrite Hlast in Ha. injection Ha as <-.
    replace i with (length sent - 1) by lia. exact Hfollow.
Qed.

(** X26.  A dispatch round gives results exactly when every tool-use block
    of the reply returns, and then there is one result per tool-use block,
    in the order of the blocks, each with the id of its block and the text
    its tool returned; blocks of other kinds are passed over. *)
Theorem runTools_results_in_order (blocks : list ContentBlock)
    (results : list ToolResultBlockParam.t) :
  runTools kb blocks = inr results
  <-> Forall2 (resultOf kb) (List.filter isToolUse blocks) results.
Proof.
  revert results. induction blocks as [|b blocks IH]; intros results.
  - cbn. split; [intros [= <-]; constructor | by inversion 1].
  - destruct b as [t|id n input|t]; cbn [runTools List.filter isToolUse];
      [apply IH | | apply IH].
    split.
    + destruct (executeTool kb n input) as [text| |] eqn:Hrun; try discriminate.
      destruct (runTools kb blocks) as [o|rest] eqn:Hrest; [discriminate|].
      intros [= <-]. constructor; [|by apply IH].
      by exists id, n, input.
    + inversion 1 as [|b' r bs rs Hr Hrest]; subst.
      destruct Hr as (id' & n' & input' & [= <- <- <-] & Hid & Hrun).
      rewrite Hrun. apply IH in Hrest as ->. destruct r; cbn in *. by subst.
Qed.

(** One pass of the loop keeps the chain of requests and the state in
    step. *)
Lemma toolLoop_chain (systemText : string) (fuel : nat) (st : LoopState)
    (e : LoopEnd) :
  toolLoop kb create systemText fuel st = Some e ->
  chained kb create st.(ls_sent) ->
  inStep create systemText st ->
  Forall (fun p => p = request systemText p.(messages)) st.(ls_sent) ->
  chained kb create (endState e).(ls_sent)
  /\ Forall (fun p => p = request systemText p.(messages)) (endState e).(ls_sent)
  /\ match e with
     | Completed st' =>
         inStep create systemText st'
         /\ (st'.(response).(Message.stop_reason) <> "tool_use"%string
             \/ maxIterations <= st'.(ls_iterations))
         /\ (st.(response).(Message.stop_reason) <> "tool_use"%string ->
             st' = st)
     | _ => True
     end.
Proof.
  revert st. induction fuel as [|fuel IH]; intros st;
    cbn [toolLoop];
    destruct (String.eqb _ _ && (_ <? maxIterations)) eqn:Hguard;
    try discriminate.
  - intros [= <-] Hch Hstep Hall. cbn [endState].
    split; [done|]. split; [done|]. split; [done|]. split; [|done].
    apply andb_false_iff in Hguard as [Hs|Hlt].
    + left. by apply String.eqb_neq.
    + right. by apply Nat.ltb_ge.
  - apply andb_true_iff in Hguard as [Hs Hlt]. apply String.eqb_eq in Hs.
    destruct (runTools kb _) as [[]|results] eqn:Hrun;
      try (intros [= <-] Hch Hstep Hall; cbn [endState ls_sent]; done).
    intros He Hch (Hlast & Hreply & Hlen) Hall.
    cbn [ls_sent ls_messages ls_iterations response] in He.
    set (msgs := push (push st.(ls_messages)
                         {| MessageParam.role := assistant;
                            MessageParam.content :=
                              Blocks st.(response).(Message.content) |})
                   {| MessageParam.role := user;
                      MessageParam.content := ToolResults results |}) in *.
    assert (Hfollow : followsUp kb create (length st.(ls_sent) - 1)
                        (request systemText st.(ls_messages))
                        (request systemText msgs)).
    { exists st.(response), results. split; [done|]. split; [done|].
      split; [done|]. unfold msgs, push. cbn [system messages request].
      by rewrite <- app_assoc. }
    assert (Hch' : chained kb create
                     (push st.(ls_sent) (request systemText msgs))).
    { by eapply chained_snoc. }
    assert (Hall' : Forall (fun p => p = request systemText p.(messages))
                      (push st.(ls_sent) (request systemText msgs))).
    { apply Forall_app. split; [done|]. by constructor. }
    destruct (create _ _) as [details|next] eqn:Hnext.
    + injection He as <-. cbn [endState ls_sent]. done.
    + apply IH in He as (Hc & Ha & Hm); cbn [ls_sent ls_messages ls_iterations response].
      * split; [done|]. split; [done|]. destruct e; try done.
        destruct Hm as (Hm1 & Hm2 & _). split; [done|]. split; [done|].
        intros Hne. done.
      * done.
      * unfold inStep. cbn [ls_sent ls_messages ls_iterations response].
        unfold push. rewrite last_snoc, length_app. cbn [length].
        split; [done|]. split; [|lia].
        unfold push in Hnext. rewrite length_app in Hnext.
        cbn [length] in Hnext. exact Hnext.
      * done.
  - intros [= <-] Hch Hstep Hall. cbn [endState].
    split; [done|]. split; [done|]. split; [done|]. split; [|done].
    apply andb_false_iff in Hguard as [Hs|Hlt].
    + left. by apply String.eqb_neq.
    + right. by apply Nat.ltb_ge.
Qed.

End ConversationFacts.

Section RouteCases.

Context (kb : KnowledgeBase) `{NumberFormat} `{Host}.
Variable SYSTEM_PROMPT : string.
Variable create : nat -> CreateParams -> string + Message.t.

(** The four ways a request can go. *)
Lemma POST_cases (fuel : nat) (body : Body) :
  maxIterations <= fuel ->
  let history := default [] body.(conversationHistory) in
  let systemText :=
    augmentedSystem kb SYSTEM_PROMPT (default ""%string body.(message))
      (default "en"%string body.(language)) in
  let msgs := initialMessages history (default ""%string body.(message)) in
  let params := request systemText msgs in
  let idle :=
    {| callerHistory := history; finalMessages := []; sent := [];
       iterations := 0 |} in
  (truthyStr ANTHROPIC_API_KEY = false
   /\ POST kb SYSTEM_PROMPT create fuel body
      = Some (Error 500 "Anthropic API key not configured" None, idle))
  \/ (truthyStr ANTHROPIC_API_KEY = true
      /\ truthyStr body.(message) = false
      /\ POST kb SYSTEM_PROMPT create fuel body
         = Some (Error 400 "No message provided" None, idle))
  \/ (truthyStr ANTHROPIC_API_KEY = true
      /\ truthyStr body.(message) = true
      /\ exists details,
           create 0 params = inl details
           /\ POST kb SYSTEM_PROMPT create fuel body
              = Some (Error 500 "Chat failed" (Some details),
                      {| callerHistory := history; finalMessages := msgs;
                         sent := [params]; iterations := 0 |}))
  \/ (truthyStr ANTHROPIC_API_KEY = true
      /\ truthyStr body.(message) = true
      /\ exists first e,
           create 0 params = inr first
           /\ toolLoop kb create systemText fuel
                {| response := first; ls_iterations := 0;
                   ls_messages := msgs; ls_sent := [params] |} = Some e
           /\ POST kb SYSTEM_PROMPT create fuel body
              = Some (replyOf e, runOf history (endState e))).
Proof.
  intros Hfuel. cbv zeta.
  destruct (truthyStr ANTHROPIC_API_KEY) eqn:Hkey.
  2:{ left. split; [done|]. unfold POST. by rewrite Hkey. }
  destruct (truthyStr body.(message)) eqn:Hmsg.
  2:{ right. left. split; [done|]. split; [done|]. unfold POST.
      by rewrite Hkey, Hmsg. }
  right. right.
  rewrite (POST_forwarded kb SYSTEM_PROMPT create fuel body)
    by (by rewrite Hkey, Hmsg).
  cbv zeta.
  destruct (create 0 _) as [details|first] eqn:Hfirst.
  { left. split; [done|]. split; [done|]. by exists details. }
  right. split; [done|]. split; [done|].
  match goal with
  | |- context [toolLoop kb create ?s fuel ?st0] =>
      destruct (toolLoop_total kb create s fuel st0) as [e He];
        [cbn [ls_iterations]; lia|]
  end.
  exists first, e. split; [done|]. split; [done|]. by rewrite He.
Qed.

Lemma chained_one (p : CreateParams) : chained kb create [p].
Proof. intros i a b _ Hb. by destruct i. Qed.

Lemma chained_nil : chained kb create [].
Proof. intros i a b Ha. done. Qed.

(** The cases of the handler leave goals that a contradictory premise or
    the shape of the reply settles. *)
Ltac reply_case :=
  cbn [asString] in *;
  first
    [ done
    | by intuition (discriminate || congruence)
    | by (intros ? ? ? [= <- _ _]; first [by left | by right])
    | by (intros;
          match goal with
          | Hs : is_Some None |- _ => destruct Hs
          | He : exists _, _ = Parses _ |- _ => destruct He
          end) ].

(** X27.  On the JSON value of a request, the handler answers with status
    500 when the key is not configured, whatever the body, and with status
    400 when the key is there, the body is not null and its message is
    missing or falsy.  On a null body, a truthy message that is not a
    string, or a history on which it raises (null, a number, a boolean, an
    object, or an array with null among its last ten elements), it answers
    with status 500 and the message of the error.  In all these cases no
    request goes to the engine.  With a message that is a non-empty string
    and a history that is absent or holds turns, a request is sent.  Every
    error has status 400 or 500, and 400 only for a missing message. *)
Theorem reply_statuses (errorMessage : JSValue -> string) (fuel : nat)
    (body : JSValue) :
  maxIterations <= fuel ->
  exists reply run,
    POST_raw kb SYSTEM_PROMPT create errorMessage fuel body
    = Some (reply, run)
    /\ (truthyStr ANTHROPIC_API_KEY = false ->
        reply = Error 500 "Anthropic API key not configured" None
        /\ run.(sent) = [])
    /\ (truthyStr ANTHROPIC_API_KEY = true ->
        destructures body = true ->
        truthy (bodyProp body "message") = false ->
        reply = Error 400 "No message provided" None /\ run.(sent) = [])
    /\ (truthyStr ANTHROPIC_API_KEY = true ->
        destructures body = false
        \/ (truthy (bodyProp body "message") = true
            /\ (asString (bodyProp body "message") = None
                \/ parseHistory (bodyProp body "conversationHistory")
                   = Raises)) ->
        reply = Error 500 "Chat failed" (Some (errorMessage body))
        /\ run.(sent) = [])
    /\ (truthyStr ANTHROPIC_API_KEY = true ->
        truthy (bodyProp body "message") = true ->
        is_Some (asString (bodyProp body "message")) ->
        (exists history,
           parseHistory (bodyProp body "conversationHistory")
           = Parses history) ->
        run.(sent) <> [])
    /\ (forall status error details,
          reply = Error status error details ->
          status = 500
          \/ (status = 400 /\ truthyStr ANTHROPIC_API_KEY = true
              /\ destructures body = true
              /\ truthy (bodyProp body "message") = false)).
Proof.
  intros Hfuel. unfold POST_raw.
  destruct (truthyStr ANTHROPIC_API_KEY) eqn:Hkey; cbn [negb].
  2:{ eexists _, _. split; [reflexivity|]. cbn [sent].
      repeat split; reply_case. }
  destruct (destructures body) eqn:Hbody; cbn [negb].
  2:{ eexists _, _. split; [reflexivity|]. cbn [sent].
      repeat split; try reply_case.
      by destruct body; try discriminate Hbody. }
  destruct (truthy (bodyProp body "message")) eqn:Hmsg; cbn [negb].
  2:{ eexists _, _. split; [reflexivity|]. cbn [sent].
      repeat split; reply_case. }
  destruct (bodyProp body "message") as [| |b|n|message|items|fields] eqn:Hm;
    try discriminate Hmsg.
  1,2,4,5:
    (eexists _, _; split; [reflexivity|]; cbn [sent];
     repeat split; reply_case).
  destruct (parseHistory (bodyProp body "conversationHistory"))
    as [history| |] eqn:Hh.
  - set (typed := {| message := Some message; conversationHistory := history;
                     language := parseLanguage (bodyProp body "language") |}).
    assert (Hbm : truthyStr typed.(Chat.message) = true) by exact Hmsg.
    destruct (POST_cases fuel typed Hfuel)
      as [(Hk & _)|[(_ & Hf & _)|[(_ & _ & details & _ & ->)
         |(_ & _ & first & e & Hfirst & He & ->)]]]; try congruence.
    + eexists _, _. split; [reflexivity|]. cbn [sent].
      repeat split; reply_case.
    + destruct (toolLoop_run kb create _ fuel _ e He) as (_ & _ & more & Hs & _).
      eexists _, _. split; [reflexivity|]. cbn [sent runOf]. rewrite Hs.
      cbn [ls_sent app]. repeat split; try reply_case.
      intros s er d Hr. left. destruct e; cbn [replyOf] in Hr;
        try (by injection Hr as <- _ _); discriminate Hr.
  - eexists _, _. split; [reflexivity|]. cbn [sent].
    repeat split; reply_case.
  - eexists _, _. split; [reflexivity|]. cbn [sent].
    repeat split; reply_case.
Qed.

(** X28.  All requests of one question carry the same system text, model,
    token cap and catalogue, and each request after the first follows up on
    the one before it: the engine answered that one by asking for tools,
    every tool returned, and the next request adds two messages to it, the
    blocks of the answer and the results of the tools. *)
Theorem requests_follow_up (fuel : nat) (body : Body) :
  maxIterations <= fuel ->
  exists reply run,
    POST kb SYSTEM_PROMPT create fuel body = Some (reply, run)
    /\ Forall (fun p =>
                 p = request
                       (augmentedSystem kb SYSTEM_PROMPT
                          (default ""%string body.(message))
                          (default "en"%string body.(language)))
                       p.(messages))
         run.(sent)
    /\ chained kb create run.(sent).
Proof.
  intros Hfuel.
  destruct (POST_cases fuel body Hfuel)
    as [(Hkey & ->)|[(Hkey & Hmsg & ->)|[(Hkey & Hmsg & details & _ & ->)
       |(Hkey & Hmsg & first & e & Hfirst & He & ->)]]];
    eexists _, _; (split; [reflexivity|]); cbn [sent runOf].
  - split; [constructor | apply chained_nil].
  - split; [constructor | apply chained_nil].
  - split; [by repeat constructor | apply chained_one].
  - destruct (toolLoop_chain kb create _ fuel _ e He) as (Hch & Hall & _);
      cbn [ls_sent ls_messages ls_iterations response].
    + apply chained_one.
    + done.
    + by repeat constructor.
    + done.
Qed.

(** X29.  A successful answer is built from the reply to the last request
    sent: its text is the text blocks of that reply joined by line breaks
    and its list of tools names the tool-use blocks of that reply only.
    There is one request more than rounds, and that reply did not ask for
    tools unless 5 rounds were run.  When the first reply does not ask for
    tools, it is answered at once, with one request and no round. *)
Theorem answer_is_built_from_last_reply (fuel : nat) (body : Body) :
  maxIterations <= fuel ->
  exists reply run,
    POST kb SYSTEM_PROMPT create fuel body = Some (reply, run)
    /\ (forall text url used,
          reply = Ok text url used ->
          exists params lastReply,
            last run.(sent) = Some params
            /\ create (length run.(sent) - 1) params = inr lastReply
            /\ reply = finalReply lastReply
            /\ text = join nl (omap textOf lastReply.(Message.content))
            /\ used = omap toolNameOf lastReply.(Message.content)
            /\ length run.(sent) = S run.(iterations)
            /\ (lastReply.(Message.stop_reason) <> "tool_use"%string
                \/ run.(iterations) = 5))
    /\ (forall firstReply,
          truthyStr ANTHROPIC_API_KEY = true ->
          truthyStr body.(message) = true ->
          let first :=
            request
              (augmentedSystem kb SYSTEM_PROMPT
                 (default ""%string body.(message))
                 (default "en"%string body.(language)))
              (initialMessages (default [] body.(conversationHistory))
                 (default ""%string body.(message))) in
          create 0 first = inr firstReply ->
          firstReply.(Message.stop_reason) <> "tool_use"%string ->
          reply = finalReply firstReply
          /\ run.(iterations) = 0 /\ run.(sent) = [first]).
Proof.
  intros Hfuel.
  destruct (POST_cases fuel body Hfuel)
    as [(Hkey & ->)|[(Hkey & Hmsg & ->)|[(Hkey & Hmsg & details & Hd & ->)
       |(Hkey & Hmsg & first & e & Hfirst & He & ->)]]];
    eexists _, _; (split; [reflexivity|]); cbn [sent runOf iterations];
    try (split; [done|]; intros ?; congruence).
  destruct (toolLoop_chain kb create _ fuel _ e He) as (_ & _ & Hend);
      cbn [ls_sent ls_messages ls_iterations response];
      [apply chained_one | done | by repeat constructor |].
  destruct (toolLoop_run kb create _ fuel _ e He) as (_ & Hmax & _).
  cbn [ls_iterations] in Hmax.
  assert (Hplain : first.(Message.stop_reason) <> "tool_use"%string ->
              e = Completed
                    {| response := first; ls_iterations := 0;
                       ls_messages :=
                         initialMessages (default [] body.(conversationHistory))
                           (default ""%string body.(message));
                       ls_sent :=
                         [request
                            (augmentedSystem kb SYSTEM_PROMPT
                               (default ""%string body.(message))
                               (default "en"%string body.(language)))
                            (initialMessages
                               (default [] body.(conversationHistory))
                               (default ""%string body.(message)))] |}).
    { intros Hne. apply String.eqb_neq in Hne.
      destruct fuel; cbn [toolLoop response] in He; rewrite Hne in He;
        cbn [andb] in He; by injection He as <-. }
    split.
    + destruct e as [st'| | |]; cbn [replyOf endState] in *; try done.
      destruct Hend as ((Hlast & Hreply & Hlen) & Hstop & _).
      intros text url used Hok. eexists _, st'.(response).
      split; [exact Hlast|]. split; [exact Hreply|]. split; [done|].
      unfold finalReply in Hok. injection Hok as <- _ <-.
      split; [done|]. split; [done|]. split; [done|].
      destruct Hstop as [Hstop|Hstop]; [by left|right].
      unfold maxIterations in *. lia.
    + intros r _ _ Hr Hne. cbv zeta in Hr. rewrite Hfirst in Hr.
      injection Hr as <-. rewrite (Hplain Hne). done.
Qed.

End RouteCases.

Lemma sliceLast_idem {A : Type} (n : nat) (l : list A) :
  sliceLast n (sliceLast n l) = sliceLast n l.
Proof.
  unfold sliceLast. rewrite length_drop.
  replace (length l - (length l - n) - n) with 0 by lia. done.
Qed.

Lemma sliceLast_map {A B : Type} (f : A -> B) (n : nat) (l : list A) :
  sliceLast n (map f l) = map f (sliceLast n l).
Proof. unfold sliceLast. by rewrite length_map, <- fmap_drop. Qed.

Section ClientAndRoute.

Context (kb : KnowledgeBase) `{NumberFormat} `{Host}.
Variable SYSTEM_PROMPT : string.
Variable create : nat -> CreateParams -> string + Message.t.

(** X30.  What the page posts reaches the engine whole: for a text that is
    not empty, the first request carries the last 10 messages of the page,
    each with its role and content, and then the text as a user message;
    the route's own cut to 10 turns drops none of the turns the page
    sent. *)
Theorem client_history_reaches_engine (fuel : nat)
    (pageMessages : list ChatMessage.t) (text lang : string) :
  maxIterations <= fuel ->
  truthyStr ANTHROPIC_API_KEY = true ->
  text <> EmptyString ->
  exists reply run first rest,
    POST kb SYSTEM_PROMPT create fuel (chatRequestBody pageMessages text lang)
    = Some (reply, run)
    /\ length run.(callerHistory) = 10 `min` length pageMessages
    /\ run.(sent) = first :: rest
    /\ first.(messages)
       = map (fun m =>
                {| MessageParam.role := m.(ChatMessage.role);
                   MessageParam.content := Text m.(ChatMessage.content) |})
           (sliceLast 10 pageMessages)
         ++ [{| MessageParam.role := user; MessageParam.content := Text text |}].
Proof.
  intros Hfuel Hkey Htext.
  assert (Hmsg : truthyStr (chatRequestBody pageMessages text lang).(message)
                 = true).
  { cbn. apply negb_true_iff. by apply String.eqb_neq. }
  assert (Hinit : initialMessages
                    (default [] (chatRequestBody pageMessages text lang).(conversationHistory))
                    (default ""%string (chatRequestBody pageMessages text lang).(message))
                  = map (fun m =>
                           {| MessageParam.role := m.(ChatMessage.role);
                              MessageParam.content := Text m.(ChatMessage.content) |})
                      (sliceLast 10 pageMessages)
                    ++ [{| MessageParam.role := user;
                           MessageParam.content := Text text |}]).
  { unfold initialMessages, chatRequestBody.
    cbn [conversationHistory message from_option id].
    rewrite sliceLast_map, sliceLast_idem, map_map. done. }
  assert (Hhist : length (default [] (chatRequestBody pageMessages text lang).(conversationHistory))
                  = 10 `min` length pageMessages).
  { cbn [chatRequestBody conversationHistory from_option id].
    rewrite length_map. unfold sliceLast. rewrite length_drop. lia. }
  destruct (POST_cases kb SYSTEM_PROMPT create fuel
              (chatRequestBody pageMessages text lang) Hfuel)
    as [(Hk & _)|[(_ & Hm & _)|[(_ & _ & details & _ & ->)
       |(_ & _ & first & e & Hfirst & He & ->)]]]; try congruence.
  - eexists _, _, _, _. split; [reflexivity|]. cbn [callerHistory sent].
    split; [exact Hhist|]. split; [reflexivity|]. exact Hinit.
  - destruct (toolLoop_run kb create _ fuel _ e He) as (_ & _ & more & Hsent & _).
    cbn [ls_sent] in Hsent.
    eexists _, _, _, more. split; [reflexivity|]. cbn [callerHistory sent runOf].
    split; [exact Hhist|]. split; [exact Hsent|]. exact Hinit.
Qed.

End ClientAndRoute.

Lemma null_history_witness :
  exists run,
    @POST_raw sampleKb sampleFormat sampleHost "You are an assistant."
      busyEngine (fun _ => "TypeError"%string) 5
      (JObj [("message"%string, JStr "hello there");
             ("conversationHistory"%string, JNull)])
    = Some (Error 500 "Chat failed" (Some "TypeError"%string), run)
    /\ run.(sent) = [].
Proof.
  destruct (@reply_statuses sampleKb sampleFormat sampleHost
              "You are an assistant." busyEngine
              (fun _ => "TypeError"%string) 5
              (JObj [("message"%string, JStr "hello there");
                     ("conversationHistory"%string, JNull)]) (le_n 5))
    as (reply & run & HP & _ & _ & H500 & _).
  destruct (H500 eq_refl (or_intror (conj eq_refl (or_intror eq_refl))))
    as [Hr Hsent].
  exists run. rewrite Hr in HP. split; [exact HP | exact Hsent].
Defined.

Lemma follow_up_witness :
  exists reply run,
    @POST sampleKb sampleFormat sampleHost "You are an assistant." busyEngine 5
      sampleBody = Some (reply, run)
    /\ @chained sampleFormat sampleHost sampleKb busyEngine run.(sent).
Proof.
  destruct (@requests_follow_up sampleKb sampleFormat sampleHost
              "You are an assistant." busyEngine 5 sampleBody (le_n 5))
    as (reply & run & HP & _ & Hch).
  exists reply, run. split; [exact HP | exact Hch].
Defined.

Lemma plain_answer_witness :
  exists run,
    @POST sampleKb sampleFormat sampleHost "You are an assistant." plainEngine 5
      sampleBody = Some (Ok "It is a discount." None [], run)
    /\ run.(iterations) = 0.
Proof.
  destruct (@answer_is_built_from_last_reply sampleKb sampleFormat sampleHost
              "You are an assistant." plainEngine 5 sampleBody (le_n 5))
    as (reply & run & HP & _ & Hplain).
  destruct (Hplain _ eq_refl eq_refl eq_refl) as (Hr & Hi & _);
    [discriminate|].
  exists run. rewrite Hr in HP. split; [exact HP | exact Hi].
Defined.

Lemma client_history_witness :
  exists reply run first rest,
    @POST sampleKb sampleFormat sampleHost "You are an assistant." plainEngine 5
      (chatRequestBody (map pageMessage (seq 1 12)) "and for term plans" "en")
    = Some (reply, run)
    /\ run.(sent) = first :: rest
    /\ length first.(messages) = 11.
Proof.
  destruct (@client_history_reaches_engine sampleKb sampleFormat sampleHost
              "You are an assistant." plainEngine 5
              (map pageMessage (seq 1 12)) "and for term plans"%string
              "en"%string (le_n 5) eq_refl)
    as (reply & run & first & rest & HP & _ & Hsent & Hfirst);
    [discriminate|].
  exists reply, run, first, rest. split; [exact HP|]. split; [exact Hsent|].
  rewrite Hfirst. reflexivity.
Defined.
